(** * dbt-bulk-codegen: a shallow embedding of [bulk_codegen.py]

    The development follows the module top to bottom.  Python [str] values
    are Rocq strings (sequences of code points below 256), dictionaries that
    are only ever iterated are association lists in insertion order, the file
    system is a finite map from paths to contents plus a finite set of
    directories, and every function that touches the outside world is a
    computation in a small state-and-exception monad over a [world]. *)

From Stdlib Require Import ZArith Lia Bool Ascii String DecimalString.
From stdpp Require Import base tactics option list gmap strings.

Set Warnings "-register-all".

Local Open Scope Z_scope.

(** ** Python [str] operations used by the module *)

Module PyStr.

Fixpoint drop (n : nat) (s : string) : string :=
  match n, s with
  | O, _ => s
  | S n', String _ s' => drop n' s'
  | S _, EmptyString => EmptyString
  end.

Fixpoint take (n : nat) (s : string) : string :=
  match n, s with
  | S n', String c s' => String c (take n' s')
  | _, _ => EmptyString
  end.

Definition startswith (s p : string) : bool := String.prefix p s.

Definition endswith (s p : string) : bool :=
  String.prefix (String.rev p) (String.rev s).

(** [s.find(sub)]: the lowest index at which [sub] occurs, [-1] if none. *)
Fixpoint find_from (sub s : string) (i : Z) : Z :=
  if String.prefix sub s then i
  else match s with
       | EmptyString => -1
       | String _ s' => find_from sub s' (i + 1)
       end.

Definition find (s sub : string) : Z := find_from sub s 0.

(** [s[i:]] with Python's treatment of a negative or too large start. *)
Definition slice_from (s : string) (i : Z) : string :=
  let n := Z.of_nat (String.length s) in
  let start := if i <? 0 then Z.max 0 (n + i) else Z.min i n in
  drop (Z.to_nat start) s.

(** [str.lower] on code points below 256: the ASCII capitals and the
    Latin-1 capitals (all of C0..DE but the multiplication sign D7). *)
Definition lower_char (c : ascii) : ascii :=
  let n := N_of_ascii c in
  if ((65 <=? n) && (n <=? 90))%N then ascii_of_N (n + 32)
  else if ((192 <=? n) && (n <=? 222) && negb (n =? 215))%N
       then ascii_of_N (n + 32)
       else c.

Fixpoint lower (s : string) : string :=
  match s with
  | EmptyString => EmptyString
  | String c s' => String (lower_char c) (lower s')
  end.

(** [s * n] *)
Fixpoint repeat (s : string) (n : nat) : string :=
  match n with
  | O => EmptyString
  | S n' => s +:+ repeat s n'
  end.

(** [sub in s] *)
Definition contains (s sub : string) : Prop :=
  exists pre post, s = pre +:+ sub +:+ post.

(** [s.rfind(c)] for a single character [c]. *)
Fixpoint rfind_char_from (c : ascii) (s : string) (i last : Z) : Z :=
  match s with
  | EmptyString => last
  | String a s' => rfind_char_from c s' (i + 1) (if Ascii.eqb a c then i else last)
  end.

Definition rfind_char (s : string) (c : ascii) : Z := rfind_char_from c s 0 (-1).

(** [s.rstrip(c)] for a single character [c]. *)
Fixpoint rstrip_char (s : string) (c : ascii) : string :=
  match s with
  | EmptyString => EmptyString
  | String a s' =>
      match rstrip_char s' c with
      | EmptyString => if Ascii.eqb a c then EmptyString else String a EmptyString
      | r => String a r
      end
  end.

(** [s == c * len(s)] *)
Fixpoint all_char (s : string) (c : ascii) : bool :=
  match s with
  | EmptyString => true
  | String a s' => Ascii.eqb a c && all_char s' c
  end.

(** [c in s] for a single character [c]. *)
Fixpoint has_char (s : string) (c : ascii) : bool :=
  match s with
  | EmptyString => false
  | String a s' => Ascii.eqb a c || has_char s' c
  end.

(** The last character of [s] is [c]. *)
Fixpoint last_is (s : string) (c : ascii) : bool :=
  match s with
  | EmptyString => false
  | String a EmptyString => Ascii.eqb a c
  | String _ s' => last_is s' c
  end.

Definition nl : string := String "010"%char EmptyString.

(** [str(b)] for a [bool], as an f-string prints it. *)
Definition of_bool (b : bool) : string := if b then "True" else "False".

(** [str(n)] for an [int]. *)
Definition of_int (z : Z) : string := NilZero.string_of_int (Z.to_int z).

End PyStr.

(** ** The [re] engine on the fragment the module's pattern uses

    A backtracking matcher in continuation-passing style: alternatives are
    tried left to right and repetition is greedy, as in Python's [re]. *)

Module Re.

(** A character class is a list of inclusive ranges. *)
Definition charset := list (ascii * ascii).

Definition in_range (c : ascii) (r : ascii * ascii) : bool :=
  ((N_of_ascii (fst r) <=? N_of_ascii c) && (N_of_ascii c <=? N_of_ascii (snd r)))%N.

Definition in_set (c : ascii) (cs : charset) : bool := existsb (in_range c) cs.

Inductive regex : Type :=
| Lit (c : ascii)
| Class (cs : charset)
| Seq (r1 r2 : regex)
| Alt (r1 r2 : regex)
| Star (cs : charset).

Fixpoint star_k (cs : charset) (s : string) (k : string -> option string)
  : option string :=
  match s with
  | String c s' =>
      if in_set c cs
      then match star_k cs s' k with
           | Some r => Some r
           | None => k s
           end
      else k s
  | EmptyString => k s
  end.

Fixpoint match_k (r : regex) (s : string) (k : string -> option string)
  : option string :=
  match r with
  | Lit c =>
      match s with
      | String c' s' => if Ascii.eqb c c' then k s' else None
      | EmptyString => None
      end
  | Class cs =>
      match s with
      | String c' s' => if in_set c' cs then k s' else None
      | EmptyString => None
      end
  | Seq r1 r2 => match_k r1 s (fun s' => match_k r2 s' k)
  | Alt r1 r2 =>
      match match_k r1 s k with
      | Some x => Some x
      | None => match_k r2 s k
      end
  | Star cs => star_k cs s k
  end.

(** [pattern.match] anchored at the head of [s]: the text left after the
    match, [None] when the pattern does not match there. *)
Definition match_at (r : regex) (s : string) : option string := match_k r s Some.

(** [pattern.sub('', s)]: scan left to right, drop every non-empty match,
    keep every other character.  Each round consumes at least one
    character, so [String.length s] rounds always suffice. *)
Fixpoint sub_loop (fuel : nat) (r : regex) (s : string) : string :=
  match fuel with
  | O => s
  | S fuel' =>
      match s with
      | EmptyString => EmptyString
      | String c s' =>
          match match_at r s with
          | Some rest =>
              if (String.length rest <? String.length s)%nat
              then sub_loop fuel' r rest
              else String c (sub_loop fuel' r s')
          | None => String c (sub_loop fuel' r s')
          end
      end
  end.

Definition sub_empty (r : regex) (s : string) : string :=
  sub_loop (String.length s) r s.

(** [pattern.search(s) is not None] *)
Fixpoint search (r : regex) (s : string) : bool :=
  match match_at r s with
  | Some _ => true
  | None =>
      match s with
      | EmptyString => false
      | String _ s' => search r s'
      end
  end.

(** The pattern occurs somewhere in [s]. *)
Definition occurs (r : regex) (s : string) : Prop :=
  exists pre post, s = pre +:+ post /\ match_at r post <> None.

End Re.

(** Line 40: [re.compile(r'\x1B(?:[@-Z\\-_]|\[[0-?]*[ -/]*[@-~])')].
    Inside the first class, [\\-_] is the range from backslash to
    underscore. *)
Definition ESC : ascii := "027"%char.

Definition regex_ansi_escape_sequences : Re.regex :=
  Re.Seq (Re.Lit ESC)
    (Re.Alt
       (Re.Class [("@", "Z"); ("\", "_")]%char)
       (Re.Seq (Re.Lit "["%char)
          (Re.Seq (Re.Star [("0", "?")]%char)
             (Re.Seq (Re.Star [(" ", "/")]%char)
                (Re.Class [("@", "~")]%char))))).

(** The pattern as the specification words it: ESC followed by a single
    byte in [@]..[Z], a backslash, [^] or [_], or by [[] with parameter
    bytes, intermediate bytes and a final byte in [@]..[~]. *)
Definition spec_ansi_pattern : Re.regex :=
  Re.Seq (Re.Lit ESC)
    (Re.Alt
       (Re.Class [("@", "Z"); ("\", "\"); ("^", "^"); ("_", "_")]%char)
       (Re.Seq (Re.Lit "["%char)
          (Re.Seq (Re.Star [("0", "?")]%char)
             (Re.Seq (Re.Star [(" ", "/")]%char)
                (Re.Class [("@", "~")]%char))))).

(** ** [posixpath] *)

Module PosixPath.

(** [os.path.join(a, b)] *)
Definition join (a b : string) : string :=
  if PyStr.startswith b "/" then b
  else if String.eqb a "" || PyStr.endswith a "/" then a +:+ b
  else a +:+ "/" +:+ b.

(** [os.path.dirname(p)] *)
Definition dirname (p : string) : string :=
  let i := PyStr.rfind_char p "/" + 1 in
  let head := PyStr.take (Z.to_nat i) p in
  if negb (String.eqb head "") && negb (PyStr.all_char head "/")
  then PyStr.rstrip_char head "/"
  else head.

(** [os.path.basename(p)]: what follows the last separator. *)
Fixpoint basename (p : string) : string :=
  match p with
  | EmptyString => EmptyString
  | String c p' =>
      if PyStr.has_char p' "/" then basename p'
      else if Ascii.eqb c "/" then p' else p
  end.

(** The chain [dirname p], [dirname (dirname p)], ... up to the point
    where [dirname] no longer changes the path. *)
Fixpoint parents_loop (fuel : nat) (p : string) : list string :=
  match fuel with
  | O => []
  | S fuel' =>
      let d := dirname p in
      if String.eqb d p || String.eqb d "" then []
      else d :: parents_loop fuel' d
  end.

Definition parents (p : string) : list string :=
  parents_loop (String.length p) p.

End PosixPath.

(** ** The outside world

    Paths are compared as written: the model resolves a relative path
    against the working directory by [join] and does not interpret [.],
    [..], repeated separators or symbolic links.  An external command is
    known by its exit status and its captured standard output only. *)

Inductive open_mode : Type := ModeR | ModeW | ModeA.

Inductive cmdline : Type :=
| Shell (cmd : string)
| Argv (args : list string).

Inductive event : Type :=
| ELog (msg : string)
| ERun (c : cmdline) (dir : string)
| EMakedirs (p : string)
| EOpen (p : string) (mode : open_mode).

Record world : Type := World {
  files : gmap string string;
  dirs : gset string;
  cwd : string;
  trace : list event
}.

Inductive exn : Type :=
| FileExistsError (msg : string)
| FileNotFoundError (p : string)
| IsADirectoryError (p : string)
| NotADirectoryError (p : string)
| ValueError (msg : string)
| CalledProcessError (returncode : Z) (c : cmdline)
| TypeError
| AttributeError
| KeyError
| IndexError
| YAMLError.

(** A call returns, raises, or never comes back. *)
Inductive outcome (A : Type) : Type :=
| Ok (a : A)
| Raise (e : exn)
| Hang.
Arguments Ok {A} a.
Arguments Raise {A} e.
Arguments Hang {A}.

Definition M (A : Type) : Type := world -> outcome A * world.

Definition ret {A} (a : A) : M A := fun w => (Ok a, w).

Definition bind {A B} (c : M A) (k : A -> M B) : M B :=
  fun w =>
    match c w with
    | (Ok a, w') => k a w'
    | (Raise e, w') => (Raise e, w')
    | (Hang, w') => (Hang, w')
    end.

Definition raise {A} (e : exn) : M A := fun w => (Raise e, w).

Definition lift {A} (o : outcome A) : M A := fun w => (o, w).

Declare Scope prog_scope.
Delimit Scope prog_scope with prog.
Notation "x <- c ;; k" := (bind c (fun x => k))
  (at level 100, c at next level, right associativity) : prog_scope.
Notation "c ;; k" := (bind c (fun _ => k))
  (at level 100, right associativity) : prog_scope.
Local Open Scope prog_scope.

(** [for x in l: body(x)] *)
Fixpoint for_each {A} (l : list A) (body : A -> M unit) : M unit :=
  match l with
  | [] => ret tt
  | x :: l' => body x ;; for_each l' body
  end.

(** [acc = []; for x in l: acc.append(body(x))] and list comprehensions. *)
Fixpoint for_collect {A B} (l : list A) (body : A -> M B) : M (list B) :=
  match l with
  | [] => ret []
  | x :: l' => y <- body x ;; ys <- for_collect l' body ;; ret (y :: ys)
  end.

Definition emit (e : event) : M unit :=
  fun w => (Ok tt, World (files w) (dirs w) (cwd w) (trace w ++ [e])).

(** [logging.info(msg)] *)
Definition logging_info (msg : string) : M unit := emit (ELog msg).

Module OS.

Definition abspath (w : world) (p : string) : string := PosixPath.join (cwd w) p.

Definition isfile (w : world) (p : string) : bool :=
  bool_decide (is_Some (files w !! abspath w p)).

Definition isdir (w : world) (p : string) : bool :=
  bool_decide (abspath w p ∈ dirs w).

Definition exists_ (w : world) (p : string) : bool := isfile w p || isdir w p.

(** [os.getcwd()] *)
Definition getcwd : M string := fun w => (Ok (cwd w), w).

Definition path_isfile (p : string) : M bool := fun w => (Ok (isfile w p), w).

Definition path_exists (p : string) : M bool := fun w => (Ok (exists_ w p), w).

(** [os.makedirs(p, exist_ok=True)]: the directory and every missing
    parent are created; a regular file in the way is an error. *)
Definition makedirs (p : string) : M unit :=
  emit (EMakedirs p) ;;
  fun w =>
    let a := abspath w p in
    if bool_decide (is_Some (files w !! a)) then (Raise (FileExistsError a), w)
    else
      match List.find (fun d => bool_decide (is_Some (files w !! d))) (PosixPath.parents a) with
      | Some d => (Raise (NotADirectoryError d), w)
      | None =>
          (Ok tt, World (files w) (dirs w ∪ {[a]} ∪ list_to_set (PosixPath.parents a))
                    (cwd w) (trace w))
      end.

(** [with open(p, 'r') as f: f.read()] *)
Definition read_file (p : string) : M string :=
  emit (EOpen p ModeR) ;;
  fun w =>
    let a := abspath w p in
    match files w !! a with
    | Some content => (Ok content, w)
    | None =>
        if bool_decide (a ∈ dirs w) then (Raise (IsADirectoryError a), w)
        else (Raise (FileNotFoundError a), w)
    end.

(** [with open(p, mode) as f: f.write(content)] for [mode] ['w'] or
    ['a']: the parent directory must exist and the path must not name a
    directory; ['w'] truncates, ['a'] keeps what the file holds. *)
Definition write_file (p : string) (mode : open_mode) (content : string) : M unit :=
  emit (EOpen p mode) ;;
  fun w =>
    let a := abspath w p in
    if bool_decide (a ∈ dirs w) then (Raise (IsADirectoryError a), w)
    else if negb (bool_decide (PosixPath.dirname a ∈ dirs w))
    then (Raise (FileNotFoundError a), w)
    else
      let old := match mode with
                 | ModeA => default "" (files w !! a)
                 | _ => ""
                 end in
      (Ok tt, World (<[a := old +:+ content]> (files w)) (dirs w) (cwd w) (trace w)).

End OS.

(** ** Values produced by [yaml.safe_load] and the Python operations the
    module applies to them *)

Inductive yaml : Type :=
| YNull
| YBool (b : bool)
| YInt (z : Z)
| YStr (s : string)
| YSeq (l : list yaml)
| YMap (kv : list (yaml * yaml)).

Module Py.

Definition obind {A B} (o : outcome A) (k : A -> outcome B) : outcome B :=
  match o with
  | Ok a => k a
  | Raise e => Raise e
  | Hang => Hang
  end.

Fixpoint omap {A B} (f : A -> outcome B) (l : list A) : outcome (list B) :=
  match l with
  | [] => Ok []
  | x :: l' => obind (f x) (fun y => obind (omap f l') (fun ys => Ok (y :: ys)))
  end.

(** [bool(v)] *)
Definition truthy (v : yaml) : bool :=
  match v with
  | YNull => false
  | YBool b => b
  | YInt z => negb (z =? 0)
  | YStr s => negb (String.eqb s "")
  | YSeq l => match l with [] => false | _ => true end
  | YMap kv => match kv with [] => false | _ => true end
  end.

Definition is_str (s : string) (v : yaml) : bool :=
  match v with
  | YStr s' => String.eqb s s'
  | _ => false
  end.

(** [k == 0] for a dictionary key [k]: [False] and [0] are the same key. *)
Definition is_zero (v : yaml) : bool :=
  match v with
  | YInt z => z =? 0
  | YBool b => negb b
  | _ => false
  end.

Definition lookup_key (is_key : yaml -> bool) (kv : list (yaml * yaml)) : option yaml :=
  match List.find (fun p => is_key (fst p)) kv with
  | Some p => Some (snd p)
  | None => None
  end.

(** [v.get(key, dflt)] *)
Definition get (v : yaml) (key : string) (dflt : yaml) : outcome yaml :=
  match v with
  | YMap kv => Ok (default dflt (lookup_key (is_str key) kv))
  | _ => Raise AttributeError
  end.

(** [v[key]] for a string [key] *)
Definition getitem (v : yaml) (key : string) : outcome yaml :=
  match v with
  | YMap kv =>
      match lookup_key (is_str key) kv with
      | Some x => Ok x
      | None => Raise KeyError
      end
  | _ => Raise TypeError
  end.

(** [v[0]] *)
Definition getitem0 (v : yaml) : outcome yaml :=
  match v with
  | YSeq (x :: _) => Ok x
  | YSeq [] => Raise IndexError
  | YStr (String c _) => Ok (YStr (String c EmptyString))
  | YStr EmptyString => Raise IndexError
  | YMap kv =>
      match lookup_key is_zero kv with
      | Some x => Ok x
      | None => Raise KeyError
      end
  | _ => Raise TypeError
  end.

Fixpoint chars (s : string) : list yaml :=
  match s with
  | EmptyString => []
  | String c s' => YStr (String c EmptyString) :: chars s'
  end.

(** [for x in v] *)
Definition iter (v : yaml) : outcome (list yaml) :=
  match v with
  | YSeq l => Ok l
  | YMap kv => Ok (List.map fst kv)
  | YStr s => Ok (chars s)
  | _ => Raise TypeError
  end.

(** [v] used as a dictionary key and printed by an f-string: sequences
    and mappings are unhashable. *)
Definition key_str (v : yaml) : outcome string :=
  match v with
  | YNull => Ok "None"
  | YBool b => Ok (PyStr.of_bool b)
  | YInt z => Ok (PyStr.of_int z)
  | YStr s => Ok s
  | YSeq _ | YMap _ => Raise TypeError
  end.

End Py.

(** ** The data the planner builds *)

(** [{"file_name": ..., "base_command": ...}]; the command is absent until
    [base_command_generator] adds it. *)
Record table_data : Type := TableData {
  file_name : string;
  base_command : option string
}.

(** [{table_name: table_data}] *)
Definition table_mapping : Type := list (string * table_data).

(** The dictionary stored under a source name; ["tables"] is absent until
    [src_yml_scan] adds it. *)
Record source_data : Type := SourceData {
  destination_folder : string;
  destination_file_name : string;
  source_destination_path : string;
  source_command : string;
  tables : option (list table_mapping)
}.

(** [{source_name: source_data}] *)
Definition source_mapping : Type := list (string * source_data).

(** [{source_name: [table_mapping, ...]}] *)
Definition base_mapping : Type := list (string * list table_mapping).

(** [bash_run_and_make_files] takes either shape of plan. *)
Inductive command_mappings : Type :=
| SrcMappings (l : list source_mapping)
| BaseMappings (l : list base_mapping).

Definition dq : string := String "034"%char EmptyString.

Definition codegen_package : string := "fishtown-analytics/codegen".

(** ** The module's functions *)

Section BulkCodegen.

(** What an external command answers when run in a directory: exit status
    and standard output.  It may depend on everything that happened so
    far. *)
Variable subprocess : cmdline -> string -> world -> Z * string.

(** [yaml.safe_load] on a file's text; [None] when the text does not
    parse. *)
Variable yaml_safe_load : string -> option yaml.

(** [subprocess.run(c, check=True, cwd=dir, ...)], returning [stdout]. *)
Definition subprocess_run (c : cmdline) (dir : string) : M string :=
  emit (ERun c dir) ;;
  fun w =>
    let '(returncode, stdout) := subprocess c dir w in
    if returncode =? 0 then (Ok stdout, w)
    else (Raise (CalledProcessError returncode c), w).

Definition safe_load (text : string) : M yaml :=
  match yaml_safe_load text with
  | Some v => ret v
  | None => raise YAMLError
  end.

(** Lines 59-66: the [while] loop.  [dirname] shortens the path at every
    round until it reaches a path it maps to itself. *)
Fixpoint fetch_loop (fuel : nat) (project_directory root_path : string) : M string :=
  if String.eqb project_directory root_path
  then raise (FileExistsError
                ("No dbt_project.yml file found in current or any direct parent paths. You need to run "
                 +:+ "bulk-codegen from within a dbt project in order to use its tooling"))
  else
    match fuel with
    | O => lift Hang
    | S fuel' =>
        let dbt_project_file := PosixPath.join project_directory "dbt_project.yml" in
        found <- OS.path_exists dbt_project_file ;;
        if found : bool
        then logging_info ("Running bulk-codegen against dbt project at path: "
                           +:+ project_directory) ;;
             ret project_directory
        else fetch_loop fuel' (PosixPath.dirname project_directory) root_path
    end.

Definition fetch_dbt_project (custom_project_path : option string) : M string :=
  project_directory <- OS.getcwd ;;
  let root_path := "/" in
  match custom_project_path with
  | Some p =>
      if negb (String.eqb p "") then ret p
      else fetch_loop (S (String.length project_directory)) project_directory root_path
  | None => fetch_loop (S (String.length project_directory)) project_directory root_path
  end.

Definition run_dbt_deps (project_directory : string) : M unit :=
  let project_packages_file := PosixPath.join project_directory "packages.yml" in
  present <- OS.path_isfile project_packages_file ;;
  if negb present
  then raise (FileExistsError "You must have a packages.yml file specified in your project")
  else
    text <- OS.read_file project_packages_file ;;
    loaded <- safe_load text ;;
    let package_data := if Py.truthy loaded then loaded else YMap [] in
    packages <- lift (Py.get package_data "packages" (YMap [])) ;;
    entries <- lift (Py.iter packages) ;;
    package_list <- lift (Py.omap (fun entry => Py.get entry "package" YNull) entries) ;;
    if negb (existsb (Py.is_str codegen_package) package_list)
    then raise (ValueError
                  ("You have not brought the codegen dbt package into your project! You must include the package "
                   +:+ "'fishtown-analytics/codegen' in your `packages.yml` file to use bulk-codegen."))
    else
      logging_info "Fetching dbt project package dependencies, including dbt codegen" ;;
      _ <- subprocess_run (Argv ["dbt"; "deps"]) project_directory ;;
      ret tt.

Definition source_cmd_generator (db_name : string) (source_list : list string)
    (generate_columns : bool) (destination_folder_path : string)
  : M (list source_mapping) :=
  for_collect source_list (fun source =>
    let destination_folder := PosixPath.join destination_folder_path source in
    OS.makedirs destination_folder ;;
    let output_file_name := "_src_" +:+ source +:+ ".yml" in
    let destination_file_path := PosixPath.join destination_folder output_file_name in
    logging_info ("Creating source YAML schema command for source schema: " +:+ source) ;;
    let src_cmd :=
      "dbt run-operation generate_source --args '{" +:+ dq +:+ "schema_name" +:+ dq +:+ ": "
      +:+ dq +:+ source +:+ dq +:+ ", " +:+ dq +:+ "database_name" +:+ dq +:+ ": "
      +:+ dq +:+ db_name +:+ dq +:+ ", " +:+ dq +:+ "generate_columns" +:+ dq +:+ ": "
      +:+ PyStr.of_bool generate_columns +:+ "}'" in
    ret [(source, {| destination_folder := destination_folder;
                     destination_file_name := output_file_name;
                     source_destination_path := destination_file_path;
                     source_command := src_cmd;
                     tables := None |})]).

(** Lines 122-124: the tables of a loaded declaration, each with the
    path of its staging model. *)
Definition table_names_of (source_name folder : string) (data_loaded : yaml)
  : outcome (list table_mapping) :=
  Py.obind (Py.getitem data_loaded "sources") (fun sources =>
  Py.obind (Py.getitem0 sources) (fun first =>
  Py.obind (Py.getitem first "tables") (fun tables_list =>
  Py.obind (Py.iter tables_list) (fun ds =>
  Py.omap (fun d =>
    Py.obind (Py.getitem d "name") (fun name =>
    Py.obind (Py.key_str name) (fun name =>
    Ok [(name, {| file_name := PosixPath.join folder
                                 ("stg_" +:+ source_name +:+ "__" +:+ name +:+ ".sql");
                  base_command := None |})]))) ds)))).

Definition src_yml_scan (source_mappings : list source_mapping)
  : M (list source_mapping) :=
  per_mapping <- for_collect source_mappings (fun source_mapping =>
    for_collect source_mapping (fun '(source_name, mapping_data) =>
      text <- OS.read_file (source_destination_path mapping_data) ;;
      data_loaded <- safe_load text ;;
      table_names <- lift (table_names_of source_name
                             (destination_folder mapping_data) data_loaded) ;;
      ret [(source_name,
            {| destination_folder := destination_folder mapping_data;
               destination_file_name := destination_file_name mapping_data;
               source_destination_path := source_destination_path mapping_data;
               source_command := source_command mapping_data;
               tables := Some table_names |})])) ;;
  ret (concat per_mapping).

Definition base_command_generator (source_name : string)
    (table_mappings : list table_mapping) (destination_folder_path : string)
  : M (list table_mapping) :=
  for_collect table_mappings (fun table_mapping =>
    for_collect table_mapping (fun '(table, mapping_data) =>
      OS.makedirs destination_folder_path ;;
      let base_cmd :=
        "dbt run-operation generate_base_model --args '{" +:+ dq +:+ "source_name" +:+ dq
        +:+ ": " +:+ dq +:+ source_name +:+ dq +:+ ", " +:+ dq +:+ "table_name" +:+ dq
        +:+ ": " +:+ dq +:+ table +:+ dq +:+ "}'" in
      ret (table, {| file_name := file_name mapping_data;
                     base_command := Some base_cmd |}))).

Definition all_base_commands_generator (source_table_mappings : list source_mapping)
  : M (list base_mapping) :=
  per_mapping <- for_collect source_table_mappings (fun source_mapping =>
    for_collect source_mapping (fun '(source_name, mapping_data) =>
      logging_info ("Creating base model generation commands for source schema: "
                    +:+ source_name) ;;
      match tables mapping_data with
      | None => raise TypeError
      | Some table_mappings =>
          source_base_model_commands <-
            base_command_generator source_name table_mappings
              ("models/" +:+ source_name) ;;
          ret [(source_name, source_base_model_commands)]
      end)) ;;
  ret (concat per_mapping).

(** [if_exists.lower() == 'skip' and os.path.isfile(path)] *)
Definition skip_existing (if_exists path : string) : M bool :=
  if String.eqb (PyStr.lower if_exists) "skip" then OS.path_isfile path else ret false.

Definition open_mode_of (if_exists : string) : open_mode :=
  if String.eqb (PyStr.lower if_exists) "replace" then ModeW else ModeA.

(** Lines 179-180 and 206-207. *)
Definition clean_output (marker stdout : string) : string :=
  let cleaned_prefix_result := PyStr.slice_from stdout (PyStr.find stdout marker) in
  Re.sub_empty regex_ansi_escape_sequences cleaned_prefix_result.

(** Lines 170-190: the body of the source loop. *)
Definition source_step (if_exists project_directory : string)
    (item : string * source_data) : M unit :=
  let '(source_name, command_data) := item in
  skip <- skip_existing if_exists (source_destination_path command_data) ;;
  if skip : bool
  then logging_info ("Skipping source generation for source `" +:+ source_name
                     +:+ "` as this source YAML file already exists at path: "
                     +:+ source_destination_path command_data)
  else
    logging_info ("Running dbt run-operation generate_source for source: "
                  +:+ source_name +:+ "...") ;;
    stdout <- subprocess_run (Shell (source_command command_data)) project_directory ;;
    let final_source_yaml_result := clean_output "version: 2" stdout in
    let open_mode := open_mode_of if_exists in
    logging_info ("Creating clean dbt source YAML file for source `" +:+ source_name
                  +:+ "` to file path: " +:+ source_destination_path command_data) ;;
    OS.write_file (source_destination_path command_data) open_mode
      final_source_yaml_result.

(** Lines 197-217: the body of the base-model loop. *)
Definition base_step (if_exists project_directory source_name : string)
    (item : string * table_data) : M unit :=
  let '(table_name, table_data) := item in
  skip <- skip_existing if_exists (file_name table_data) ;;
  if skip : bool
  then logging_info ("Skipping model for table `" +:+ table_name +:+ "` in source "
                     +:+ source_name +:+ " as its model SQL file already exists at path: "
                     +:+ file_name table_data)
  else
    logging_info ("Running dbt run-operation generate_base_model for " +:+ source_name
                  +:+ "." +:+ table_name +:+ "...") ;;
    match base_command table_data with
    | None => raise TypeError
    | Some cmd =>
        stdout <- subprocess_run (Shell cmd) project_directory ;;
        let final_base_model_result := clean_output "with source as" stdout in
        let open_mode := open_mode_of if_exists in
        logging_info ("Creating dbt model staging SQL file for table `" +:+ table_name
                      +:+ "` in source `" +:+ source_name +:+ "` to file path: "
                      +:+ file_name table_data) ;;
        OS.write_file (file_name table_data) open_mode final_base_model_result
    end.

Definition bash_run_and_make_files (cmd_type : string) (mappings : command_mappings)
    (if_exists project_directory : string) : M unit :=
  if String.eqb cmd_type "src"
  then
    match mappings with
    | SrcMappings l =>
        for_each l (fun mapping =>
          for_each mapping (source_step if_exists project_directory))
    | BaseMappings l =>
        (* a list has no [get] *)
        for_each l (fun mapping =>
          for_each mapping (fun '(source_name, _) =>
            if String.eqb (PyStr.lower if_exists) "skip" then raise AttributeError
            else
              logging_info ("Running dbt run-operation generate_source for source: "
                            +:+ source_name +:+ "...") ;;
              raise AttributeError))
    end
  else
    match mappings with
    | BaseMappings l =>
        for_each l (fun mapping =>
          for_each mapping (fun '(source_name, source_data) =>
            for_each source_data (fun table_mappings =>
              for_each table_mappings
                (base_step if_exists project_directory source_name))))
    | SrcMappings l =>
        (* iterating a dictionary yields its keys, and a [str] has no [items] *)
        for_each l (fun mapping =>
          for_each mapping (fun _ => raise AttributeError))
    end.

(** [main] with its four literal settings as parameters. *)
Definition main_with (source_database_name : string) (source_schemas_list : list string)
    (custom_dbt_project_path : option string) (if_exists_behavior : string) : M unit :=
  dbt_project_directory <- fetch_dbt_project custom_dbt_project_path ;;
  let models_directory := PosixPath.join dbt_project_directory "models" in
  run_dbt_deps dbt_project_directory ;;
  source_command_mappings <-
    source_cmd_generator source_database_name source_schemas_list true models_directory ;;
  bash_run_and_make_files "src" (SrcMappings source_command_mappings)
    if_exists_behavior dbt_project_directory ;;
  source_command_mappings <- src_yml_scan source_command_mappings ;;
  source_with_base_command_mappings <-
    all_base_commands_generator source_command_mappings ;;
  bash_run_and_make_files "base" (BaseMappings source_with_base_command_mappings)
    if_exists_behavior dbt_project_directory ;;
  logging_info "bulk-codegen processing completed.".

Definition main : M unit := main_with "lake" ["fivetran_log"; "sales"] None "skip".

End BulkCodegen.

(** ** Vocabulary for the statements *)

(** The world after some more events were recorded. *)
Definition add_events (w : world) (es : list event) : world :=
  World (files w) (dirs w) (cwd w) (trace w ++ es).

(** The shell commands of a trace: the generation commands, the only
    commands the module runs through a shell. *)
Fixpoint generation_commands (t : list event) : list string :=
  match t with
  | [] => []
  | ERun (Shell cmd) _ :: t' => cmd :: generation_commands t'
  | _ :: t' => generation_commands t'
  end.

(** The paths handed to [os.makedirs] in a trace. *)
Fixpoint makedirs_calls (t : list event) : list string :=
  match t with
  | [] => []
  | EMakedirs p :: t' => p :: makedirs_calls t'
  | _ :: t' => makedirs_calls t'
  end.


(** What a file holds, the empty text when there is no such file. *)
Definition contents (w : world) (p : string) : string :=
  default "" (files w !! OS.abspath w p).

(** [open(p, 'w')] and [open(p, 'a')] succeed at [p]: it is no directory and
    the directory it lies in exists. *)
Definition writable (w : world) (p : string) : bool :=
  negb (OS.isdir w p) && bool_decide (PosixPath.dirname (OS.abspath w p) ∈ dirs w).

(** The two loop bodies of [bash_run_and_make_files] have one shape; this
    is it, with the marker, the path, the command and the three log
    messages left open. *)
Definition execute_entry (subprocess : cmdline -> string -> world -> Z * string)
    (marker path : string) (cmd : option string) (skip_msg run_msg write_msg : string)
    (if_exists project_directory : string) : M unit :=
  skip <- skip_existing if_exists path ;;
  if skip : bool
  then logging_info skip_msg
  else
    logging_info run_msg ;;
    match cmd with
    | None => raise TypeError
    | Some c =>
        stdout <- subprocess_run subprocess (Shell c) project_directory ;;
        logging_info write_msg ;;
        OS.write_file path (open_mode_of if_exists) (clean_output marker stdout)
    end.

(** The entries of a source plan and of a base-model plan in the order the
    nested loops visit them. *)
Definition source_items (l : list source_mapping) : list (string * source_data) :=
  concat l.

Definition base_items (l : list base_mapping) : list (string * (string * table_data)) :=
  concat (List.map (fun mapping : base_mapping =>
    concat (List.map (fun item : string * list table_mapping =>
      List.map (fun t => (fst item, t)) (concat (snd item))) mapping)) l).

(** The plan [source_cmd_generator] builds for one schema. *)
Definition source_entry (db_name : string) (generate_columns : bool)
    (destination_folder_path source : string) : source_mapping :=
  let folder := PosixPath.join destination_folder_path source in
  let name := "_src_" +:+ source +:+ ".yml" in
  [(source, {| destination_folder := folder;
               destination_file_name := name;
               source_destination_path := PosixPath.join folder name;
               source_command :=
                 "dbt run-operation generate_source --args '{" +:+ dq +:+ "schema_name"
                 +:+ dq +:+ ": " +:+ dq +:+ source +:+ dq +:+ ", " +:+ dq
                 +:+ "database_name" +:+ dq +:+ ": " +:+ dq +:+ db_name +:+ dq +:+ ", "
                 +:+ dq +:+ "generate_columns" +:+ dq +:+ ": "
                 +:+ PyStr.of_bool generate_columns +:+ "}'";
               tables := None |})].

(** The destination paths of a source plan. *)
Definition source_paths (l : list source_mapping) : list string :=
  List.map (fun item => source_destination_path (snd item)) (source_items l).

(** A directory or schema name that [join] treats as one plain component
    on either side: not empty, no separator at its head or tail. *)
Definition plain (s : string) : Prop :=
  s <> "" /\ PyStr.startswith s "/" = false /\ PyStr.endswith s "/" = false.

(** One entry of either plan, and the Executor on it: the body of the
    loop that [bash_run_and_make_files] runs for that kind of entry. *)
Inductive plan_entry : Type :=
| SourceEntry (source_name : string) (d : source_data)
| BaseModelEntry (source_name table_name : string) (d : table_data).

Definition execute (subprocess : cmdline -> string -> world -> Z * string)
    (if_exists project_directory : string) (e : plan_entry) : M unit :=
  match e with
  | SourceEntry source_name d =>
      source_step subprocess if_exists project_directory (source_name, d)
  | BaseModelEntry source_name table_name d =>
      base_step subprocess if_exists project_directory source_name (table_name, d)
  end.

Definition marker_of (e : plan_entry) : string :=
  match e with
  | SourceEntry _ _ => "version: 2"
  | BaseModelEntry _ _ _ => "with source as"
  end.

Definition destination_of (e : plan_entry) : string :=
  match e with
  | SourceEntry _ d => source_destination_path d
  | BaseModelEntry _ _ d => file_name d
  end.

Definition command_of (e : plan_entry) : option string :=
  match e with
  | SourceEntry _ d => Some (source_command d)
  | BaseModelEntry _ _ d => base_command d
  end.

Definition skip_msg (e : plan_entry) : string :=
  match e with
  | SourceEntry source_name d =>
      "Skipping source generation for source `" +:+ source_name
      +:+ "` as this source YAML file already exists at path: "
      +:+ source_destination_path d
  | BaseModelEntry source_name table_name d =>
      "Skipping model for table `" +:+ table_name +:+ "` in source " +:+ source_name
      +:+ " as its model SQL file already exists at path: " +:+ file_name d
  end.

Definition run_msg (e : plan_entry) : string :=
  match e with
  | SourceEntry source_name _ =>
      "Running dbt run-operation generate_source for source: " +:+ source_name +:+ "..."
  | BaseModelEntry source_name table_name _ =>
      "Running dbt run-operation generate_base_model for " +:+ source_name +:+ "."
      +:+ table_name +:+ "..."
  end.

Definition write_msg (e : plan_entry) : string :=
  match e with
  | SourceEntry source_name d =>
      "Creating clean dbt source YAML file for source `" +:+ source_name
      +:+ "` to file path: " +:+ source_destination_path d
  | BaseModelEntry source_name table_name d =>
      "Creating dbt model staging SQL file for table `" +:+ table_name
      +:+ "` in source `" +:+ source_name +:+ "` to file path: " +:+ file_name d
  end.

(** The entries of a plan in the order the nested loops reach them. *)
Definition plan_entries (m : command_mappings) : list plan_entry :=
  match m with
  | SrcMappings l => List.map (fun item => SourceEntry (fst item) (snd item)) (source_items l)
  | BaseMappings l =>
      List.map (fun item => BaseModelEntry (fst item) (fst (snd item)) (snd (snd item)))
        (base_items l)
  end.

(** The [cmd_type] under which [main] runs a plan of each shape. *)
Definition cmd_type_of (m : command_mappings) : string :=
  match m with
  | SrcMappings _ => "src"
  | BaseMappings _ => "base"
  end.

(** Whether the Executor passes over an entry: policy skip and the
    destination is there. *)
Definition skipped (if_exists : string) (w : world) (e : plan_entry) : bool :=
  String.eqb (PyStr.lower if_exists) "skip" && OS.isfile w (destination_of e).

(** The world in which the command of [e] is answered, and the one in
    which its output is written. *)
Definition at_run (project_directory : string) (c : string) (e : plan_entry) (w : world)
  : world :=
  add_events w [ELog (run_msg e); ERun (Shell c) project_directory].

Definition at_write (project_directory : string) (c : string) (e : plan_entry) (w : world)
  : world :=
  add_events w [ELog (run_msg e); ERun (Shell c) project_directory; ELog (write_msg e)].

(** ** Concrete worlds and tools for the examples *)

Module Demo.

(** A tool that always succeeds with the same output. *)
Definition answers (out : string) : cmdline -> string -> world -> Z * string :=
  fun _ _ _ => (0, out).

(** A tool that always exits with the given status. *)
Definition exits (code : Z) : cmdline -> string -> world -> Z * string :=
  fun _ _ _ => (code, "").

(** The plan entry of schema [sales] in database [lake] under [/p/models]. *)
Definition sales_data : source_data :=
  {| destination_folder := "/p/models/sales";
     destination_file_name := "_src_sales.yml";
     source_destination_path := "/p/models/sales/_src_sales.yml";
     source_command := "generate sales";
     tables := None |}.

Definition sales : plan_entry := SourceEntry "sales" sales_data.

Definition orders : plan_entry :=
  BaseModelEntry "sales" "orders"
    {| file_name := "/p/models/sales/stg_sales__orders.sql";
       base_command := Some "generate orders" |}.

(** A project at [/p] whose [models/sales] directory exists and is
    empty. *)
Definition empty_project : world :=
  World ∅ {[ "/"; "/p"; "/p/models"; "/p/models/sales" ]} "/p" [].

(** The same project with a source declaration already in place. *)
Definition project_with_source : world :=
  World {[ "/p/models/sales/_src_sales.yml" := "old" ]}
    {[ "/"; "/p"; "/p/models"; "/p/models/sales" ]} "/p" [].

End Demo.

Module Demo2.

(** A tool that fails with status 2 on one command and answers a staging
    model on every other. *)
Definition fails_on (bad : string) : cmdline -> string -> world -> Z * string :=
  fun c _ _ =>
    match c with
    | Shell cmd => if String.eqb cmd bad then (2, "") else (0, "with source as (select 1)")
    | Argv _ => (0, "")
    end.

Definition customers : plan_entry :=
  BaseModelEntry "sales" "customers"
    {| file_name := "/p/models/sales/stg_sales__customers.sql";
       base_command := Some "generate customers" |}.

(** The base-model plan of schema [sales] with tables [orders] and
    [customers]. *)
Definition sales_models : command_mappings :=
  BaseMappings [[("sales", [[("orders",
     {| file_name := "/p/models/sales/stg_sales__orders.sql";
        base_command := Some "generate orders" |})];
     [("customers",
     {| file_name := "/p/models/sales/stg_sales__customers.sql";
        base_command := Some "generate customers" |})]])]].

(** The project after the model of [orders] was written. *)
Definition after_orders : world :=
  snd (execute (fails_on "generate customers") "replace" "/p" Demo.orders
         Demo.empty_project).

End Demo2.

Module Demo3.

(** A loader that reads every text as the mapping [{packages: []}]. *)
Definition loads_empty_packages (text : string) : option yaml :=
  Some (YMap [(YStr "packages", YSeq [])]).

(** A project whose [packages.yml] declares no package. *)
Definition project_without_packages : world :=
  World {[ "/p/packages.yml" := "packages: []"; "/p/dbt_project.yml" := "name: p" ]}
    {[ "/"; "/p" ]} "/p" [].

End Demo3.

(** [os.makedirs(p, exist_ok=True)] finds no regular file in its way. *)
Definition makedirs_ok (w : world) (p : string) : bool :=
  negb (bool_decide (is_Some (files w !! OS.abspath w p)))
  && forallb (fun d => negb (bool_decide (is_Some (files w !! d))))
       (PosixPath.parents (OS.abspath w p)).

(** The world after a successful [os.makedirs(p, exist_ok=True)]. *)
Definition after_makedirs (w : world) (p : string) : world :=
  World (files w)
    (dirs w ∪ {[OS.abspath w p]} ∪ list_to_set (PosixPath.parents (OS.abspath w p)))
    (cwd w) (trace w ++ [EMakedirs p]).

(** The destination path in the form the specification gives it. *)
Definition spec_source_path (root schema : string) : string :=
  root +:+ "/" +:+ schema +:+ "/_src_" +:+ schema +:+ ".yml".

(** ** Judgements on computations *)

(** Whatever [c] does, returning or not, the world it leaves is related
    by [R] to the one it started from. *)
Definition preserves {A} (R : world -> world -> Prop) (c : M A) : Prop :=
  forall w, R w (snd (c w)).

(** Whenever [c] returns, the value is [Q]. *)
Definition returns {A} (Q : A -> Prop) (c : M A) : Prop :=
  forall w a w', c w = (Ok a, w') -> Q a.

(** Nothing on disk changed and the working directory is the same. *)
Definition same_disk (w w' : world) : Prop :=
  files w' = files w /\ dirs w' = dirs w /\ cwd w' = cwd w.

(** No file changed, directories were at most added. *)
Definition same_files (w w' : world) : Prop :=
  files w' = files w /\ dirs w ⊆ dirs w' /\ cwd w' = cwd w.

(** No file changed and no generation command was run. *)
Definition quiet (w w' : world) : Prop :=
  files w' = files w /\ cwd w' = cwd w
  /\ generation_commands (trace w') = generation_commands (trace w).

(** The trace grew, and every [os.makedirs] call added to it is [P]. *)
Definition makes_only (P : string -> Prop) (w w' : world) : Prop :=
  exists es, trace w' = trace w ++ es /\ Forall P (makedirs_calls es).

(** The command [base_command_generator] builds for a table. *)
Definition base_cmd_of (source_name table : string) : string :=
  "dbt run-operation generate_base_model --args '{" +:+ dq +:+ "source_name" +:+ dq
  +:+ ": " +:+ dq +:+ source_name +:+ dq +:+ ", " +:+ dq +:+ "table_name" +:+ dq
  +:+ ": " +:+ dq +:+ table +:+ dq +:+ "}'".

(** What [base_command_generator] returns. *)
Definition with_commands (source_name : string) (table_mappings : list table_mapping)
  : list table_mapping :=
  List.map (List.map (fun item : string * table_data =>
    (fst item, {| file_name := file_name (snd item);
                  base_command := Some (base_cmd_of source_name (fst item)) |})))
    table_mappings.

(** What [all_base_commands_generator] returns. *)
Definition base_plan (source_table_mappings : list source_mapping) : list base_mapping :=
  List.map (fun item : string * source_data =>
    [(fst item, with_commands (fst item) (default [] (tables (snd item))))])
    (concat source_table_mappings).

(** The path of a table's staging model as the specification gives it. *)
Definition staging_path (folder source_name table : string) : string :=
  PosixPath.join folder ("stg_" +:+ source_name +:+ "__" +:+ table +:+ ".sql").

(** A directory name in the form [os.getcwd] and [dirname] give it: the
    root, or a name that is not empty and has no trailing separator. *)
Definition normal_dir (d : string) : Prop :=
  d = "/" \/ (d <> "" /\ PyStr.endswith d "/" = false).

(** The table manifest [src_yml_scan] attaches to a source whose
    declaration lists the tables [names]. *)
Definition manifest (folder source_name : string) (names : list string)
  : list table_mapping :=
  List.map (fun name =>
    [(name, {| file_name := staging_path folder source_name name;
               base_command := None |})]) names.

(** A source entry after the scan found the tables [names]. *)
Definition scanned (item : string * source_data) (names : list string) : source_mapping :=
  [(fst item,
    {| destination_folder := destination_folder (snd item);
       destination_file_name := destination_file_name (snd item);
       source_destination_path := source_destination_path (snd item);
       source_command := source_command (snd item);
       tables := Some (manifest (destination_folder (snd item)) (fst item) names) |})].

(** The events [all_base_commands_generator] adds for one source when
    every directory can be made. *)
Definition base_events (item : string * source_data) : list event :=
  ELog ("Creating base model generation commands for source schema: " +:+ fst item)
  :: List.map (fun _ => EMakedirs ("models/" +:+ fst item))
       (concat (default [] (tables (snd item)))).

Module Demo4.

(** A loader that reads every text as a declaration of the tables
    [orders] and [customers]. *)
Definition loads_two_tables (text : string) : option yaml :=
  Some (YMap [(YStr "version", YInt 2);
              (YStr "sources",
               YSeq [YMap [(YStr "name", YStr "sales");
                           (YStr "tables",
                            YSeq [YMap [(YStr "name", YStr "orders")];
                                  YMap [(YStr "name", YStr "customers")]])]])]).

(** The project of [Demo.project_with_source], entered at [/p/analysis]. *)
Definition project_from_subdirectory : world :=
  World {[ "/p/models/sales/_src_sales.yml" := "version: 2" ]}
    {[ "/"; "/p"; "/p/analysis"; "/p/models"; "/p/models/sales" ]} "/p/analysis" [].

End Demo4.

(** ** Well-formed surroundings for the project search *)

(** A schema name that is one path component and not the name of the
    project descriptor. *)
Definition schema_ok (s : string) : bool :=
  negb (PyStr.has_char s "/") && negb (String.eqb s "dbt_project.yml").

(** A directory name as [os.getcwd] and [dirname] give it: not empty, and
    either separators only or without a trailing separator. *)
Definition dir_like (d : string) : bool :=
  negb (String.eqb d "") && (PyStr.all_char d "/" || negb (PyStr.last_is d "/")).

(** Every directory has its parent directory. *)
Definition dirs_closed (ds : gset string) : Prop :=
  forall d, d ∈ ds -> PosixPath.dirname d ∈ ds.

(** The working directory is absolute and exists, and every directory
    has its parent. *)
Definition cwd_exists (w : world) : bool :=
  PyStr.startswith (cwd w) "/" && dir_like (cwd w)
  && bool_decide (cwd w ∈ dirs w)
  && bool_decide (set_Forall (fun d => PosixPath.dirname d ∈ dirs w) (dirs w)).

(** The project directory is given, or it is searched from a
    well-formed place with well-formed schema names. *)
Definition located_safely (custom_project_path : option string) (schemas : list string)
    (w : world) : bool :=
  match custom_project_path with
  | Some p => negb (String.eqb p "")
  | None => false
  end
  || (cwd_exists w && forallb schema_ok schemas).

(** The path of the project descriptor. *)
Definition descriptor : string := "dbt_project.yml".

(** From [w] to [w'] the working directory stayed, nothing disappeared,
    and nothing called [dbt_project.yml] appeared. *)
Definition grows (w w' : world) : Prop :=
  cwd w' = cwd w
  /\ (forall k, k ∈ dirs w -> k ∈ dirs w')
  /\ (forall k, is_Some (files w !! k) -> is_Some (files w' !! k))
  /\ (forall k, PosixPath.basename k = descriptor ->
        (k ∈ dirs w' -> k ∈ dirs w) /\ (is_Some (files w' !! k) -> is_Some (files w !! k))).

(** [grows], for a start that has the directories [ds] and the working
    directory [c]. *)
Definition grows_from (ds : gset string) (c : string) (w w' : world) : Prop :=
  (forall k, k ∈ ds -> k ∈ dirs w) -> cwd w = c -> grows w w'.

(** From [w] to [w'] directories and working directory stayed, no file
    disappeared, and only files at the keys [K] changed; for a start with
    working directory [c]. *)
Definition touches (c : string) (K : string -> Prop) (w w' : world) : Prop :=
  cwd w = c ->
  cwd w' = c /\ dirs w' = dirs w
  /\ (forall k, is_Some (files w !! k) -> is_Some (files w' !! k))
  /\ (forall k, ~ K k -> files w' !! k = files w !! k).

(** Two worlds with the same working directory whose files agree at the
    keys [K]. *)
Definition agree (K : string -> Prop) (w v : world) : Prop :=
  cwd v = cwd w /\ forall k, K k -> files v !! k = files w !! k.

(** The keys of the destinations of a list of entries, seen from the
    working directory [c]. *)
Definition dest_keys (c : string) (entries : list plan_entry) (k : string) : Prop :=
  exists e, In e entries /\ k = PosixPath.join c (destination_of e).

(** No file changed, no directory disappeared, the working directory
    stayed and no generation command was run. *)
Definition calm (w w' : world) : Prop :=
  files w' = files w /\ (forall k, k ∈ dirs w -> k ∈ dirs w') /\ cwd w' = cwd w
  /\ generation_commands (trace w') = generation_commands (trace w).

(** [calm], and no directory was made either. *)
Definition still (w w' : world) : Prop :=
  files w' = files w /\ dirs w' = dirs w /\ cwd w' = cwd w
  /\ generation_commands (trace w') = generation_commands (trace w).

(** A Hoare triple for computations that may fail: from a world that is
    [P], the world [c] leaves is related to it by [R], and the value, when
    [c] returns one, is [Q]. *)
Definition triple {A} (P : world -> Prop) (c : M A) (Q : A -> Prop)
    (R : world -> world -> Prop) : Prop :=
  forall w, P w -> R w (snd (c w)) /\ forall a, fst (c w) = Ok a -> Q a.

(** A world with the files [fs] and the working directory [c]. *)
Definition on_disk (fs : gmap string string) (c : string) (w : world) : Prop :=
  files w = fs /\ cwd w = c.

(** What [main] does once the project directory is known. *)
Definition pipeline_from (subprocess : cmdline -> string -> world -> Z * string)
    (yaml_safe_load : string -> option yaml)
    (source_database_name : string) (source_schemas_list : list string)
    (if_exists_behavior dbt_project_directory : string) : M unit :=
  let models_directory := PosixPath.join dbt_project_directory "models" in
  run_dbt_deps subprocess yaml_safe_load dbt_project_directory ;;
  source_command_mappings <-
    source_cmd_generator source_database_name source_schemas_list true models_directory ;;
  bash_run_and_make_files subprocess "src" (SrcMappings source_command_mappings)
    if_exists_behavior dbt_project_directory ;;
  source_command_mappings <- src_yml_scan yaml_safe_load source_command_mappings ;;
  source_with_base_command_mappings <-
    all_base_commands_generator source_command_mappings ;;
  bash_run_and_make_files subprocess "base" (BaseMappings source_with_base_command_mappings)
    if_exists_behavior dbt_project_directory ;;
  logging_info "bulk-codegen processing completed.".

(** The log lines of a run that passes over every entry. *)
Definition skip_events (entries : list plan_entry) : list event :=
  List.map (fun e => ELog (skip_msg e)) entries.

(** What the scan returns: every source of the result is a source of the
    plan, with the manifest of some list of tables. *)
Definition scan_shape (plan m : list source_mapping) : Prop :=
  forall s d, In (s, d) (concat m) ->
    exists item names,
      In item (concat plan) /\ s = fst item
      /\ tables d = Some (manifest (destination_folder (snd item)) s names).

(** The source plan [main] builds for a project directory. *)
Definition main_plan (db : string) (schemas : list string) (pd : string)
  : list source_mapping :=
  List.map (source_entry db true (PosixPath.join pd "models")) schemas.

Module Demo5.

(** [dbt deps] succeeds, [generate_source] prints a banner and a
    declaration, [generate_base_model] prints a model. *)
Definition dbt (c : cmdline) (dir : string) (w : world) : Z * string :=
  match c with
  | Argv _ => (0, "")
  | Shell cmd =>
      if String.prefix "dbt run-operation generate_source" cmd
      then (0, "12:00:01 Running with dbt" +:+ PyStr.nl +:+ "version: 2" +:+ PyStr.nl
               +:+ "sources: ...")
      else (0, "12:00:02 Running with dbt" +:+ PyStr.nl
               +:+ "with source as (select * from t)")
  end.

(** A loader that knows a package manifest from a source declaration. *)
Definition loader (text : string) : option yaml :=
  if String.prefix "packages" text
  then Some (YMap [(YStr "packages",
                    YSeq [YMap [(YStr "package", YStr "fishtown-analytics/codegen")]])])
  else if String.prefix "version: 2" text
  then Some (YMap [(YStr "version", YInt 2);
                   (YStr "sources",
                    YSeq [YMap [(YStr "tables",
                                 YSeq [YMap [(YStr "name", YStr "orders")];
                                       YMap [(YStr "name", YStr "customers")]])]])])
  else None.

(** A project at [/p], entered at [/p/analysis]. *)
Definition project : world :=
  World {[ "/p/dbt_project.yml" := "name: p"; "/p/packages.yml" := "packages: ..." ]}
    {[ "/"; "/p"; "/p/analysis" ]} "/p/analysis" [].

(** The project after [main] ran once. *)
Definition after_first_run : world := snd (main dbt loader project).

End Demo5.

Module Demo6.

(** A project at [/p] whose [models] directory holds a package manifest of
    its own, entered at [/p/models]. *)
Definition nested : world :=
  World {[ "/p/dbt_project.yml" := "name: p"; "/p/packages.yml" := "packages: ...";
           "/p/models/packages.yml" := "packages: ..." ]}
    {[ "/"; "/p"; "/p/models" ]} "/p/models" [].

(** The pipeline for one schema that is named like the project descriptor. *)
Definition run : M unit :=
  main_with Demo5.dbt Demo5.loader "lake" ["dbt_project.yml"] None "skip".

Definition after_first_run : world := snd (run nested).

Definition after_second_run : world := snd (run after_first_run).

End Demo6.

(** ** The base-model plan of scanned sources, spelled out *)

(** The mapping [src_yml_scan] returns for the plan entry of schema [s]
    when its declaration lists the tables [names]. *)
Definition scanned_entry (db root s : string) (names : list string) : source_mapping :=
  flat_map (fun item => scanned item names) (source_entry db true root s).

(** The plan entry of table [t] of schema [s] for sources planned under
    [root]. *)
Definition base_entry (root s t : string) : plan_entry :=
  BaseModelEntry s t
    {| file_name := staging_path (PosixPath.join root s) s t;
       base_command := Some (base_cmd_of s t) |}.

(** No regular file is in the way of [models/<s>] for any schema. *)
Definition models_can_be_made (w : world) (schemas : list string) : bool :=
  forallb (fun s => makedirs_ok w ("models/" +:+ s)) schemas.

Module Demo11.

(** The source plan of schema [sales] for the project at [/p], and what
    the scan makes of it in [Demo4.project_from_subdirectory]. *)
Definition sales_plan : list source_mapping :=
  List.map (source_entry "lake" true (PosixPath.join "/p" "models")) ["sales"].

Definition scanned_sales : list source_mapping :=
  match fst (src_yml_scan Demo4.loads_two_tables sales_plan Demo4.project_from_subdirectory)
  with
  | Ok m => m
  | _ => []
  end.

Definition after_scan : world :=
  snd (src_yml_scan Demo4.loads_two_tables sales_plan Demo4.project_from_subdirectory).

End Demo11.

(** ** A second run with a tool that needs a project file *)

(** A name without a separator. *)
Definition no_sep (s : string) : bool := negb (PyStr.has_char s "/").

(** A tool that exits with status zero only in a directory whose
    [dbt_project.yml] is a regular file, as [dbt] does. *)
Definition needs_project_file (subprocess : cmdline -> string -> world -> Z * string)
  : Prop :=
  forall c dir w,
    fst (subprocess c dir w) = 0 -> OS.isfile w (PosixPath.join dir descriptor) = true.

(** From [w] to [w'] the working directory stayed, nothing disappeared
    and no regular file called [dbt_project.yml] appeared. *)
Definition no_new_descriptor (w w' : world) : Prop :=
  cwd w' = cwd w
  /\ (forall k, k ∈ dirs w -> k ∈ dirs w')
  /\ (forall k, is_Some (files w !! k) -> is_Some (files w' !! k))
  /\ (forall k, PosixPath.basename k = descriptor ->
        is_Some (files w' !! k) -> is_Some (files w !! k)).

(** [no_new_descriptor], for a start that has the working directory
    [c]. *)
Definition no_new_from (c : string) (w w' : world) : Prop :=
  cwd w = c -> no_new_descriptor w w'.

(** The settings in which a second run is looked at: the project
    directory is given; or it is searched from a working directory that
    exists, with schema names that are single path components other than
    [dbt_project.yml]; or the schema names are single path components and
    the tool needs a project file. *)
Definition rerun_setting (custom_project_path : option string) (schemas : list string)
    (subprocess : cmdline -> string -> world -> Z * string) (w : world) : Prop :=
  located_safely custom_project_path schemas w = true
  \/ (forallb no_sep schemas = true /\ needs_project_file subprocess).

Module Demo12.

(** [Demo5.dbt], but failing with status 1 where there is no regular
    project file. *)
Definition strict_dbt (c : cmdline) (dir : string) (w : world) : Z * string :=
  if OS.isfile w (PosixPath.join dir descriptor) then Demo5.dbt c dir w else (1, "").

(** The pipeline of [Demo6.run] with this tool. *)
Definition run : M unit :=
  main_with strict_dbt Demo5.loader "lake" ["dbt_project.yml"] None "skip".

Definition after_first_run : world := snd (run Demo6.nested).

End Demo12.

(** * Verified properties *)

(** ** Strings *)

Module StrFacts.

Lemma app_nil_l (s : string) : "" +:+ s = s.
Proof. reflexivity. Qed.

Lemma app_cons (c : ascii) (s t : string) : String c s +:+ t = String c (s +:+ t).
Proof. reflexivity. Qed.

Lemma app_nil_r (s : string) : s +:+ "" = s.
Proof. induction s as [|c s IH]; [reflexivity|]. rewrite app_cons, IH. reflexivity. Qed.

Lemma app_assoc (a b c : string) : (a +:+ b) +:+ c = a +:+ b +:+ c.
Proof.
  induction a as [|x a IH]; [reflexivity|].
  rewrite !app_cons, IH. reflexivity.
Qed.

Lemma length_app (a b : string) :
  String.length (a +:+ b) = (String.length a + String.length b)%nat.
Proof.
  induction a as [|x a IH]; [reflexivity|].
  rewrite app_cons. simpl. rewrite IH. reflexivity.
Qed.

Lemma app_inv_tail (a b c : string) : a +:+ c = b +:+ c -> a = b.
Proof.
  revert b. induction a as [|x a IH]; intros [|y b] H.
  - reflexivity.
  - apply (f_equal String.length) in H. rewrite !length_app in H. simpl in H. lia.
  - apply (f_equal String.length) in H. rewrite !length_app in H. simpl in H. lia.
  - rewrite !app_cons in H. injection H as -> H. f_equal. exact (IH _ H).
Qed.

Lemma app_inv_head (a b c : string) : a +:+ b = a +:+ c -> b = c.
Proof.
  induction a as [|x a IH]; [trivial|].
  rewrite !app_cons. intros H. injection H as H. exact (IH H).
Qed.


Lemma prefix_nil (s : string) : String.prefix "" s = true.
Proof. destruct s; reflexivity. Qed.

Lemma prefix_cons (a b : ascii) (s t : string) :
  String.prefix (String a s) (String b t)
  = if Ascii.eqb a b then String.prefix s t else false.
Proof.
  simpl. destruct (ascii_dec a b) as [->|Hne].
  - rewrite Ascii.eqb_refl. reflexivity.
  - apply Ascii.eqb_neq in Hne. rewrite Hne. reflexivity.
Qed.

Lemma prefix_app (m r : string) : String.prefix m (m +:+ r) = true.
Proof.
  induction m as [|c m IH]; [apply prefix_nil|].
  rewrite app_cons, prefix_cons, Ascii.eqb_refl. exact IH.
Qed.

Lemma prefix_true (m s : string) :
  String.prefix m s = true <-> exists r, s = m +:+ r.
Proof.
  split.
  - revert s. induction m as [|c m IH]; intros s H.
    + exists s. reflexivity.
    + destruct s as [|d s]; [discriminate|].
      rewrite prefix_cons in H. destruct (Ascii.eqb_spec c d) as [->|]; [|discriminate].
      destruct (IH _ H) as [r ->]. exists r. reflexivity.
  - intros [r ->]. apply prefix_app.
Qed.


Lemma has_char_app (a b : string) (c : ascii) :
  PyStr.has_char (a +:+ b) c = PyStr.has_char a c || PyStr.has_char b c.
Proof.
  induction a as [|x a IH]; [reflexivity|].
  rewrite app_cons. simpl. rewrite IH, orb_assoc. reflexivity.
Qed.



Lemma find_from_none (m s : string) (i : Z) :
  0 <= i -> PyStr.find_from m s i = -1 ->
  String.prefix m s = false
  /\ match s with
     | EmptyString => True
     | String _ s' => PyStr.find_from m s' (i + 1) = -1
     end.
Proof.
  intros Hi H. destruct s as [|c s]; simpl in H |- *.
  - destruct m; [lia|]. split; [reflexivity | exact I].
  - destruct m as [|a m]; [lia|].
    destruct (ascii_dec a c) as [->|].
    + destruct (String.prefix m s); [lia|]. split; [reflexivity | exact H].
    + split; [reflexivity | exact H].
Qed.



(** [s[-1:]] is the last character of [s], or nothing. *)
Lemma slice_from_last (s : string) :
  PyStr.slice_from s (-1) = PyStr.drop (String.length s - 1) s.
Proof.
  unfold PyStr.slice_from. change (-1 <? 0) with true. cbv iota.
  f_equal. lia.
Qed.

Lemma length_drop (n : nat) (s : string) :
  String.length (PyStr.drop n s) = (String.length s - n)%nat.
Proof.
  revert s. induction n as [|n IH]; intros [|c s]; simpl; try lia. apply IH.
Qed.

(** [find] answers [-1] exactly when the text does not contain the
    marker. *)
Lemma find_from_none_iff (m s : string) (i : Z) :
  0 <= i ->
  PyStr.find_from m s i = -1 <-> ~ PyStr.contains s m.
Proof.
  revert i. induction s as [|c s IH]; intros i Hi.
  - split.
    + intros H (pre & post & E). destruct (find_from_none _ _ _ Hi H) as [Hp _].
      destruct pre; [|discriminate]. rewrite app_nil_l in E.
      destruct m; [discriminate|]. discriminate.
    + intros H. simpl. destruct m as [|a m]; [|reflexivity].
      exfalso. apply H. exists "", "". reflexivity.
  - split.
    + intros H (pre & post & E). destruct (find_from_none _ _ _ Hi H) as [Hp Hrest].
      destruct pre as [|d pre].
      * rewrite app_nil_l in E. rewrite E, prefix_app in Hp. discriminate.
      * rewrite app_cons in E. injection E as <- E.
        apply (proj1 (IH (i + 1) ltac:(lia)) Hrest). exists pre, post. exact E.
    + intros H.
      change (PyStr.find_from m (String c s) i)
        with (if String.prefix m (String c s) then i else PyStr.find_from m s (i + 1)).
      destruct (String.prefix m (String c s)) eqn:E.
      * exfalso. apply H. apply prefix_true in E as [r E].
        exists "", r. rewrite app_nil_l. exact E.
      * apply IH; [lia|]. intros (pre & post & E'). apply H.
        exists (String c pre), post. rewrite app_cons, E'. reflexivity.
Qed.

Lemma find_none_iff (s m : string) : PyStr.find s m = -1 <-> ~ PyStr.contains s m.
Proof. apply find_from_none_iff. lia. Qed.

End StrFacts.

(** ** The pattern engine *)

Module ReFacts.

Lemma search_cons (r : Re.regex) (c : ascii) (s : string) :
  Re.search r (String c s) = false ->
  Re.match_at r (String c s) = None /\ Re.search r s = false.
Proof.
  simpl. destruct (Re.match_at r (String c s)); [discriminate|]. auto.
Qed.

Lemma search_false_iff (r : Re.regex) (s : string) :
  Re.search r s = false <-> ~ Re.occurs r s.
Proof.
  induction s as [|c s IH].
  - simpl. split.
    + intros H (pre & post & E & Hm). destruct pre; [|discriminate].
      rewrite StrFacts.app_nil_l in E. subst post.
      destruct (Re.match_at r ""); [discriminate | congruence].
    + intros H. destruct (Re.match_at r "") eqn:E; [|reflexivity].
      exfalso. apply H. exists "", "". split; [reflexivity | congruence].
  - split.
    + intros H (pre & post & E & Hm). apply search_cons in H as [H1 H2].
      destruct pre as [|d pre].
      * rewrite StrFacts.app_nil_l in E. subst post. congruence.
      * rewrite StrFacts.app_cons in E. injection E as <- E.
        apply (proj1 IH H2). exists pre, post. auto.
    + intros H. simpl. destruct (Re.match_at r (String c s)) eqn:E.
      * exfalso. apply H. exists "", (String c s). split; [reflexivity | congruence].
      * apply IH. intros (pre & post & E' & Hm). apply H.
        exists (String c pre), post. rewrite StrFacts.app_cons, E'. auto.
Qed.

(** Where the pattern is found nowhere, every round of the scan keeps
    its character. *)
Lemma sub_loop_clean (r : Re.regex) (fuel : nat) (s : string) :
  Re.search r s = false -> Re.sub_loop fuel r s = s.
Proof.
  revert s. induction fuel as [|fuel IH]; intros s H; [reflexivity|].
  destruct s as [|c s]; [reflexivity|].
  apply search_cons in H as [H1 H2].
  simpl. rewrite H1, (IH _ H2). reflexivity.
Qed.

Lemma ansi_needs_two (c : ascii) :
  Re.match_at regex_ansi_escape_sequences (String c "") = None.
Proof.
  destruct c as [[] [] [] [] [] [] [] []]; reflexivity.
Qed.

Lemma ansi_not_empty : Re.match_at regex_ansi_escape_sequences "" = None.
Proof. reflexivity. Qed.

(** A text of at most one character holds no escape sequence. *)
Lemma ansi_short (s : string) :
  (String.length s <= 1)%nat -> Re.sub_empty regex_ansi_escape_sequences s = s.
Proof.
  intros H. apply sub_loop_clean.
  destruct s as [|c [|d s]]; simpl in H; try lia.
  - reflexivity.
  - simpl. rewrite ansi_needs_two. reflexivity.
Qed.

End ReFacts.

(** C6 (as amended).  Escape stripping leaves clean text alone: a string in
    which the module's pattern - ESC followed by one byte in [@]..[Z] or in
    the range from backslash to underscore (backslash, closing bracket,
    caret, underscore), or by an opening bracket, parameter bytes,
    intermediate bytes and a final byte in [@]..[~] - is found nowhere is
    returned unchanged by the substitution. *)
Theorem ansi_strip_clean_is_noop (s : string) :
  Re.search regex_ansi_escape_sequences s = false ->
  Re.sub_empty regex_ansi_escape_sequences s = s.
Proof. intros H. apply ReFacts.sub_loop_clean. exact H. Qed.

Lemma ansi_strip_clean_is_noop_witness :
  Re.search regex_ansi_escape_sequences "version: 2 [ok]" = false
  /\ Re.sub_empty regex_ansi_escape_sequences "version: 2 [ok]" = "version: 2 [ok]".
Proof.
  split; [reflexivity|].
  apply (ansi_strip_clean_is_noop "version: 2 [ok]"). reflexivity.
Defined.

(** C6 as the specification words the pattern (single bytes [@]..[Z],
    backslash, caret and underscore only) fails: ESC followed by a closing
    bracket holds no occurrence of that pattern, yet the substitution
    removes both characters. *)
Lemma ansi_strip_spec_pattern_counterexample :
  Re.search spec_ansi_pattern (String ESC "]") = false
  /\ Re.sub_empty regex_ansi_escape_sequences (String ESC "]") <> String ESC "]".
Proof. split; [reflexivity | discriminate]. Qed.

(** ** The monad and the Executor *)

Module ExecFacts.
Section WithProcess.

Variable subprocess : cmdline -> string -> world -> Z * string.

Lemma add_events_app (w : world) (a b : list event) :
  add_events (add_events w a) b = add_events w (a ++ b).
Proof. unfold add_events. simpl. rewrite <- app_assoc. reflexivity. Qed.

Lemma bind_ok {A B} (c : M A) (k : A -> M B) (w w' : world) (a : A) :
  c w = (Ok a, w') -> bind c k w = k a w'.
Proof. unfold bind. intros ->. reflexivity. Qed.

Lemma bind_raise {A B} (c : M A) (k : A -> M B) (w w' : world) (e : exn) :
  c w = (Raise e, w') -> bind c k w = (Raise e, w').
Proof. unfold bind. intros ->. reflexivity. Qed.

Lemma for_each_ext {A} (l : list A) (f g : A -> M unit) (w : world) :
  (forall x w', f x w' = g x w') -> for_each l f w = for_each l g w.
Proof.
  intros H. revert w. induction l as [|x l IH]; intros w; [reflexivity|].
  simpl. unfold bind. rewrite H. destruct (g x w) as [[[]| |] w']; auto.
Qed.

Lemma for_each_app {A} (a b : list A) (f : A -> M unit) (w : world) :
  for_each (a ++ b) f w = bind (for_each a f) (fun _ => for_each b f) w.
Proof.
  revert w. induction a as [|x a IH]; intros w; [reflexivity|].
  simpl. unfold bind. destruct (f x w) as [[[]| |] w']; auto.
Qed.

Lemma for_each_concat {A} (l : list (list A)) (f : A -> M unit) (w : world) :
  for_each l (fun m => for_each m f) w = for_each (concat l) f w.
Proof.
  revert w. induction l as [|m l IH]; intros w; [reflexivity|].
  simpl. rewrite for_each_app. unfold bind.
  destruct (for_each m f w) as [[[]| |] w']; auto.
Qed.

Lemma for_each_map {A B} (g : A -> B) (l : list A) (f : B -> M unit) (w : world) :
  for_each (List.map g l) f w = for_each l (fun x => f (g x)) w.
Proof.
  revert w. induction l as [|x l IH]; intros w; [reflexivity|].
  simpl. unfold bind. destruct (f (g x) w) as [[[]| |] w']; auto.
Qed.

Lemma skip_existing_eq (if_exists p : string) (w : world) :
  skip_existing if_exists p w
  = (Ok (String.eqb (PyStr.lower if_exists) "skip" && OS.isfile w p), w).
Proof.
  unfold skip_existing. destruct (String.eqb (PyStr.lower if_exists) "skip"); reflexivity.
Qed.

Lemma subprocess_run_eq (c : cmdline) (dir : string) (w : world) :
  subprocess_run subprocess c dir w
  = let w1 := add_events w [ERun c dir] in
    if fst (subprocess c dir w1) =? 0 then (Ok (snd (subprocess c dir w1)), w1)
    else (Raise (CalledProcessError (fst (subprocess c dir w1)) c), w1).
Proof.
  unfold subprocess_run, bind, emit. fold (add_events w [ERun c dir]). cbv zeta.
  destruct (subprocess c dir (add_events w [ERun c dir])) as [code out]. reflexivity.
Qed.

Lemma execute_entry_skipped (marker path : string) (cmd : option string)
    (m1 m2 m3 if_exists pd : string) (w : world) :
  String.eqb (PyStr.lower if_exists) "skip" && OS.isfile w path = true ->
  execute_entry subprocess marker path cmd m1 m2 m3 if_exists pd w
  = (Ok tt, add_events w [ELog m1]).
Proof.
  intros H. unfold execute_entry.
  rewrite (bind_ok _ _ _ _ _ (skip_existing_eq _ _ _)), H. reflexivity.
Qed.

Lemma execute_entry_run (marker path c m1 m2 m3 if_exists pd : string) (w : world) :
  String.eqb (PyStr.lower if_exists) "skip" && OS.isfile w path = false ->
  let w1 := add_events w [ELog m2; ERun (Shell c) pd] in
  execute_entry subprocess marker path (Some c) m1 m2 m3 if_exists pd w
  = if fst (subprocess (Shell c) pd w1) =? 0
    then OS.write_file path (open_mode_of if_exists)
           (clean_output marker (snd (subprocess (Shell c) pd w1)))
           (add_events w1 [ELog m3])
    else (Raise (CalledProcessError (fst (subprocess (Shell c) pd w1)) (Shell c)), w1).
Proof.
  intros H w1. unfold execute_entry.
  rewrite (bind_ok _ _ _ _ _ (skip_existing_eq _ _ _)), H.
  unfold logging_info.
  rewrite (bind_ok _ _ _ _ _ (eq_refl : emit (ELog m2) w = (Ok tt, add_events w [ELog m2]))).
  unfold bind at 1. rewrite subprocess_run_eq. cbv zeta.
  rewrite add_events_app. simpl app. fold w1.
  destruct (fst (subprocess (Shell c) pd w1) =? 0); [|reflexivity].
  rewrite (bind_ok _ _ _ _ _ (eq_refl : emit (ELog m3) w1 = (Ok tt, add_events w1 [ELog m3]))).
  reflexivity.
Qed.

(** Both loop bodies are instances of the common shape. *)
Lemma execute_shape (if_exists pd : string) (e : plan_entry) (w : world) :
  execute subprocess if_exists pd e w
  = execute_entry subprocess (marker_of e) (destination_of e) (command_of e)
      (skip_msg e) (run_msg e) (write_msg e) if_exists pd w.
Proof. destruct e; reflexivity. Qed.

Lemma execute_skipped (if_exists pd : string) (e : plan_entry) (w : world) :
  skipped if_exists w e = true ->
  execute subprocess if_exists pd e w = (Ok tt, add_events w [ELog (skip_msg e)]).
Proof. intros H. rewrite execute_shape. apply execute_entry_skipped. exact H. Qed.

Lemma execute_succeeds (if_exists pd c out : string) (e : plan_entry) (w : world) :
  skipped if_exists w e = false ->
  command_of e = Some c ->
  subprocess (Shell c) pd (at_run pd c e w) = (0, out) ->
  execute subprocess if_exists pd e w
  = OS.write_file (destination_of e) (open_mode_of if_exists)
      (clean_output (marker_of e) out) (at_write pd c e w).
Proof.
  intros Hs Hc Hp. rewrite execute_shape, Hc.
  rewrite execute_entry_run by exact Hs. cbv zeta.
  fold (at_run pd c e w). rewrite Hp. simpl fst. simpl snd.
  unfold at_run. rewrite add_events_app. reflexivity.
Qed.

Lemma execute_fails (if_exists pd c out : string) (code : Z) (e : plan_entry) (w : world) :
  skipped if_exists w e = false ->
  command_of e = Some c ->
  subprocess (Shell c) pd (at_run pd c e w) = (code, out) ->
  code <> 0 ->
  execute subprocess if_exists pd e w
  = (Raise (CalledProcessError code (Shell c)), at_run pd c e w).
Proof.
  intros Hs Hc Hp Hne. rewrite execute_shape, Hc.
  rewrite execute_entry_run by exact Hs. cbv zeta.
  fold (at_run pd c e w). rewrite Hp. simpl fst.
  destruct (Z.eqb_spec code 0); [contradiction | reflexivity].
Qed.

(** The nested loops visit the entries of the plan in order. *)
Lemma bash_run_entries (m : command_mappings) (if_exists pd : string) (w : world) :
  bash_run_and_make_files subprocess (cmd_type_of m) m if_exists pd w
  = for_each (plan_entries m) (execute subprocess if_exists pd) w.
Proof.
  destruct m as [l | l]; unfold bash_run_and_make_files, cmd_type_of, plan_entries.
  - change (String.eqb "src" "src") with true. cbv iota.
    rewrite (for_each_concat (A := string * source_data) l).
    unfold source_items. rewrite for_each_map.
    apply for_each_ext. intros [n d] w'. reflexivity.
  - change (String.eqb "base" "src") with false. cbv iota.
    unfold base_items. rewrite for_each_map.
    rewrite <- for_each_concat. rewrite for_each_map.
    apply for_each_ext. intros mapping w'.
    rewrite <- for_each_concat. rewrite for_each_map.
    apply for_each_ext. intros [source_name source_data] w''.
    rewrite for_each_map. simpl fst. simpl snd.
    rewrite (for_each_concat (A := string * table_data) source_data).
    apply for_each_ext. intros [t d] w3. reflexivity.
Qed.

Lemma write_file_ok (p : string) (mode : open_mode) (content : string) (w : world) :
  writable w p = true ->
  OS.write_file p mode content w
  = (Ok tt,
     World (<[OS.abspath w p :=
                (match mode with ModeA => contents w p | _ => "" end) +:+ content]>
              (files w))
       (dirs w) (cwd w) (trace w ++ [EOpen p mode])).
Proof.
  unfold writable, OS.isdir. intros H. apply andb_true_iff in H as [H1 H2].
  unfold OS.write_file, bind, emit. cbv beta iota.
  unfold OS.abspath in *. simpl cwd. simpl dirs. simpl files.
  destruct (bool_decide (PosixPath.join (cwd w) p ∈ dirs w)); [discriminate|].
  rewrite H2. reflexivity.
Qed.

End WithProcess.
End ExecFacts.

(** ** Slicing at the marker *)

Module CleanFacts.


Lemma clean_output_no_marker (marker out : string) :
  PyStr.find out marker = -1 ->
  clean_output marker out = PyStr.slice_from out (-1).
Proof.
  intros H. unfold clean_output. rewrite H.
  apply ReFacts.ansi_short.
  rewrite StrFacts.slice_from_last, StrFacts.length_drop. lia.
Qed.

Lemma writable_add_events (w : world) (es : list event) (p : string) :
  writable (add_events w es) p = writable w p.
Proof. reflexivity. Qed.

End CleanFacts.



(** C2.  When a generation command succeeds and its output does not
    contain the marker of its kind, the Executor raises nothing on that
    account: [find] answers [-1], the slice starts at the last character,
    no escape sequence fits in it, and that one character (nothing, for an
    empty output) is what is written to the destination. *)
Theorem missing_marker_is_silent (subprocess : cmdline -> string -> world -> Z * string)
    (if_exists pd c out : string) (e : plan_entry) (w : world) :
  skipped if_exists w e = false ->
  command_of e = Some c ->
  subprocess (Shell c) pd (at_run pd c e w) = (0, out) ->
  PyStr.find out (marker_of e) = -1 ->
  execute subprocess if_exists pd e w
  = OS.write_file (destination_of e) (open_mode_of if_exists)
      (PyStr.drop (String.length out - 1) out) (at_write pd c e w)
  /\ (out = "" -> PyStr.drop (String.length out - 1) out = "")
  /\ (writable w (destination_of e) = true ->
      fst (execute subprocess if_exists pd e w) = Ok tt).
Proof.
  intros Hs Hc Hp Hm.
  assert (E : execute subprocess if_exists pd e w
              = OS.write_file (destination_of e) (open_mode_of if_exists)
                  (PyStr.drop (String.length out - 1) out) (at_write pd c e w)).
  { rewrite (ExecFacts.execute_succeeds subprocess if_exists pd c out e w Hs Hc Hp).
    rewrite (CleanFacts.clean_output_no_marker _ _ Hm), StrFacts.slice_from_last.
    reflexivity. }
  split; [exact E|]. split.
  - intros ->. reflexivity.
  - intros Hw. rewrite E, ExecFacts.write_file_ok by exact Hw. reflexivity.
Qed.

Lemma missing_marker_is_silent_witness :
  snd (execute (Demo.answers "no yaml here") "append" "/p" Demo.sales Demo.empty_project)
  = snd (OS.write_file "/p/models/sales/_src_sales.yml" ModeA "e"
           (at_write "/p" "generate sales" Demo.sales Demo.empty_project)).
Proof.
  rewrite (proj1 (missing_marker_is_silent (Demo.answers "no yaml here") "append" "/p"
                    "generate sales" "no yaml here" Demo.sales Demo.empty_project
                    eq_refl eq_refl eq_refl eq_refl)).
  reflexivity.
Defined.

(** ** The existence policy *)

Module PolicyFacts.
Section WithProcess.

Variable subprocess : cmdline -> string -> world -> Z * string.

(** The Executor looks at the policy only through the two comparisons
    of its lower-cased form. *)
Lemma bash_run_policy_ext (cmd_type : string) (m : command_mappings)
    (p1 p2 pd : string) (w : world) :
  String.eqb (PyStr.lower p1) "skip" = String.eqb (PyStr.lower p2) "skip" ->
  String.eqb (PyStr.lower p1) "replace" = String.eqb (PyStr.lower p2) "replace" ->
  bash_run_and_make_files subprocess cmd_type m p1 pd w
  = bash_run_and_make_files subprocess cmd_type m p2 pd w.
Proof.
  intros Hs Hr. unfold bash_run_and_make_files.
  destruct (String.eqb cmd_type "src"); destruct m as [l | l];
    apply ExecFacts.for_each_ext; intros mapping w1;
    apply ExecFacts.for_each_ext.
  - intros [n d] w2. unfold source_step, skip_existing, open_mode_of.
    rewrite Hs, Hr. reflexivity.
  - intros [n d] w2. rewrite Hs. reflexivity.
  - intros [n d] w2. reflexivity.
  - intros [n d] w2. apply ExecFacts.for_each_ext. intros tm w3.
    apply ExecFacts.for_each_ext. intros [t td] w4.
    unfold base_step, skip_existing, open_mode_of. rewrite Hs, Hr. reflexivity.
Qed.

End WithProcess.
End PolicyFacts.

(** Policy comparison ignores case whatever the policy is. *)
Lemma policy_case_insensitive (subprocess : cmdline -> string -> world -> Z * string)
    (cmd_type : string) (m : command_mappings) (p1 p2 pd : string) (w : world) :
  PyStr.lower p1 = PyStr.lower p2 ->
  bash_run_and_make_files subprocess cmd_type m p1 pd w
  = bash_run_and_make_files subprocess cmd_type m p2 pd w.
Proof. intros H. apply PolicyFacts.bash_run_policy_ext; rewrite H; reflexivity. Qed.

(** ** What one executed entry does to the files *)

Module WriteFacts.
Section WithProcess.

Variable subprocess : cmdline -> string -> world -> Z * string.

(** The world after [e] was generated and written. *)
Lemma execute_writes (if_exists pd c out : string) (e : plan_entry) (w : world) :
  skipped if_exists w e = false ->
  command_of e = Some c ->
  subprocess (Shell c) pd (at_run pd c e w) = (0, out) ->
  writable w (destination_of e) = true ->
  execute subprocess if_exists pd e w
  = (Ok tt,
     World (<[OS.abspath w (destination_of e) :=
                (match open_mode_of if_exists with
                 | ModeA => contents w (destination_of e)
                 | _ => ""
                 end) +:+ clean_output (marker_of e) out]> (files w))
       (dirs w) (cwd w)
       (trace (at_write pd c e w) ++ [EOpen (destination_of e) (open_mode_of if_exists)])).
Proof.
  intros Hs Hc Hp Hw.
  rewrite (ExecFacts.execute_succeeds subprocess if_exists pd c out e w Hs Hc Hp).
  rewrite ExecFacts.write_file_ok by exact Hw. reflexivity.
Qed.

Lemma contents_insert (w : world) (p v : string) (ds : gset string) (t : list event) :
  contents (World (<[OS.abspath w p := v]> (files w)) ds (cwd w) t) p = v.
Proof. unfold contents, OS.abspath. simpl. rewrite lookup_insert_eq. reflexivity. Qed.

Lemma isfile_insert (w : world) (p v : string) (ds : gset string) (t : list event) :
  OS.isfile (World (<[OS.abspath w p := v]> (files w)) ds (cwd w) t) p = true.
Proof.
  unfold OS.isfile, OS.abspath. simpl. rewrite lookup_insert_eq.
  apply bool_decide_eq_true. eauto.
Qed.

Lemma generation_commands_app (a b : list event) :
  generation_commands (a ++ b) = generation_commands a ++ generation_commands b.
Proof.
  induction a as [|[m | [cmd | args] d | p | p mode] a IH]; simpl; congruence.
Qed.

Lemma generation_commands_logs (n : nat) (msg : string) :
  generation_commands (replicate n (ELog msg)) = [].
Proof. induction n; simpl; auto. Qed.

Lemma for_each_cons (e : plan_entry) (l : list plan_entry) (f : plan_entry -> M unit)
    (w w1 : world) :
  f e w = (Ok tt, w1) -> for_each (e :: l) f w = for_each l f w1.
Proof. intros H. simpl. unfold bind. rewrite H. reflexivity. Qed.

(** Under a policy that is neither skip nor replace every execution adds
    one more copy of the cleaned output. *)
Lemma repeat_append (if_exists pd c out : string) (e : plan_entry) (n : nat) (w : world) :
  PyStr.lower if_exists <> "skip" ->
  PyStr.lower if_exists <> "replace" ->
  command_of e = Some c ->
  (forall w', subprocess (Shell c) pd w' = (0, out)) ->
  writable w (destination_of e) = true ->
  exists w',
    for_each (replicate n e) (execute subprocess if_exists pd) w = (Ok tt, w')
    /\ contents w' (destination_of e)
       = contents w (destination_of e) +:+ PyStr.repeat (clean_output (marker_of e) out) n.
Proof.
  intros Hs Hr Hc Hp. apply String.eqb_neq in Hs. apply String.eqb_neq in Hr.
  revert w. induction n as [|n IH]; intros w Hw.
  - exists w. split; [reflexivity|]. simpl. rewrite StrFacts.app_nil_r. reflexivity.
  - assert (Hk : skipped if_exists w e = false) by (unfold skipped; rewrite Hs; reflexivity).
    pose proof (execute_writes if_exists pd c out e w Hk Hc (Hp _) Hw) as E.
    unfold open_mode_of in E. rewrite Hr in E.
    set (w1 := World _ _ _ _) in E.
    destruct (IH w1 Hw) as (w' & Hrun & Hcont).
    exists w'. split.
    + simpl replicate. rewrite (for_each_cons _ _ _ _ _ E). exact Hrun.
    + rewrite Hcont. unfold w1. rewrite contents_insert.
      simpl PyStr.repeat. rewrite StrFacts.app_assoc. reflexivity.
Qed.

(** Under skip every execution at an existing destination is passed over. *)
Lemma add_events_nil (w : world) : add_events w [] = w.
Proof. destruct w. unfold add_events. simpl. rewrite app_nil_r. reflexivity. Qed.

Lemma repeat_skipped (if_exists pd : string) (e : plan_entry) (n : nat) (w : world) :
  skipped if_exists w e = true ->
  for_each (replicate n e) (execute subprocess if_exists pd) w
  = (Ok tt, add_events w (replicate n (ELog (skip_msg e)))).
Proof.
  revert w. induction n as [|n IH]; intros w Hk.
  - simpl. rewrite add_events_nil. reflexivity.
  - pose proof (ExecFacts.execute_skipped subprocess if_exists pd e w Hk) as E.
    simpl replicate. rewrite (for_each_cons _ _ _ _ _ E).
    rewrite IH by exact Hk. rewrite ExecFacts.add_events_app. reflexivity.
Qed.

(** Under skip only the first of several executions at a fresh
    destination writes. *)
Lemma repeat_skip_fresh (if_exists pd c out : string) (e : plan_entry) (n : nat) (w : world) :
  PyStr.lower if_exists = "skip" ->
  OS.isfile w (destination_of e) = false ->
  command_of e = Some c ->
  (forall w', subprocess (Shell c) pd w' = (0, out)) ->
  writable w (destination_of e) = true ->
  exists w',
    for_each (replicate (S n) e) (execute subprocess if_exists pd) w = (Ok tt, w')
    /\ contents w' (destination_of e) = clean_output (marker_of e) out
    /\ generation_commands (trace w') = generation_commands (trace w) ++ [c].
Proof.
  intros Hs Hf Hc Hp Hw.
  assert (Hk : skipped if_exists w e = false).
  { unfold skipped. rewrite Hf. apply andb_false_r. }
  pose proof (execute_writes if_exists pd c out e w Hk Hc (Hp _) Hw) as E.
  assert (Hm : open_mode_of if_exists = ModeA)
    by (unfold open_mode_of; rewrite Hs; reflexivity).
  rewrite Hm in E.
  assert (Hold : contents w (destination_of e) = "").
  { unfold contents. unfold OS.isfile in Hf. apply bool_decide_eq_false in Hf.
    destruct (files w !! OS.abspath w (destination_of e)); [|reflexivity].
    exfalso. apply Hf. eauto. }
  rewrite Hold, StrFacts.app_nil_l in E.
  set (w1 := World _ _ _ _) in E.
  assert (Hk1 : skipped if_exists w1 e = true).
  { unfold skipped, w1. rewrite Hs, isfile_insert. reflexivity. }
  exists (add_events w1 (replicate n (ELog (skip_msg e)))). split; [|split].
  - simpl replicate. rewrite (for_each_cons _ _ _ _ _ E).
    apply repeat_skipped. exact Hk1.
  - change (contents w1 (destination_of e) = clean_output (marker_of e) out).
    unfold w1. apply contents_insert.
  - unfold w1, add_events, at_write. simpl trace.
    rewrite !generation_commands_app. simpl.
    rewrite generation_commands_logs, !app_nil_r. reflexivity.
Qed.

End WithProcess.
End WriteFacts.

(** C4 (as amended).  With a command that answers the same output at
    every invocation and a destination that can be written: under Append,
    and under any policy that is neither skip nor replace, executing the
    same entry [n] times appends [n] copies of one generation's cleaned
    output to what the file held before, so the file holds exactly [n]
    concatenations when it was absent or empty; under Skip on a destination
    that does not exist yet, the first execution writes one copy and every
    later one is passed over, so for every [n >= 1] the file holds one copy
    and one command was run. *)
Theorem repeated_generation (subprocess : cmdline -> string -> world -> Z * string)
    (if_exists pd c out : string) (e : plan_entry) (n : nat) (w : world) :
  command_of e = Some c ->
  (forall w', subprocess (Shell c) pd w' = (0, out)) ->
  writable w (destination_of e) = true ->
  (PyStr.lower if_exists <> "skip" -> PyStr.lower if_exists <> "replace" ->
   exists w',
     for_each (replicate n e) (execute subprocess if_exists pd) w = (Ok tt, w')
     /\ contents w' (destination_of e)
        = contents w (destination_of e) +:+ PyStr.repeat (clean_output (marker_of e) out) n
     /\ (contents w (destination_of e) = "" ->
         contents w' (destination_of e) = PyStr.repeat (clean_output (marker_of e) out) n))
  /\ (PyStr.lower if_exists = "skip" -> OS.isfile w (destination_of e) = false ->
      (1 <= n)%nat ->
      exists w',
        for_each (replicate n e) (execute subprocess if_exists pd) w = (Ok tt, w')
        /\ contents w' (destination_of e) = clean_output (marker_of e) out
        /\ generation_commands (trace w') = generation_commands (trace w) ++ [c]).
Proof.
  intros Hc Hp Hw. split.
  - intros Hs Hr.
    destruct (WriteFacts.repeat_append subprocess if_exists pd c out e n w Hs Hr Hc Hp Hw)
      as (w' & Hrun & Hcont).
    exists w'. split; [exact Hrun|]. split; [exact Hcont|].
    intros He. rewrite Hcont, He. reflexivity.
  - intros Hs Hf Hn. destruct n as [|n]; [lia|].
    exact (WriteFacts.repeat_skip_fresh subprocess if_exists pd c out e n w Hs Hf Hc Hp Hw).
Qed.

Lemma repeated_generation_witness :
  exists w',
    for_each (replicate 2 Demo.sales) (execute (Demo.answers "version: 2") "append" "/p")
      Demo.project_with_source = (Ok tt, w')
    /\ contents w' "/p/models/sales/_src_sales.yml" = "oldversion: 2version: 2".
Proof.
  destruct (proj1 (repeated_generation (Demo.answers "version: 2") "append" "/p"
                     "generate sales" "version: 2" Demo.sales 2 Demo.project_with_source
                     eq_refl (fun _ => eq_refl) eq_refl))
    as (w' & Hrun & Hcont & _); [vm_compute; discriminate ..|].
  exists w'. split; [exact Hrun | exact Hcont].
Defined.

(** C4 as stated fails on both counts.  Under skip on a fresh destination
    two executions leave one copy, not two; under append on a file that
    already holds text one execution leaves that text followed by one
    copy, not one copy. *)
Lemma repeated_generation_counterexample :
  (OS.isfile Demo.empty_project (destination_of Demo.sales) = false
   /\ contents
        (snd (for_each (replicate 2 Demo.sales)
                (execute (Demo.answers "version: 2") "skip" "/p") Demo.empty_project))
        (destination_of Demo.sales)
      <> PyStr.repeat (clean_output (marker_of Demo.sales) "version: 2") 2)
  /\ contents
       (snd (for_each (replicate 1 Demo.sales)
               (execute (Demo.answers "version: 2") "append" "/p")
               Demo.project_with_source))
       (destination_of Demo.sales)
     <> PyStr.repeat (clean_output (marker_of Demo.sales) "version: 2") 1.
Proof. split; [split; [reflexivity|] |]; vm_compute; discriminate. Qed.

(** C8.  When the command of a plan entry exits with a status other than
    zero, the run stops there with [CalledProcessError]: the world is the
    one the earlier entries left with only the log line and the command of
    the failing entry added to the trace, so nothing is written for that
    entry, no later entry is reached, and the files written for the earlier
    entries stay as they were. *)
Theorem generation_failure_aborts (subprocess : cmdline -> string -> world -> Z * string)
    (m : command_mappings) (if_exists pd c out : string) (code : Z)
    (pre post : list plan_entry) (e : plan_entry) (w w1 : world) :
  plan_entries m = pre ++ e :: post ->
  for_each pre (execute subprocess if_exists pd) w = (Ok tt, w1) ->
  skipped if_exists w1 e = false ->
  command_of e = Some c ->
  subprocess (Shell c) pd (at_run pd c e w1) = (code, out) ->
  code <> 0 ->
  bash_run_and_make_files subprocess (cmd_type_of m) m if_exists pd w
  = (Raise (CalledProcessError code (Shell c)), at_run pd c e w1)
  /\ files (at_run pd c e w1) = files w1
  /\ trace (at_run pd c e w1) = trace w1 ++ [ELog (run_msg e); ERun (Shell c) pd].
Proof.
  intros Hplan Hpre Hk Hc Hp Hne. split; [|split; reflexivity].
  rewrite ExecFacts.bash_run_entries, Hplan, ExecFacts.for_each_app.
  rewrite (ExecFacts.bind_ok _ _ _ _ _ Hpre).
  simpl for_each.
  apply ExecFacts.bind_raise.
  exact (ExecFacts.execute_fails subprocess if_exists pd c out code e w1 Hk Hc Hp Hne).
Qed.

Lemma generation_failure_aborts_witness :
  bash_run_and_make_files (Demo2.fails_on "generate customers") "base" Demo2.sales_models
    "replace" "/p" Demo.empty_project
  = (Raise (CalledProcessError 2 (Shell "generate customers")),
     at_run "/p" "generate customers" Demo2.customers Demo2.after_orders)
  /\ contents Demo2.after_orders "/p/models/sales/stg_sales__orders.sql"
     = "with source as (select 1)".
Proof.
  split; [|reflexivity].
  refine (proj1 (generation_failure_aborts (Demo2.fails_on "generate customers")
    Demo2.sales_models "replace" "/p" "generate customers" "" 2 [Demo.orders] []
    Demo2.customers Demo.empty_project Demo2.after_orders
    eq_refl eq_refl eq_refl eq_refl eq_refl _)).
  discriminate.
Defined.

(** ** The dependency check *)

(** C7.  When [packages.yml] exists and loads as a mapping whose
    [packages] entry is missing or is an empty collection ([packages: []]
    included), [run_dbt_deps] gets through the extraction of the entries
    and then raises the [ValueError] for the missing
    [fishtown-analytics/codegen] package; the file was opened and nothing
    else happened, so [dbt deps] was not run. *)
Theorem empty_packages_is_rejected (subprocess : cmdline -> string -> world -> Z * string)
    (yaml_safe_load : string -> option yaml) (project_directory text : string)
    (kv : list (yaml * yaml)) (w : world) :
  files w !! OS.abspath w (PosixPath.join project_directory "packages.yml") = Some text ->
  yaml_safe_load text = Some (YMap kv) ->
  Py.lookup_key (Py.is_str "packages") kv = None
  \/ Py.lookup_key (Py.is_str "packages") kv = Some (YSeq [])
  \/ Py.lookup_key (Py.is_str "packages") kv = Some (YMap []) ->
  exists msg,
    run_dbt_deps subprocess yaml_safe_load project_directory w
    = (Raise (ValueError msg),
       add_events w [EOpen (PosixPath.join project_directory "packages.yml") ModeR])
    /\ PyStr.contains msg "'fishtown-analytics/codegen'".
Proof.
  intros Hfile Hload Hpk. eexists. split.
  - unfold run_dbt_deps.
    assert (Hisfile : OS.path_isfile (PosixPath.join project_directory "packages.yml") w
                      = (Ok true, w)).
    { unfold OS.path_isfile, OS.isfile. rewrite Hfile.
      rewrite bool_decide_eq_true_2 by eauto. reflexivity. }
    rewrite (ExecFacts.bind_ok _ _ _ _ _ Hisfile). change (negb true) with false. cbv iota.
    assert (Hread : OS.read_file (PosixPath.join project_directory "packages.yml") w
                    = (Ok text,
                       add_events w [EOpen (PosixPath.join project_directory "packages.yml")
                                       ModeR])).
    { unfold OS.read_file, bind, emit. cbv beta iota.
      change (files (World (files w) (dirs w) (cwd w) (trace w ++ [EOpen _ ModeR])))
        with (files w).
      unfold OS.abspath in *. simpl cwd. rewrite Hfile. reflexivity. }
    rewrite (ExecFacts.bind_ok _ _ _ _ _ Hread).
    unfold safe_load. rewrite Hload.
    unfold bind, ret, lift, raise.
    destruct kv as [|item kv].
    + reflexivity.
    + simpl Py.truthy. cbv iota. unfold Py.get.
      destruct Hpk as [-> | [-> | ->]]; reflexivity.
  - exists "You have not brought the codegen dbt package into your project! You must include the package ",
      " in your `packages.yml` file to use bulk-codegen.".
    reflexivity.
Qed.

Lemma empty_packages_is_rejected_witness :
  exists msg,
    run_dbt_deps (Demo.answers "") Demo3.loads_empty_packages "/p"
      Demo3.project_without_packages
    = (Raise (ValueError msg),
       add_events Demo3.project_without_packages [EOpen "/p/packages.yml" ModeR])
    /\ PyStr.contains msg "'fishtown-analytics/codegen'".
Proof.
  apply (empty_packages_is_rejected (Demo.answers "") Demo3.loads_empty_packages "/p"
           "packages: []" [(YStr "packages", YSeq [])] Demo3.project_without_packages
           eq_refl eq_refl).
  right. left. reflexivity.
Defined.

(** ** Paths *)

Module PathFacts.

Lemma rev_app_eq (s acc : string) : String.rev_app s acc = String.rev_app s "" +:+ acc.
Proof.
  revert acc. induction s as [|a s IH]; intros acc; [reflexivity|].
  simpl. rewrite (IH (String a acc)), (IH (String a "")), StrFacts.app_assoc.
  reflexivity.
Qed.

Lemma rev_cons (a : ascii) (s : string) :
  String.rev (String a s) = String.rev s +:+ String a "".
Proof. unfold String.rev. simpl. apply rev_app_eq. Qed.

Lemma prefix_char_app (c : ascii) (x y : string) :
  x <> "" -> String.prefix (String c "") (x +:+ y) = String.prefix (String c "") x.
Proof.
  destruct x as [|a x]; [congruence|]. intros _.
  rewrite StrFacts.app_cons, !StrFacts.prefix_cons, !StrFacts.prefix_nil. reflexivity.
Qed.

Lemma rev_nonempty (a : ascii) (s : string) : String.rev (String a s) <> "".
Proof.
  rewrite rev_cons. destruct (String.rev s); rewrite ?StrFacts.app_cons; discriminate.
Qed.

Lemma endswith_char (s : string) (c : ascii) :
  PyStr.endswith s (String c "") = PyStr.last_is s c.
Proof.
  unfold PyStr.endswith. change (String.rev (String c "")) with (String c "").
  induction s as [|a s IH]; [reflexivity|].
  destruct s as [|b s].
  - simpl. destruct (ascii_dec c a) as [->|Hne].
    + rewrite Ascii.eqb_refl. reflexivity.
    + symmetry. apply Ascii.eqb_neq. congruence.
  - rewrite rev_cons, prefix_char_app by apply rev_nonempty. exact IH.
Qed.

Lemma last_is_app (x s : string) (c : ascii) :
  s <> "" -> PyStr.last_is (x +:+ s) c = PyStr.last_is s c.
Proof.
  intros Hs. induction x as [|a x IH]; [reflexivity|].
  rewrite StrFacts.app_cons. simpl.
  destruct (x +:+ s) eqn:E; [|exact IH].
  destruct x; [|discriminate]. rewrite StrFacts.app_nil_l in E. contradiction.
Qed.

Lemma endswith_app (x s : string) (c : ascii) :
  s <> "" -> PyStr.endswith (x +:+ s) (String c "") = PyStr.endswith s (String c "").
Proof. intros Hs. rewrite !endswith_char. apply last_is_app. exact Hs. Qed.

Lemma app_nonempty_r (x s : string) : s <> "" -> x +:+ s <> "".
Proof.
  intros Hs E. apply (f_equal String.length) in E. rewrite StrFacts.length_app in E.
  destruct s; [congruence|]. simpl in E. lia.
Qed.

(** [join] on a directory without trailing separator and a relative
    component. *)
Lemma join_relative (a b : string) :
  a <> "" -> PyStr.endswith a "/" = false -> PyStr.startswith b "/" = false ->
  PosixPath.join a b = a +:+ "/" +:+ b.
Proof.
  intros Ha He Hb. unfold PosixPath.join. rewrite Hb, He.
  destruct (String.eqb_spec a ""); [contradiction | reflexivity].
Qed.

Lemma join_absolute (a b : string) :
  PyStr.startswith b "/" = true -> PosixPath.join a b = b.
Proof. intros Hb. unfold PosixPath.join. rewrite Hb. reflexivity. Qed.

Lemma source_path_plain (root s : string) :
  root <> "" -> PyStr.endswith root "/" = false -> plain s ->
  PosixPath.join (PosixPath.join root s) ("_src_" +:+ s +:+ ".yml")
  = spec_source_path root s.
Proof.
  intros Hr He (Hs & Hhead & Htail).
  rewrite (join_relative root s Hr He Hhead).
  rewrite join_relative.
  - unfold spec_source_path. rewrite !StrFacts.app_assoc. reflexivity.
  - apply app_nonempty_r. discriminate.
  - rewrite <- StrFacts.app_assoc, endswith_app by exact Hs. exact Htail.
  - reflexivity.
Qed.

Lemma app_eq_length (a b x y : string) :
  a +:+ x = b +:+ y -> String.length a = String.length b -> a = b /\ x = y.
Proof.
  revert b. induction a as [|c a IH]; intros [|d b] E Hl; try discriminate.
  - split; [reflexivity | exact E].
  - rewrite !StrFacts.app_cons in E. injection E as -> E. injection Hl as Hl.
    destruct (IH _ E Hl) as [-> ->]. auto.
Qed.

Lemma spec_source_path_inj (root s1 s2 : string) :
  spec_source_path root s1 = spec_source_path root s2 -> s1 = s2.
Proof.
  unfold spec_source_path. intros E.
  apply StrFacts.app_inv_head in E. apply StrFacts.app_inv_head in E.
  assert (Hl : String.length s1 = String.length s2).
  { apply (f_equal String.length) in E. rewrite !StrFacts.length_app in E.
    simpl in E. lia. }
  exact (proj1 (app_eq_length _ _ _ _ E Hl)).
Qed.

End PathFacts.

(** ** The source plan *)

Module PlanFacts.

Lemma find_none_forallb {A} (f : A -> bool) (l : list A) :
  forallb (fun x => negb (f x)) l = true -> List.find f l = None.
Proof.
  induction l as [|x l IH]; [reflexivity|]. simpl.
  destruct (f x); [discriminate|]. exact IH.
Qed.

Lemma makedirs_eq (p : string) (w : world) :
  makedirs_ok w p = true -> OS.makedirs p w = (Ok tt, after_makedirs w p).
Proof.
  unfold makedirs_ok. intros H. apply andb_true_iff in H as [H1 H2].
  unfold OS.makedirs, bind, emit. cbv beta iota.
  change (OS.abspath (World (files w) (dirs w) (cwd w) (trace w ++ [EMakedirs p])) p)
    with (OS.abspath w p).
  simpl files. simpl dirs. simpl cwd. simpl trace.
  destruct (bool_decide (is_Some (files w !! OS.abspath w p))); [discriminate|].
  rewrite (find_none_forallb _ _ H2). reflexivity.
Qed.

Lemma for_collect_cons_ok {A B} (f : A -> M B) (x : A) (l : list A) (y : B) (ys : list B)
    (w w1 w2 : world) :
  f x w = (Ok y, w1) -> for_collect l f w1 = (Ok ys, w2) ->
  for_collect (x :: l) f w = (Ok (y :: ys), w2).
Proof. intros H1 H2. simpl. unfold bind. rewrite H1, H2. reflexivity. Qed.

Lemma makedirs_ok_after (w : world) (p q : string) :
  makedirs_ok (after_makedirs w p) q = makedirs_ok w q.
Proof. reflexivity. Qed.

(** The planner succeeds whenever no regular file is in the way of a
    directory it makes, and then returns one entry per schema, in order;
    it changes no file. *)
Lemma source_cmd_generator_ok (db_name : string) (source_list : list string)
    (generate_columns : bool) (root : string) (w : world) :
  forallb (fun s => makedirs_ok w (PosixPath.join root s)) source_list = true ->
  exists w',
    source_cmd_generator db_name source_list generate_columns root w
    = (Ok (List.map (source_entry db_name generate_columns root) source_list), w')
    /\ files w' = files w /\ cwd w' = cwd w.
Proof.
  revert w. induction source_list as [|s l IH]; intros w H.
  - exists w. auto.
  - simpl in H. apply andb_true_iff in H as [Hs Hl].
    set (w1 := add_events (after_makedirs w (PosixPath.join root s))
                 [ELog ("Creating source YAML schema command for source schema: " +:+ s)]).
    destruct (IH w1 Hl) as (w' & Hrun & Hf & Hc).
    exists w'. split; [|split; [exact Hf | exact Hc]].
    unfold source_cmd_generator in *. simpl List.map.
    apply (for_collect_cons_ok _ _ _ _ _ w w1 w'); [|exact Hrun].
    rewrite (ExecFacts.bind_ok _ _ _ _ _ (makedirs_eq _ _ Hs)). reflexivity.
Qed.

Lemma source_paths_map (db_name : string) (generate_columns : bool) (root : string)
    (l : list string) :
  source_paths (List.map (source_entry db_name generate_columns root) l)
  = List.map (fun s => PosixPath.join (PosixPath.join root s) ("_src_" +:+ s +:+ ".yml")) l.
Proof.
  unfold source_paths, source_items.
  induction l as [|s l IH]; [reflexivity|]. simpl. f_equal. exact IH.
Qed.

Lemma map_ext_Forall {A B} (P : A -> Prop) (f g : A -> B) (l : list A) :
  (forall x, P x -> f x = g x) -> Forall P l -> List.map f l = List.map g l.
Proof.
  intros H HF. induction HF as [|x l Hx _ IH]; [reflexivity|].
  simpl. rewrite (H _ Hx), IH. reflexivity.
Qed.

Lemma NoDup_map_inj {A B} (f : A -> B) (l : list A) :
  (forall x y, f x = f y -> x = y) -> NoDup l -> NoDup (List.map f l).
Proof.
  intros Hinj HN. induction HN as [|x l Hx _ IH]; simpl; constructor; [|exact IH].
  intros Hin. apply Hx. apply list_elem_of_In in Hin. apply in_map_iff in Hin.
  destruct Hin as (y & Hy & Hin). apply Hinj in Hy. subst y.
  apply list_elem_of_In. exact Hin.
Qed.

End PlanFacts.

(** C1 (as amended).  For every database name, every ordered sequence of
    schema names and every output root, [source_cmd_generator] - which
    returns whenever no regular file stands where it makes a directory -
    returns exactly one single-key entry per input schema name, in input
    order, duplicates included, each with destination path
    [join (join root schema) "_src_<schema>.yml"].  When the root is not
    empty and has no trailing separator and the schema names are plain,
    that path is [<root>/<schema>/_src_<schema>.yml], and the destination
    paths are pairwise distinct when the schema names are. *)
Theorem plan_sources_one_entry_per_schema (db_name : string) (source_list : list string)
    (generate_columns : bool) (root : string) (w : world) :
  forallb (fun s => makedirs_ok w (PosixPath.join root s)) source_list = true ->
  let plan := List.map (source_entry db_name generate_columns root) source_list in
  (exists w',
     source_cmd_generator db_name source_list generate_columns root w = (Ok plan, w')
     /\ files w' = files w)
  /\ length plan = length source_list
  /\ source_paths plan
     = List.map (fun s => PosixPath.join (PosixPath.join root s) ("_src_" +:+ s +:+ ".yml"))
         source_list
  /\ (root <> "" -> PyStr.endswith root "/" = false -> Forall plain source_list ->
      source_paths plan = List.map (spec_source_path root) source_list
      /\ (NoDup source_list -> NoDup (source_paths plan))).
Proof.
  intros Hok plan. split; [|split; [|split]].
  - destruct (PlanFacts.source_cmd_generator_ok db_name source_list generate_columns
                root w Hok) as (w' & Hrun & Hf & _).
    exists w'. auto.
  - unfold plan. apply length_map.
  - apply PlanFacts.source_paths_map.
  - intros Hr He Hplain.
    assert (E : source_paths plan = List.map (spec_source_path root) source_list).
    { unfold plan. rewrite PlanFacts.source_paths_map.
      apply (PlanFacts.map_ext_Forall plain); [|exact Hplain].
      intros s Hs. apply PathFacts.source_path_plain; assumption. }
    split; [exact E|]. intros HN. rewrite E.
    apply PlanFacts.NoDup_map_inj; [|exact HN].
    intros x y. apply PathFacts.spec_source_path_inj.
Qed.

Lemma plan_sources_one_entry_per_schema_witness :
  exists w',
    source_cmd_generator "lake" ["fivetran_log"; "sales"] true "/p/models"
      Demo.empty_project
    = (Ok (List.map (source_entry "lake" true "/p/models") ["fivetran_log"; "sales"]), w')
    /\ files w' = files Demo.empty_project.
Proof.
  apply (plan_sources_one_entry_per_schema "lake" ["fivetran_log"; "sales"] true
           "/p/models" Demo.empty_project).
  reflexivity.
Defined.

(** C1 as stated fails.  A schema name given twice yields two entries
    with one and the same destination path; and with a root that ends in a
    separator the path is not the root, a separator, the schema and so
    on. *)
Lemma plan_sources_counterexample :
  (exists plan w',
     source_cmd_generator "lake" ["sales"; "sales"] true "/p/models" Demo.empty_project
     = (Ok plan, w')
     /\ length plan = 2%nat
     /\ ~ NoDup (source_paths plan))
  /\ (exists plan w',
        source_cmd_generator "lake" ["sales"] true "/p/models/" Demo.empty_project
        = (Ok plan, w')
        /\ source_paths plan <> [spec_source_path "/p/models/" "sales"]).
Proof.
  split.
  - eexists. eexists. split; [reflexivity|]. split; [reflexivity|].
    intros HN. apply NoDup_cons in HN as [Hnot _]. apply Hnot. left.
  - eexists. eexists. split; [reflexivity|]. discriminate.
Qed.

(** ** Reasoning about computations *)

Module Hoare.

Lemma bind_ok_inv {A B} (c : M A) (k : A -> M B) (w w' : world) (b : B) :
  bind c k w = (Ok b, w') -> exists a w1, c w = (Ok a, w1) /\ k a w1 = (Ok b, w').
Proof.
  unfold bind. destruct (c w) as [[a| |] w1]; intros H; try discriminate. eauto.
Qed.

Section Rel.

Variable R : world -> world -> Prop.
Hypothesis R_refl : forall w, R w w.
Hypothesis R_trans : forall a b c, R a b -> R b c -> R a c.

Lemma preserves_ret {A} (a : A) : preserves R (ret a).
Proof. intros w. apply R_refl. Qed.

Lemma preserves_raise {A} (e : exn) : preserves R (@raise A e).
Proof. intros w. apply R_refl. Qed.

Lemma preserves_lift {A} (o : outcome A) : preserves R (lift o).
Proof. intros w. apply R_refl. Qed.

Lemma preserves_bind {A B} (c : M A) (k : A -> M B) :
  preserves R c -> (forall a, preserves R (k a)) -> preserves R (bind c k).
Proof.
  intros Hc Hk w. unfold bind. specialize (Hc w).
  destruct (c w) as [[a| |] w1]; simpl in *; try exact Hc.
  apply (R_trans _ _ _ Hc). apply Hk.
Qed.

Lemma preserves_for_each {A} (l : list A) (f : A -> M unit) :
  (forall x, In x l -> preserves R (f x)) -> preserves R (for_each l f).
Proof.
  induction l as [|x l IH]; intros H; [apply preserves_ret|].
  simpl. apply preserves_bind; [apply H; left; reflexivity|].
  intros _. apply IH. intros y Hy. apply H. right. exact Hy.
Qed.

Lemma preserves_for_collect {A B} (l : list A) (f : A -> M B) :
  (forall x, In x l -> preserves R (f x)) -> preserves R (for_collect l f).
Proof.
  induction l as [|x l IH]; intros H; [apply preserves_ret|].
  simpl. apply preserves_bind; [apply H; left; reflexivity|].
  intros y. apply preserves_bind; [|intros ys; apply preserves_ret].
  apply IH. intros z Hz. apply H. right. exact Hz.
Qed.

End Rel.

Lemma preserves_weaken {A} (R R' : world -> world -> Prop) (c : M A) :
  (forall w w', R w w' -> R' w w') -> preserves R c -> preserves R' c.
Proof. intros H Hc w. apply H, Hc. Qed.

(** The value a successful loop returns when each round's value is a
    function of its element. *)
Lemma for_collect_value {A B} (g : A -> B) (l : list A) (f : A -> M B) (w w' : world)
    (ys : list B) :
  (forall x w1 y w2, In x l -> f x w1 = (Ok y, w2) -> y = g x) ->
  for_collect l f w = (Ok ys, w') -> ys = List.map g l.
Proof.
  revert w w' ys. induction l as [|x l IH]; intros w w' ys H Hrun.
  - simpl in Hrun. injection Hrun as <- _. reflexivity.
  - simpl in Hrun.
    apply bind_ok_inv in Hrun as (y & w1 & Hy & Hrun).
    apply bind_ok_inv in Hrun as (ys' & w2 & Hys & Hrun).
    injection Hrun as <- _. simpl. f_equal.
    + exact (H x w y w1 (or_introl eq_refl) Hy).
    + apply (IH w1 w2); [|exact Hys]. intros z wa yz wb Hz. apply H. right. exact Hz.
Qed.

(** What each primitive leaves behind. *)
Lemma emit_world (e : event) (w : world) : snd (emit e w) = add_events w [e].
Proof. reflexivity. Qed.

Lemma makedirs_world (p : string) (w : world) :
  snd (OS.makedirs p w) = add_events w [EMakedirs p]
  \/ snd (OS.makedirs p w) = after_makedirs w p.
Proof.
  unfold OS.makedirs, bind, emit. cbv beta iota.
  destruct (bool_decide _); [left; reflexivity|].
  destruct (List.find _ _); [left; reflexivity | right; reflexivity].
Qed.

Lemma read_file_world (p : string) (w : world) :
  snd (OS.read_file p w) = add_events w [EOpen p ModeR].
Proof.
  unfold OS.read_file, bind, emit. cbv beta iota.
  destruct (files _ !! _); [reflexivity|].
  destruct (bool_decide _); reflexivity.
Qed.

Lemma subprocess_run_world (subprocess : cmdline -> string -> world -> Z * string)
    (c : cmdline) (d : string) (w : world) :
  snd (subprocess_run subprocess c d w) = add_events w [ERun c d].
Proof.
  rewrite ExecFacts.subprocess_run_eq. cbv zeta.
  destruct (fst _ =? 0); reflexivity.
Qed.

End Hoare.

(** ** The base-model plan *)

Module BaseFacts.

Lemma makes_only_refl (P : string -> Prop) (w : world) : makes_only P w w.
Proof. exists []. split; [symmetry; apply app_nil_r | constructor]. Qed.

Lemma makedirs_calls_app (a b : list event) :
  makedirs_calls (a ++ b) = makedirs_calls a ++ makedirs_calls b.
Proof. induction a as [|[] a IH]; simpl; congruence. Qed.

Lemma makes_only_trans (P : string -> Prop) (a b c : world) :
  makes_only P a b -> makes_only P b c -> makes_only P a c.
Proof.
  intros (e1 & H1 & F1) (e2 & H2 & F2). exists (e1 ++ e2). split.
  - rewrite H2, H1, app_assoc. reflexivity.
  - rewrite makedirs_calls_app. apply Forall_app. auto.
Qed.

Lemma makes_only_weaken (P Q : string -> Prop) (w w' : world) :
  (forall p, P p -> Q p) -> makes_only P w w' -> makes_only Q w w'.
Proof.
  intros H (es & He & HF). exists es. split; [exact He|].
  eapply Forall_impl; eauto.
Qed.

Lemma makes_only_makedirs (P : string -> Prop) (p : string) :
  P p -> preserves (makes_only P) (OS.makedirs p).
Proof.
  intros HP w. exists [EMakedirs p]. split.
  - destruct (Hoare.makedirs_world p w) as [-> | ->]; reflexivity.
  - repeat constructor. exact HP.
Qed.

Lemma makes_only_log (P : string -> Prop) (msg : string) :
  preserves (makes_only P) (logging_info msg).
Proof. intros w. exists [ELog msg]. split; [reflexivity | constructor]. Qed.

(** Every directory [base_command_generator] makes is the one it was
    given. *)
Lemma base_command_generator_makes (source_name dest : string)
    (table_mappings : list table_mapping) :
  preserves (makes_only (eq dest)) (base_command_generator source_name table_mappings dest).
Proof.
  unfold base_command_generator.
  apply Hoare.preserves_for_collect;
    [apply makes_only_refl | apply makes_only_trans|].
  intros tm _.
  apply Hoare.preserves_for_collect;
    [apply makes_only_refl | apply makes_only_trans|].
  intros [t td] _.
  apply Hoare.preserves_bind; [apply makes_only_trans | |].
  - apply makes_only_makedirs. reflexivity.
  - intros _. apply Hoare.preserves_ret. apply makes_only_refl.
Qed.

(** Every directory [all_base_commands_generator] makes is
    [models/<source>] for a source of its input. *)
Lemma all_base_commands_generator_makes (m : list source_mapping) :
  preserves
    (makes_only (fun p => exists s d, In (s, d) (concat m) /\ p = "models/" +:+ s))
    (all_base_commands_generator m).
Proof.
  set (P := fun p => exists s d, In (s, d) (concat m) /\ p = "models/" +:+ s).
  unfold all_base_commands_generator.
  apply Hoare.preserves_bind; [apply makes_only_trans | |].
  2: { intros a. apply Hoare.preserves_ret. apply makes_only_refl. }
  apply Hoare.preserves_for_collect;
    [apply makes_only_refl | apply makes_only_trans|].
  intros mapping Hmapping.
  apply Hoare.preserves_for_collect;
    [apply makes_only_refl | apply makes_only_trans|].
  intros [s d] Hitem.
  apply Hoare.preserves_bind; [apply makes_only_trans | apply makes_only_log |].
  intros _. destruct (tables d) as [tms|].
  2: { apply Hoare.preserves_raise. apply makes_only_refl. }
  apply Hoare.preserves_bind; [apply makes_only_trans | |].
  2: { intros a. apply Hoare.preserves_ret. apply makes_only_refl. }
  apply (Hoare.preserves_weaken (makes_only (eq ("models/" +:+ s)))).
  - intros w w'. apply makes_only_weaken. intros p <-. exists s, d. split; [|reflexivity].
    apply in_concat. exists mapping. auto.
  - apply base_command_generator_makes.
Qed.

End BaseFacts.

Module ScanFacts.

Lemma for_collect_Forall2 {A B} (Q : A -> B -> Prop) (l : list A) (f : A -> M B)
    (w w' : world) (ys : list B) :
  (forall x w1 y w2, In x l -> f x w1 = (Ok y, w2) -> Q x y) ->
  for_collect l f w = (Ok ys, w') -> Forall2 Q l ys.
Proof.
  revert w w' ys. induction l as [|x l IH]; intros w w' ys H Hrun.
  - simpl in Hrun. injection Hrun as <- _. constructor.
  - simpl in Hrun.
    apply Hoare.bind_ok_inv in Hrun as (y & w1 & Hy & Hrun).
    apply Hoare.bind_ok_inv in Hrun as (ys' & w2 & Hys & Hrun).
    injection Hrun as <- _. constructor.
    + exact (H x w y w1 (or_introl eq_refl) Hy).
    + apply (IH w1 w2); [|exact Hys]. intros z wa yz wb Hz. apply H. right. exact Hz.
Qed.

Lemma Forall2_concat_concat {A B} (Q : A -> B -> Prop) (ls : list (list A))
    (ms : list (list B)) :
  Forall2 (Forall2 Q) ls ms -> Forall2 Q (concat ls) (concat ms).
Proof.
  induction 1 as [|l m ls ms Hlm _ IH]; simpl; [constructor|].
  apply Forall2_app; assumption.
Qed.

Lemma Forall2_In_r {A B} (Q : A -> B -> Prop) (l : list A) (m : list B) (y : B) :
  Forall2 Q l m -> In y m -> exists x, In x l /\ Q x y.
Proof.
  induction 1 as [|x z l m Hxz _ IH]; [contradiction|].
  intros [<- | Hin]; [exists x; split; [left; reflexivity | exact Hxz]|].
  destruct (IH Hin) as (x' & Hx' & HQ). exists x'. split; [right; exact Hx' | exact HQ].
Qed.

Lemma obind_ok_inv {A B} (o : outcome A) (k : A -> outcome B) (b : B) :
  Py.obind o k = Ok b -> exists a, o = Ok a /\ k a = Ok b.
Proof. destruct o; simpl; intros H; try discriminate. eauto. Qed.

Lemma omap_value {A B C} (g : C -> B) (f : A -> outcome B) (l : list A) (ys : list B) :
  (forall x y, f x = Ok y -> exists n, y = g n) ->
  Py.omap f l = Ok ys -> exists ns, ys = List.map g ns.
Proof.
  intros H. revert ys. induction l as [|x l IH]; intros ys Hrun.
  - injection Hrun as <-. exists []. reflexivity.
  - simpl in Hrun.
    apply obind_ok_inv in Hrun as (y & Hy & Hrun).
    apply obind_ok_inv in Hrun as (ys' & Hys & Hrun).
    injection Hrun as <-.
    destruct (H _ _ Hy) as [n ->]. destruct (IH _ Hys) as [ns ->].
    exists (n :: ns). reflexivity.
Qed.

(** The manifest of a loaded declaration pairs every table with its
    staging path under the folder. *)
Lemma table_names_of_inv (source_name folder : string) (v : yaml)
    (tn : list table_mapping) :
  table_names_of source_name folder v = Ok tn ->
  exists names, tn = manifest folder source_name names.
Proof.
  unfold table_names_of. intros H.
  apply obind_ok_inv in H as (sources & _ & H).
  apply obind_ok_inv in H as (first & _ & H).
  apply obind_ok_inv in H as (tables_list & _ & H).
  apply obind_ok_inv in H as (ds & _ & H).
  apply (omap_value (fun name =>
           [(name, {| file_name := staging_path folder source_name name;
                      base_command := None |})])) in H; [exact H|].
  intros d y Hd.
  apply obind_ok_inv in Hd as (name & _ & Hd).
  apply obind_ok_inv in Hd as (n & _ & Hd).
  injection Hd as <-. exists n. reflexivity.
Qed.

(** What a successful scan returns: every entry of the plan, in order,
    with a manifest attached and nothing else changed. *)
Lemma lift_ok_inv {A} (o : outcome A) (w w' : world) (a : A) :
  lift o w = (Ok a, w') -> o = Ok a.
Proof. unfold lift. intros H. injection H as -> _. reflexivity. Qed.

Lemma src_yml_scan_value (yaml_safe_load : string -> option yaml)
    (plan : list source_mapping) (w w' : world) (m : list source_mapping) :
  src_yml_scan yaml_safe_load plan w = (Ok m, w') ->
  Forall2 (fun item mapping => exists names, mapping = scanned item names)
    (concat plan) m.
Proof.
  unfold src_yml_scan. intros H.
  apply Hoare.bind_ok_inv in H as (per_mapping & w1 & Hper & H).
  injection H as <- _.
  apply Forall2_concat_concat.
  refine (for_collect_Forall2 _ _ _ _ _ _ _ Hper).
  intros mapping wa ys wb _ Hinner.
  refine (for_collect_Forall2 _ _ _ _ _ _ _ Hinner).
  intros [s d] wc y wd _ Hbody.
  apply Hoare.bind_ok_inv in Hbody as (text & w2 & _ & Hbody).
  apply Hoare.bind_ok_inv in Hbody as (loaded & w3 & _ & Hbody).
  apply Hoare.bind_ok_inv in Hbody as (tn & w4 & Htn & Hbody).
  injection Hbody as <- _.
  apply lift_ok_inv in Htn. apply table_names_of_inv in Htn as [names ->].
  exists names. reflexivity.
Qed.

End ScanFacts.

Module BasePlanFacts.

Lemma base_command_generator_value (source_name dest : string)
    (tms r : list table_mapping) (w w' : world) :
  base_command_generator source_name tms dest w = (Ok r, w') ->
  r = with_commands source_name tms.
Proof.
  unfold base_command_generator, with_commands. intros H.
  refine (Hoare.for_collect_value _ _ _ _ _ _ _ H).
  intros tm w1 y w2 _ Hinner.
  refine (Hoare.for_collect_value _ _ _ _ _ _ _ Hinner).
  intros [t td] w3 item w4 _ Hbody.
  apply Hoare.bind_ok_inv in Hbody as ([] & w5 & _ & Hbody).
  injection Hbody as <- _. reflexivity.
Qed.

Lemma all_base_commands_generator_value (m : list source_mapping)
    (plan : list base_mapping) (w w' : world) :
  all_base_commands_generator m w = (Ok plan, w') -> plan = base_plan m.
Proof.
  unfold all_base_commands_generator, base_plan. intros H.
  apply Hoare.bind_ok_inv in H as (per_mapping & w1 & Hper & H).
  injection H as <- _.
  rewrite concat_map. f_equal.
  refine (Hoare.for_collect_value _ _ _ _ _ _ _ Hper).
  intros mapping w2 ys w3 _ Hinner.
  refine (Hoare.for_collect_value _ _ _ _ _ _ _ Hinner).
  intros [s d] w4 y w5 _ Hbody.
  apply Hoare.bind_ok_inv in Hbody as ([] & w6 & _ & Hbody).
  destruct (tables d) as [tms|] eqn:Ht; [|discriminate].
  apply Hoare.bind_ok_inv in Hbody as (cmds & w7 & Hcmds & Hbody).
  injection Hbody as <- _.
  apply base_command_generator_value in Hcmds as ->.
  simpl fst. simpl snd. rewrite Ht. reflexivity.
Qed.

(** The events a successful loop adds when each round adds events that
    depend on its element only. *)
Lemma for_collect_trace {A B} (E : A -> list event) (l : list A) (f : A -> M B)
    (w w' : world) (ys : list B) :
  (forall x w1 y w2, In x l -> f x w1 = (Ok y, w2) -> trace w2 = trace w1 ++ E x) ->
  for_collect l f w = (Ok ys, w') -> trace w' = trace w ++ concat (List.map E l).
Proof.
  revert w w' ys. induction l as [|x l IH]; intros w w' ys H Hrun.
  - simpl in Hrun. injection Hrun as _ <-. simpl. rewrite app_nil_r. reflexivity.
  - simpl in Hrun.
    apply Hoare.bind_ok_inv in Hrun as (y & w1 & Hy & Hrun).
    apply Hoare.bind_ok_inv in Hrun as (ys' & w2 & Hys & Hrun).
    injection Hrun as _ <-. simpl.
    rewrite (IH w1 w2 ys'); [| |exact Hys].
    + rewrite (H x w y w1 (or_introl eq_refl) Hy), app_assoc. reflexivity.
    + intros z wa yz wb Hz. apply H. right. exact Hz.
Qed.

Lemma makedirs_trace (p : string) (w : world) :
  trace (snd (OS.makedirs p w)) = trace w ++ [EMakedirs p].
Proof. destruct (Hoare.makedirs_world p w) as [-> | ->]; reflexivity. Qed.

Lemma concat_map_singleton {A B} (f : A -> B) (l : list A) :
  concat (List.map (fun x => [f x]) l) = List.map f l.
Proof. induction l as [|x l IH]; simpl; congruence. Qed.

Lemma concat_map_concat {A B} (E : A -> list B) (ls : list (list A)) :
  concat (List.map E (concat ls)) = concat (List.map (fun l => concat (List.map E l)) ls).
Proof.
  induction ls as [|l ls IH]; [reflexivity|].
  simpl. rewrite map_app, concat_app, IH. reflexivity.
Qed.

Lemma base_command_generator_trace (source_name dest : string)
    (tms r : list table_mapping) (w w' : world) :
  base_command_generator source_name tms dest w = (Ok r, w') ->
  trace w' = trace w ++ List.map (fun _ => EMakedirs dest) (concat tms).
Proof.
  unfold base_command_generator. intros H.
  rewrite concat_map.
  refine (for_collect_trace _ _ _ _ _ _ _ H).
  intros tm w1 y w2 _ Hinner.
  rewrite <- (concat_map_singleton (fun _ => EMakedirs dest) tm).
  refine (for_collect_trace _ _ _ _ _ _ _ Hinner).
  intros [t td] w3 item w4 _ Hbody.
  apply Hoare.bind_ok_inv in Hbody as ([] & w5 & Hmk & Hbody).
  injection Hbody as _ <-.
  rewrite <- (makedirs_trace dest w3), Hmk. reflexivity.
Qed.

Lemma all_base_commands_generator_trace (m : list source_mapping)
    (plan : list base_mapping) (w w' : world) :
  all_base_commands_generator m w = (Ok plan, w') ->
  trace w' = trace w ++ concat (List.map base_events (concat m)).
Proof.
  unfold all_base_commands_generator. intros H.
  apply Hoare.bind_ok_inv in H as (per_mapping & w1 & Hper & H).
  injection H as _ <-.
  rewrite concat_map_concat.
  refine (for_collect_trace (fun mapping => concat (List.map base_events mapping))
            _ _ _ _ _ _ Hper).
  intros mapping w2 ys w3 _ Hinner.
  refine (for_collect_trace _ _ _ _ _ _ _ Hinner).
  intros [s d] w4 y w5 _ Hbody.
  apply Hoare.bind_ok_inv in Hbody as ([] & w6 & Hlog & Hbody).
  injection Hlog as <-.
  destruct (tables d) as [tms|] eqn:Ht; [|discriminate].
  apply Hoare.bind_ok_inv in Hbody as (cmds & w7 & Hcmds & Hbody).
  injection Hbody as _ <-.
  apply base_command_generator_trace in Hcmds. rewrite Hcmds.
  unfold base_events. simpl fst. simpl snd. rewrite Ht. simpl.
  rewrite <- app_assoc. reflexivity.
Qed.

(** The entries of the plan [all_base_commands_generator] returns. *)
Lemma base_plan_entry (m : list source_mapping) (e : plan_entry) :
  In e (plan_entries (BaseMappings (base_plan m))) ->
  exists s d t td,
    In (s, d) (concat m)
    /\ In (t, td) (concat (default [] (tables d)))
    /\ e = BaseModelEntry s t {| file_name := file_name td;
                                 base_command := Some (base_cmd_of s t) |}.
Proof.
  unfold plan_entries, base_items, base_plan. intros H.
  apply in_map_iff in H as ([s [t td']] & <- & H).
  apply in_concat in H as (l & Hl & H).
  apply in_map_iff in Hl as (mapping & <- & Hmapping).
  apply in_map_iff in Hmapping as ([s0 d] & <- & Hitem).
  simpl in H. rewrite app_nil_r in H.
  apply in_map_iff in H as ([t0 td0] & E & H). injection E as <- <- <-.
  unfold with_commands in H. rewrite <- concat_map in H.
  apply in_map_iff in H as ([t1 td1] & E & H). injection E as <- <-.
  exists s0, d, t1, td1. auto.
Qed.

Lemma in_makedirs_calls (p : string) (es : list event) :
  In (EMakedirs p) es -> In p (makedirs_calls es).
Proof.
  induction es as [|e es IH]; [contradiction|].
  intros [-> | H]; [left; reflexivity|].
  destruct e; simpl; auto.
Qed.

End BasePlanFacts.

Module DirFacts.

Lemma normal_not_root (d : string) :
  d <> "" -> PyStr.endswith d "/" = false -> String.eqb d "/" = false.
Proof.
  intros _ He. destruct (String.eqb_spec d "/") as [->|]; [discriminate | reflexivity].
Qed.

(** [join] under a directory in normal form. *)
Lemma join_normal (d x : string) :
  normal_dir d -> PyStr.startswith x "/" = false ->
  PosixPath.join d x = if String.eqb d "/" then "/" +:+ x else d +:+ "/" +:+ x.
Proof.
  intros [-> | [Hd He]] Hx.
  - unfold PosixPath.join. rewrite Hx. reflexivity.
  - rewrite (normal_not_root d Hd He). apply PathFacts.join_relative; assumption.
Qed.

Lemma startswith_app (a b : string) :
  a <> "" -> PyStr.startswith (a +:+ b) "/" = PyStr.startswith a "/".
Proof. intros Ha. apply PathFacts.prefix_char_app. exact Ha. Qed.

(** The models folder of a schema under a project directory. *)
Lemma models_folder (pd s : string) :
  normal_dir pd -> PyStr.startswith s "/" = false ->
  PosixPath.join (PosixPath.join pd "models") s
  = (if String.eqb pd "/" then "" else pd) +:+ "/models/" +:+ s.
Proof.
  intros Hpd Hs. rewrite (join_normal pd "models" Hpd eq_refl).
  destruct (String.eqb pd "/").
  - rewrite PathFacts.join_relative; [reflexivity | discriminate | reflexivity | exact Hs].
  - rewrite PathFacts.join_relative.
    + rewrite !StrFacts.app_assoc. reflexivity.
    + apply PathFacts.app_nonempty_r. discriminate.
    + rewrite PathFacts.endswith_app by discriminate. reflexivity.
    + exact Hs.
Qed.

Lemma app_self_absurd (a b : string) : b <> "" -> a = a +:+ b -> False.
Proof.
  intros Hb E. apply (f_equal String.length) in E. rewrite StrFacts.length_app in E.
  destruct b; [congruence|]. simpl in E. lia.
Qed.

(** The directory the base-model phase makes, [models/<schema>] under the
    working directory, is the folder of the schema under the project
    directory exactly when the working directory is the project
    directory. *)
Lemma models_dir_eq (w : world) (pd s : string) :
  normal_dir (cwd w) -> normal_dir pd -> PyStr.startswith s "/" = false ->
  OS.abspath w ("models/" +:+ s) = OS.abspath w (PosixPath.join (PosixPath.join pd "models") s)
  <-> cwd w = OS.abspath w pd.
Proof.
  intros Hcwd Hpd Hs. unfold OS.abspath.
  rewrite (models_folder pd s Hpd Hs).
  rewrite (join_normal (cwd w) ("models/" +:+ s) Hcwd eq_refl).
  destruct (PyStr.startswith pd "/") eqn:Habs.
  - (* an absolute project directory *)
    rewrite (PathFacts.join_absolute (cwd w) pd Habs).
    rewrite PathFacts.join_absolute.
    2: { destruct (String.eqb pd "/"); [reflexivity|].
         rewrite startswith_app; [exact Habs|]. destruct pd; [discriminate | congruence]. }
    destruct Hcwd as [-> | [Hc Hce]], Hpd as [-> | [Hp Hpe]].
    + simpl. split; reflexivity.
    + rewrite (normal_not_root pd Hp Hpe). simpl String.eqb. cbv iota. split.
      * intros E. exfalso. change ("/" +:+ "models/" +:+ s) with ("" +:+ "/models/" +:+ s) in E.
        apply StrFacts.app_inv_tail in E. congruence.
      * intros <-. discriminate.
    + rewrite (normal_not_root (cwd w) Hc Hce). simpl String.eqb. cbv iota. split.
      * intros E. exfalso.
        change (cwd w +:+ "/" +:+ "models/" +:+ s) with (cwd w +:+ "/models/" +:+ s) in E.
        change ("" +:+ "/models/" +:+ s) with ("" +:+ "/models/" +:+ s) in E.
        apply StrFacts.app_inv_tail in E. congruence.
      * intros E. rewrite E in Hce. discriminate.
    + rewrite (normal_not_root (cwd w) Hc Hce), (normal_not_root pd Hp Hpe). split.
      * intros E.
        change (cwd w +:+ "/" +:+ "models/" +:+ s) with (cwd w +:+ "/models/" +:+ s) in E.
        apply StrFacts.app_inv_tail in E. exact E.
      * intros <-. reflexivity.
  - (* a relative one *)
    destruct Hpd as [-> | [Hp Hpe]]; [discriminate|].
    rewrite (normal_not_root pd Hp Hpe).
    assert (Hrel : PyStr.startswith (pd +:+ "/models/" +:+ s) "/" = false).
    { rewrite startswith_app by exact Hp. exact Habs. }
    rewrite (join_normal (cwd w) _ Hcwd Hrel), (join_normal (cwd w) pd Hcwd Habs).
    destruct (String.eqb (cwd w) "/") eqn:Hroot.
    + apply String.eqb_eq in Hroot. rewrite Hroot. split.
      * intros E. exfalso.
        change ("/" +:+ "models/" +:+ s) with ("/" +:+ "" +:+ "models/" +:+ s) in E.
        apply StrFacts.app_inv_head in E.
        apply (f_equal String.length) in E. rewrite !StrFacts.length_app in E.
        simpl in E. lia.
      * intros E. exfalso. exact (app_self_absurd "/" pd Hp E).
    + split.
      * intros E. exfalso.
        apply StrFacts.app_inv_head in E. apply StrFacts.app_inv_head in E.
        apply (f_equal String.length) in E. rewrite !StrFacts.length_app in E.
        simpl in E. lia.
      * intros E. exfalso.
        apply (app_self_absurd (cwd w) ("/" +:+ pd)); [discriminate | exact E].
Qed.

End DirFacts.

(** ** Base names and suffixes *)

Module NameFacts.

Lemma no_sep_relative (n : string) :
  PyStr.has_char n "/" = false -> PyStr.startswith n "/" = false.
Proof.
  destruct n as [|c n]; [reflexivity|]. intros H. simpl in H.
  apply orb_false_iff in H as [H _]. unfold PyStr.startswith.
  rewrite StrFacts.prefix_cons, Ascii.eqb_sym, H. reflexivity.
Qed.

Lemma basename_no_sep (n : string) :
  PyStr.has_char n "/" = false -> PosixPath.basename n = n.
Proof.
  destruct n as [|c n]; [reflexivity|]. simpl. intros H.
  apply orb_false_iff in H as [H1 H2]. rewrite H1, H2. reflexivity.
Qed.

Lemma has_sep_app (x b : string) : PyStr.has_char (x +:+ "/" +:+ b) "/" = true.
Proof.
  rewrite StrFacts.has_char_app. rewrite StrFacts.app_cons. simpl.
  apply orb_true_r.
Qed.

Lemma basename_app_sep (x b : string) :
  PosixPath.basename (x +:+ "/" +:+ b) = PosixPath.basename b.
Proof.
  induction x as [|c x IH].
  - rewrite StrFacts.app_nil_l, StrFacts.app_cons, StrFacts.app_nil_l. simpl.
    destruct (PyStr.has_char b "/") eqn:E; [reflexivity|].
    symmetry. apply basename_no_sep. exact E.
  - rewrite StrFacts.app_cons. simpl. rewrite has_sep_app. exact IH.
Qed.

Lemma last_is_split (x : string) (c : ascii) :
  PyStr.last_is x c = true -> exists x', x = x' +:+ String c "".
Proof.
  induction x as [|a x IH]; [discriminate|].
  destruct x as [|b x].
  - simpl. intros H. apply Ascii.eqb_eq in H as ->. exists "". reflexivity.
  - intros H. destruct (IH H) as [x' E]. exists (String a x').
    rewrite StrFacts.app_cons, <- E. reflexivity.
Qed.

(** The base name of a joined path is the base name of its second part. *)
Lemma basename_join (a b : string) :
  PosixPath.basename (PosixPath.join a b) = PosixPath.basename b.
Proof.
  unfold PosixPath.join. destruct (PyStr.startswith b "/"); [reflexivity|].
  destruct (String.eqb_spec a "") as [->|Ha]; [reflexivity|]. simpl orb.
  destruct (PyStr.endswith a "/") eqn:He.
  - rewrite PathFacts.endswith_char in He.
    destruct (last_is_split _ _ He) as [a' ->].
    rewrite StrFacts.app_assoc. apply basename_app_sep.
  - apply basename_app_sep.
Qed.

Lemma basename_suffix (k : string) : exists pre, k = pre +:+ PosixPath.basename k.
Proof.
  induction k as [|c k IH]; [exists ""; reflexivity|].
  simpl. destruct (PyStr.has_char k "/").
  - destruct IH as [pre E]. exists (String c pre). rewrite StrFacts.app_cons, <- E.
    reflexivity.
  - destruct (Ascii.eqb c "/"); [exists (String c "") | exists ""]; reflexivity.
Qed.

Lemma rev_app_distr (a b : string) :
  String.rev (a +:+ b) = String.rev b +:+ String.rev a.
Proof.
  induction a as [|c a IH].
  - rewrite StrFacts.app_nil_l. symmetry. apply StrFacts.app_nil_r.
  - rewrite StrFacts.app_cons, !PathFacts.rev_cons, IH, StrFacts.app_assoc. reflexivity.
Qed.

Lemma endswith_app_true (a b suf : string) :
  PyStr.endswith b suf = true -> PyStr.endswith (a +:+ b) suf = true.
Proof.
  unfold PyStr.endswith. intros H. apply StrFacts.prefix_true in H as [r E].
  rewrite rev_app_distr, E, StrFacts.app_assoc. apply StrFacts.prefix_app.
Qed.

Lemma endswith_join_true (a b suf : string) :
  PyStr.endswith b suf = true -> PyStr.endswith (PosixPath.join a b) suf = true.
Proof.
  intros H. unfold PosixPath.join. destruct (PyStr.startswith b "/"); [exact H|].
  destruct (_ || _).
  - apply endswith_app_true. exact H.
  - rewrite <- StrFacts.app_assoc. apply endswith_app_true. exact H.
Qed.

Lemma ends_sql_yml (k : string) :
  PyStr.endswith k ".sql" = true -> PyStr.endswith k ".yml" = true -> False.
Proof.
  unfold PyStr.endswith.
  change (String.rev ".sql") with "lqs.". change (String.rev ".yml") with "lmy.".
  intros H1 H2.
  destruct (String.rev k) as [|c1 r]; [discriminate|].
  rewrite StrFacts.prefix_cons in H1, H2.
  destruct (Ascii.eqb "l" c1); [|discriminate].
  destruct r as [|c2 r]; [discriminate|].
  rewrite StrFacts.prefix_cons in H1, H2.
  destruct (Ascii.eqb_spec "q" c2) as [<-|]; [|discriminate].
  discriminate.
Qed.

(** A path that ends in [.sql] is not called [dbt_project.yml]. *)
Lemma sql_not_descriptor (k : string) :
  PyStr.endswith k ".sql" = true -> PosixPath.basename k <> descriptor.
Proof.
  intros Hsql Hb. destruct (basename_suffix k) as [pre E]. rewrite Hb in E.
  apply (ends_sql_yml k Hsql). rewrite E. apply endswith_app_true. reflexivity.
Qed.

(** The destination of a source entry of a plain schema is called
    [_src_<schema>.yml]. *)
Lemma source_path_basename (folder s : string) :
  PyStr.has_char s "/" = false ->
  PosixPath.basename (PosixPath.join folder ("_src_" +:+ s +:+ ".yml")) <> descriptor.
Proof.
  intros Hs. rewrite basename_join, basename_no_sep.
  - discriminate.
  - change ("_src_" +:+ s +:+ ".yml") with ("_src_" +:+ (s +:+ ".yml")).
    rewrite !StrFacts.has_char_app, Hs. reflexivity.
Qed.

Lemma source_path_ends_yml (folder s : string) :
  PyStr.endswith (PosixPath.join folder ("_src_" +:+ s +:+ ".yml")) ".yml" = true.
Proof.
  apply endswith_join_true.
  change ("_src_" +:+ s +:+ ".yml") with ("_src_" +:+ (s +:+ ".yml")).
  apply endswith_app_true. apply endswith_app_true. reflexivity.
Qed.

Lemma staging_path_ends_sql (folder s t : string) :
  PyStr.endswith (staging_path folder s t) ".sql" = true.
Proof.
  unfold staging_path. apply endswith_join_true.
  change ("stg_" +:+ s +:+ "__" +:+ t +:+ ".sql")
    with ("stg_" +:+ (s +:+ ("__" +:+ (t +:+ ".sql")))).
  do 4 apply endswith_app_true. reflexivity.
Qed.

End NameFacts.

(** ** Parent directories *)

Module DirnameFacts.

Lemma rfind_absent (c : ascii) (n : string) (i last : Z) :
  PyStr.has_char n c = false -> PyStr.rfind_char_from c n i last = last.
Proof.
  revert i last. induction n as [|a n IH]; intros i last H; [reflexivity|].
  simpl in H. apply orb_false_iff in H as [H1 H2]. simpl. rewrite H1. apply IH. exact H2.
Qed.

Lemma rfind_last (c : ascii) (x n : string) (i last : Z) :
  PyStr.has_char n c = false ->
  PyStr.rfind_char_from c (x +:+ String c n) i last = i + Z.of_nat (String.length x).
Proof.
  intros Hn. revert i last. induction x as [|a x IH]; intros i last.
  - rewrite StrFacts.app_nil_l. simpl. rewrite Ascii.eqb_refl, rfind_absent by exact Hn.
    lia.
  - rewrite StrFacts.app_cons. simpl PyStr.rfind_char_from. rewrite IH.
    simpl String.length. lia.
Qed.

Lemma rfind_lower (c : ascii) (s : string) (i last : Z) :
  last < i -> last <= PyStr.rfind_char_from c s i last.
Proof.
  revert i last. induction s as [|a s IH]; intros i last H; [simpl; lia|].
  simpl. destruct (Ascii.eqb a c).
  - specialize (IH (i + 1) i). lia.
  - apply IH. lia.
Qed.

Lemma take_app_sep (x n : string) (c : ascii) :
  PyStr.take (S (String.length x)) (x +:+ String c n) = x +:+ String c "".
Proof.
  induction x as [|a x IH].
  - rewrite !StrFacts.app_nil_l. destruct n; reflexivity.
  - rewrite !StrFacts.app_cons. simpl String.length.
    change (PyStr.take (S (S (String.length x))) (String a (x +:+ String c n)))
      with (String a (PyStr.take (S (String.length x)) (x +:+ String c n))).
    rewrite IH. reflexivity.
Qed.

Lemma all_char_app (x y : string) (c : ascii) :
  PyStr.all_char (x +:+ y) c = PyStr.all_char x c && PyStr.all_char y c.
Proof.
  induction x as [|a x IH]; [reflexivity|].
  rewrite StrFacts.app_cons. simpl. rewrite IH, andb_assoc. reflexivity.
Qed.

Lemma all_char_last (d : string) (c : ascii) :
  d <> "" -> PyStr.all_char d c = true -> PyStr.last_is d c = true.
Proof.
  induction d as [|a d IH]; [congruence|]. intros _ H. simpl in H.
  apply andb_true_iff in H as [H1 H2]. destruct d as [|b d]; [exact H1|].
  apply IH; [discriminate | exact H2].
Qed.

Lemma rstrip_empty (s : string) (c : ascii) :
  PyStr.rstrip_char s c = "" <-> PyStr.all_char s c = true.
Proof.
  induction s as [|a s IH]; [split; reflexivity|]. simpl.
  destruct (PyStr.rstrip_char s c) eqn:E.
  - destruct (Ascii.eqb a c); simpl.
    + split; [intros _; apply IH; reflexivity | reflexivity].
    + split; discriminate.
  - split; [discriminate|]. intros H. apply andb_true_iff in H as [_ H].
    apply IH in H. discriminate.
Qed.

Lemma rstrip_app_sep (x : string) (c : ascii) :
  PyStr.rstrip_char (x +:+ String c "") c = PyStr.rstrip_char x c.
Proof.
  induction x as [|a x IH].
  - simpl. rewrite Ascii.eqb_refl. reflexivity.
  - rewrite StrFacts.app_cons. simpl. rewrite IH. reflexivity.
Qed.

Lemma rstrip_id (x : string) (c : ascii) :
  PyStr.last_is x c = false -> PyStr.rstrip_char x c = x.
Proof.
  induction x as [|a x IH]; [reflexivity|]. intros H.
  destruct x as [|b x].
  - simpl in *. rewrite H. reflexivity.
  - change (PyStr.last_is (String a (String b x)) c) with (PyStr.last_is (String b x) c) in H.
    simpl PyStr.rstrip_char at 1.
    change (match PyStr.rstrip_char (String b x) c with
            | "" => if Ascii.eqb a c then "" else String a ""
            | String a0 s => String a (String a0 s)
            end = String a (String b x)).
    rewrite (IH H). reflexivity.
Qed.

Lemma rstrip_last (s : string) (c : ascii) :
  PyStr.last_is (PyStr.rstrip_char s c) c = false.
Proof.
  induction s as [|a s IH]; [reflexivity|]. simpl.
  destruct (PyStr.rstrip_char s c) as [|b r] eqn:E.
  - destruct (Ascii.eqb a c) eqn:Ea; [reflexivity|]. simpl. exact Ea.
  - exact IH.
Qed.

Lemma dirname_app_sep (x n : string) :
  PyStr.has_char n "/" = false ->
  PosixPath.dirname (x +:+ String "/" n)
  = if PyStr.all_char x "/" then x +:+ "/" else PyStr.rstrip_char x "/".
Proof.
  intros Hn. unfold PosixPath.dirname, PyStr.rfind_char.
  rewrite (rfind_last "/" x n 0 (-1) Hn).
  replace (Z.to_nat (0 + Z.of_nat (String.length x) + 1)) with (S (String.length x)) by lia.
  rewrite take_app_sep, all_char_app. simpl (PyStr.all_char "/" "/"). rewrite andb_true_r.
  assert (Hne : String.eqb (x +:+ "/") "" = false).
  { apply String.eqb_neq. apply PathFacts.app_nonempty_r. discriminate. }
  rewrite Hne. simpl negb at 1. rewrite andb_true_l.
  destruct (PyStr.all_char x "/"); [reflexivity|]. simpl negb. cbv iota.
  apply rstrip_app_sep.
Qed.

Lemma dir_like_inv (d : string) :
  dir_like d = true ->
  d <> ""
  /\ (PyStr.all_char d "/" = true /\ PyStr.endswith d "/" = true
      \/ PyStr.all_char d "/" = false /\ PyStr.endswith d "/" = false).
Proof.
  unfold dir_like. intros H. apply andb_true_iff in H as [H1 H2].
  apply negb_true_iff, String.eqb_neq in H1. split; [exact H1|].
  rewrite PathFacts.endswith_char.
  destruct (PyStr.all_char d "/") eqn:Ea.
  - left. split; [reflexivity|]. apply all_char_last; assumption.
  - right. split; [reflexivity|]. simpl in H2. apply negb_true_iff in H2. exact H2.
Qed.

(** [join] under a directory and a name without separator. *)
Lemma join_name (d n : string) :
  dir_like d = true -> PyStr.has_char n "/" = false ->
  PosixPath.join d n
  = if PyStr.all_char d "/" then d +:+ n else d +:+ "/" +:+ n.
Proof.
  intros Hd Hn. destruct (dir_like_inv d Hd) as [Hne [[Ha He] | [Ha He]]]; rewrite Ha.
  - unfold PosixPath.join. rewrite (NameFacts.no_sep_relative n Hn), He, orb_true_r.
    reflexivity.
  - apply PathFacts.join_relative; [exact Hne | exact He |].
    apply NameFacts.no_sep_relative. exact Hn.
Qed.

(** The parent of [d/n] is [d]. *)
Lemma dirname_join (d n : string) :
  dir_like d = true -> PyStr.has_char n "/" = false ->
  PosixPath.dirname (PosixPath.join d n) = d.
Proof.
  intros Hd Hn. rewrite (join_name d n Hd Hn).
  destruct (dir_like_inv d Hd) as [Hne [[Ha He] | [Ha He]]]; rewrite Ha.
  - rewrite PathFacts.endswith_char in He.
    destruct (NameFacts.last_is_split _ _ He) as [d' ->].
    rewrite StrFacts.app_assoc, StrFacts.app_cons, StrFacts.app_nil_l.
    rewrite (dirname_app_sep d' n Hn).
    rewrite all_char_app in Ha. apply andb_true_iff in Ha as [Ha _]. rewrite Ha.
    reflexivity.
  - rewrite StrFacts.app_cons, StrFacts.app_nil_l, (dirname_app_sep d n Hn), Ha.
    apply rstrip_id. rewrite <- PathFacts.endswith_char. exact He.
Qed.

End DirnameFacts.

Module ChainFacts.

Lemma absolute_cons (p : string) :
  PyStr.startswith p "/" = true -> exists q, p = String "/" q.
Proof.
  unfold PyStr.startswith. intros H. apply StrFacts.prefix_true in H as [q ->].
  exists q. reflexivity.
Qed.

(** The head [dirname] cuts off an absolute path, and what it makes of
    it. *)
Lemma dirname_absolute_shape (q : string) :
  exists h,
    PosixPath.dirname (String "/" q)
    = if negb (PyStr.all_char (String "/" h) "/")
      then PyStr.rstrip_char (String "/" h) "/" else String "/" h.
Proof.
  unfold PosixPath.dirname, PyStr.rfind_char. simpl PyStr.rfind_char_from.
  change (0 + 1) with 1.
  pose proof (rfind_lower := DirnameFacts.rfind_lower "/" q 1 0 ltac:(lia)).
  destruct (Z.to_nat (PyStr.rfind_char_from "/" q 1 0 + 1)) as [|k] eqn:Ek; [lia|].
  exists (PyStr.take k q).
  change (PyStr.take (S k) (String "/" q)) with (String "/" (PyStr.take k q)).
  reflexivity.
Qed.

Lemma startswith_sep (h : string) : PyStr.startswith (String "/" h) "/" = true.
Proof.
  unfold PyStr.startswith. rewrite StrFacts.prefix_cons, StrFacts.prefix_nil. reflexivity.
Qed.

Lemma dirname_absolute (p : string) :
  PyStr.startswith p "/" = true -> PyStr.startswith (PosixPath.dirname p) "/" = true.
Proof.
  intros H. destruct (absolute_cons p H) as [q ->].
  destruct (dirname_absolute_shape q) as [h ->].
  destruct (PyStr.all_char (String "/" h) "/") eqn:Ea; simpl negb; cbv iota;
    [apply startswith_sep|].
  simpl in Ea. simpl PyStr.rstrip_char.
  destruct (PyStr.rstrip_char h "/") eqn:Er; [|apply startswith_sep].
  apply DirnameFacts.rstrip_empty in Er. rewrite Er in Ea. discriminate.
Qed.

Lemma dirname_dir_like (p : string) :
  PyStr.startswith p "/" = true -> dir_like (PosixPath.dirname p) = true.
Proof.
  intros H. pose proof (dirname_absolute p H) as Habs.
  destruct (absolute_cons p H) as [q ->].
  destruct (dirname_absolute_shape q) as [h E]. rewrite E in *. clear E.
  unfold dir_like.
  destruct (PyStr.all_char (String "/" h) "/") eqn:Ea.
  - change (negb true) with false in *. cbv iota. rewrite Ea. reflexivity.
  - change (negb false) with true in *. cbv iota in Habs |- *.
    pose proof (DirnameFacts.rstrip_last (String "/" h) "/") as Hl.
    destruct (PyStr.rstrip_char (String "/" h) "/") as [|a r]; [discriminate|].
    rewrite Hl. simpl. apply orb_true_r.
Qed.

(** Every member of the chain of parents lies in a closed set of
    directories that holds the first parent. *)
Lemma parents_loop_closed (ds : gset string) (fuel : nat) (x k : string) :
  dirs_closed ds -> PosixPath.dirname x ∈ ds ->
  In k (PosixPath.parents_loop fuel x) -> k ∈ ds.
Proof.
  intros Hc. revert x. induction fuel as [|fuel IH]; intros x Hx Hk; [contradiction|].
  simpl in Hk. destruct (_ || _); [contradiction|].
  destruct Hk as [<- | Hk]; [exact Hx|].
  apply (IH (PosixPath.dirname x)); [apply Hc; exact Hx | exact Hk].
Qed.

Lemma parents_loop_first (fuel : nat) (x k : string) :
  In k (PosixPath.parents_loop fuel x) ->
  k = PosixPath.dirname x
  \/ exists fuel', In k (PosixPath.parents_loop fuel' (PosixPath.dirname x)).
Proof.
  destruct fuel as [|fuel]; [contradiction|]. simpl.
  destruct (_ || _); [contradiction|].
  intros [<- | Hk]; [left; reflexivity | right; eauto].
Qed.

Lemma startswith_join (d x : string) :
  PyStr.startswith d "/" = true -> PyStr.startswith (PosixPath.join d x) "/" = true.
Proof.
  intros Hd. unfold PosixPath.join.
  destruct (PyStr.startswith x "/") eqn:Hx; [exact Hx|].
  assert (Hne : d <> "") by (destruct d; [discriminate | congruence]).
  destruct (_ || _); rewrite DirFacts.startswith_app by exact Hne; exact Hd.
Qed.

Lemma last_is_name (x n : string) :
  n <> "" -> PyStr.has_char n "/" = false -> PyStr.last_is (x +:+ n) "/" = false.
Proof.
  intros Hne Hn. rewrite PathFacts.last_is_app by exact Hne.
  clear Hne. induction n as [|a n IH]; [reflexivity|].
  simpl in Hn. apply orb_false_iff in Hn as [H1 H2].
  destruct n as [|b n]; [exact H1|]. apply IH. exact H2.
Qed.

Lemma dir_like_join (d n : string) :
  dir_like d = true -> n <> "" -> PyStr.has_char n "/" = false ->
  dir_like (PosixPath.join d n) = true.
Proof.
  intros Hd Hne Hn. rewrite (DirnameFacts.join_name d n Hd Hn).
  unfold dir_like.
  assert (E : forall x, String.eqb (x +:+ n) "" = false).
  { intros x. apply String.eqb_neq. apply PathFacts.app_nonempty_r. exact Hne. }
  destruct (PyStr.all_char d "/").
  - rewrite E, last_is_name by assumption. simpl. apply orb_true_r.
  - rewrite <- StrFacts.app_assoc, E, last_is_name by assumption. simpl.
    apply orb_true_r.
Qed.

(** [models/<schema>] under a directory is the schema's folder under its
    [models]. *)
Lemma join_models (c s : string) :
  dir_like c = true -> PyStr.has_char s "/" = false ->
  PosixPath.join c ("models/" +:+ s) = PosixPath.join (PosixPath.join c "models") s.
Proof.
  intros Hc Hs.
  pose proof (dir_like_join c "models" Hc ltac:(discriminate) eq_refl) as HX.
  destruct (DirnameFacts.dir_like_inv _ HX) as [HXne [[Ha _] | [_ HXe]]].
  { exfalso. rewrite (DirnameFacts.join_name c "models" Hc eq_refl) in Ha.
    destruct (PyStr.all_char c "/");
      rewrite ?DirnameFacts.all_char_app in Ha; simpl in Ha;
      rewrite ?andb_false_r in Ha; discriminate. }
  rewrite (PathFacts.join_relative _ s HXne HXe (NameFacts.no_sep_relative s Hs)).
  rewrite (DirnameFacts.join_name c "models" Hc eq_refl).
  destruct (DirnameFacts.dir_like_inv c Hc) as [Hne [[Ha He] | [Ha He]]]; rewrite Ha.
  - unfold PosixPath.join.
    change (PyStr.startswith ("models/" +:+ s) "/") with false.
    rewrite He, orb_true_r. rewrite !StrFacts.app_assoc. reflexivity.
  - rewrite PathFacts.join_relative by (assumption || reflexivity).
    rewrite !StrFacts.app_assoc. reflexivity.
Qed.

(** Making the folder of a plain schema under the [models] of an existing
    directory creates nothing called [dbt_project.yml]. *)
Lemma folder_is_fresh (ds : gset string) (d s k : string) :
  dirs_closed ds -> d ∈ ds -> dir_like d = true -> schema_ok s = true ->
  let a := PosixPath.join (PosixPath.join d "models") s in
  k = a \/ In k (PosixPath.parents a) ->
  PosixPath.basename k = descriptor -> k ∈ ds.
Proof.
  intros Hc Hd Hlike Hs a Hk Hb.
  unfold schema_ok in Hs. apply andb_true_iff in Hs as [Hs1 Hs2].
  apply negb_true_iff in Hs1. apply negb_true_iff, String.eqb_neq in Hs2.
  pose proof (dir_like_join d "models" Hlike ltac:(discriminate) eq_refl) as HX.
  assert (Hda : PosixPath.dirname a = PosixPath.join d "models")
    by (apply DirnameFacts.dirname_join; assumption).
  assert (HdX : PosixPath.dirname (PosixPath.join d "models") = d)
    by (apply DirnameFacts.dirname_join; [assumption | reflexivity]).
  destruct Hk as [-> | Hk].
  - exfalso. unfold a in Hb.
    rewrite NameFacts.basename_join, NameFacts.basename_no_sep in Hb by exact Hs1.
    contradiction.
  - apply parents_loop_first in Hk as [-> | [fuel' Hk]].
    + exfalso. rewrite Hda, NameFacts.basename_join in Hb. discriminate.
    + rewrite Hda in Hk.
      apply (parents_loop_closed ds fuel' (PosixPath.join d "models") k Hc); [|exact Hk].
      rewrite HdX. exact Hd.
Qed.

End ChainFacts.

(** ** What each part of the pipeline leaves untouched *)

Module Frame.

Lemma still_refl (w : world) : still w w.
Proof. repeat split. Qed.

Lemma still_trans (a b c : world) : still a b -> still b c -> still a c.
Proof.
  intros (F1 & D1 & C1 & G1) (F2 & D2 & C2 & G2).
  repeat split; congruence.
Qed.

Lemma calm_refl (w : world) : calm w w.
Proof. repeat split; auto. Qed.

Lemma calm_trans (a b c : world) : calm a b -> calm b c -> calm a c.
Proof.
  intros (F1 & D1 & C1 & G1) (F2 & D2 & C2 & G2).
  repeat split; try congruence. auto.
Qed.

Lemma still_calm (w w' : world) : still w w' -> calm w w'.
Proof. intros (F & D & C & G). repeat split; try assumption. intros k. rewrite D. auto. Qed.

Lemma still_add_events (w : world) (es : list event) :
  generation_commands es = [] -> still w (add_events w es).
Proof.
  intros H. repeat split. unfold add_events. simpl.
  rewrite WriteFacts.generation_commands_app, H, app_nil_r. reflexivity.
Qed.

Lemma still_emit (e : event) :
  generation_commands [e] = [] -> preserves still (emit e).
Proof. intros H w. apply still_add_events. exact H. Qed.

Lemma still_log (msg : string) : preserves still (logging_info msg).
Proof. apply still_emit. reflexivity. Qed.

Lemma still_read_file (p : string) : preserves still (OS.read_file p).
Proof. intros w. rewrite Hoare.read_file_world. apply still_add_events. reflexivity. Qed.

Lemma still_run_argv (subprocess : cmdline -> string -> world -> Z * string)
    (args : list string) (d : string) :
  preserves still (subprocess_run subprocess (Argv args) d).
Proof.
  intros w. rewrite Hoare.subprocess_run_world. apply still_add_events. reflexivity.
Qed.

Lemma still_pure {A} (f : world -> A) : preserves still (fun w => (Ok (f w), w)).
Proof. intros w. apply still_refl. Qed.

Lemma still_safe_load (yaml_safe_load : string -> option yaml) (text : string) :
  preserves still (safe_load yaml_safe_load text).
Proof.
  unfold safe_load. destruct (yaml_safe_load text); intros w; apply still_refl.
Qed.

Lemma calm_makedirs (p : string) : preserves calm (OS.makedirs p).
Proof.
  intros w. destruct (Hoare.makedirs_world p w) as [-> | ->].
  - apply still_calm, still_add_events. reflexivity.
  - repeat split.
    + intros k Hk. simpl. set_solver.
    + simpl. rewrite WriteFacts.generation_commands_app, app_nil_r. reflexivity.
Qed.

Local Ltac still_bind := apply (Hoare.preserves_bind still still_trans).
Local Ltac still_done :=
  first [ apply (Hoare.preserves_ret still still_refl)
        | apply (Hoare.preserves_raise still still_refl)
        | apply (Hoare.preserves_lift still still_refl) ].

Lemma still_fetch_loop (fuel : nat) (p root : string) :
  preserves still (fetch_loop fuel p root).
Proof.
  revert p. induction fuel as [|fuel IH]; intros p; simpl;
    destruct (String.eqb p root); try still_done.
  still_bind; [apply (still_pure (fun w => OS.exists_ w _))|].
  intros [|]; [|apply IH].
  still_bind; [apply still_log | intros _; still_done].
Qed.

Lemma still_fetch (custom : option string) : preserves still (fetch_dbt_project custom).
Proof.
  unfold fetch_dbt_project.
  still_bind; [apply (still_pure cwd)|]. intros c.
  destruct custom as [p|]; [destruct (negb _)|]; try still_done; apply still_fetch_loop.
Qed.

Lemma still_deps (subprocess : cmdline -> string -> world -> Z * string)
    (yaml_safe_load : string -> option yaml) (pd : string) :
  preserves still (run_dbt_deps subprocess yaml_safe_load pd).
Proof.
  unfold run_dbt_deps.
  still_bind; [apply (still_pure (fun w => OS.isfile w _))|]. intros present.
  destruct (negb present); [still_done|].
  still_bind; [apply still_read_file|]. intros text.
  still_bind; [apply still_safe_load|]. intros loaded.
  still_bind; [still_done|]. intros packages.
  still_bind; [still_done|]. intros entries.
  still_bind; [still_done|]. intros package_list.
  destruct (negb _); [still_done|].
  still_bind; [apply still_log|]. intros _.
  still_bind; [apply still_run_argv|]. intros _. still_done.
Qed.

Lemma still_scan (yaml_safe_load : string -> option yaml) (plan : list source_mapping) :
  preserves still (src_yml_scan yaml_safe_load plan).
Proof.
  unfold src_yml_scan.
  still_bind; [|intros per_mapping; still_done].
  apply (Hoare.preserves_for_collect still still_refl still_trans). intros mapping _.
  apply (Hoare.preserves_for_collect still still_refl still_trans). intros [s d] _.
  still_bind; [apply still_read_file|]. intros text.
  still_bind; [apply still_safe_load|]. intros loaded.
  still_bind; [still_done|]. intros tn. still_done.
Qed.

Local Ltac calm_bind := apply (Hoare.preserves_bind calm calm_trans).
Local Ltac calm_done :=
  first [ apply (Hoare.preserves_ret calm calm_refl)
        | apply (Hoare.preserves_raise calm calm_refl) ].

Lemma calm_log (msg : string) : preserves calm (logging_info msg).
Proof. intros w. apply still_calm, still_log. Qed.

Lemma calm_source_cmd_generator (db : string) (schemas : list string) (gen : bool)
    (root : string) :
  preserves calm (source_cmd_generator db schemas gen root).
Proof.
  unfold source_cmd_generator.
  apply (Hoare.preserves_for_collect calm calm_refl calm_trans). intros s _.
  calm_bind; [apply calm_makedirs|]. intros _.
  calm_bind; [apply calm_log|]. intros _. calm_done.
Qed.

Lemma calm_all_base (m : list source_mapping) :
  preserves calm (all_base_commands_generator m).
Proof.
  unfold all_base_commands_generator.
  calm_bind; [|intros per_mapping; calm_done].
  apply (Hoare.preserves_for_collect calm calm_refl calm_trans). intros mapping _.
  apply (Hoare.preserves_for_collect calm calm_refl calm_trans). intros [s d] _.
  calm_bind; [apply calm_log|]. intros _.
  destruct (tables d) as [tms|]; [|calm_done].
  calm_bind; [|intros cmds; calm_done].
  unfold base_command_generator.
  apply (Hoare.preserves_for_collect calm calm_refl calm_trans). intros tm _.
  apply (Hoare.preserves_for_collect calm calm_refl calm_trans). intros [t td] _.
  calm_bind; [apply calm_makedirs|]. intros _. calm_done.
Qed.

End Frame.

(** ** The Executor over a whole plan *)

Module RunFacts.
Section WithProcess.

Variable subprocess : cmdline -> string -> world -> Z * string.

Lemma touches_refl (c : string) (K : string -> Prop) (w : world) : touches c K w w.
Proof. intros Hc. repeat split; auto. Qed.

Lemma touches_trans (c : string) (K : string -> Prop) (x y z : world) :
  touches c K x y -> touches c K y z -> touches c K x z.
Proof.
  intros H1 H2 Hc. destruct (H1 Hc) as (C1 & D1 & M1 & F1).
  destruct (H2 C1) as (C2 & D2 & M2 & F2).
  repeat split; try congruence.
  - auto.
  - intros k Hk. rewrite (F2 k Hk). apply F1. exact Hk.
Qed.

Lemma touches_add_events (c : string) (K : string -> Prop) (w : world) (es : list event) :
  touches c K w (add_events w es).
Proof. intros Hc. repeat split; auto. Qed.

Lemma write_file_world (p : string) (mode : open_mode) (content : string) (w : world) :
  snd (OS.write_file p mode content w) = add_events w [EOpen p mode]
  \/ exists v,
       snd (OS.write_file p mode content w)
       = World (<[OS.abspath w p := v]> (files w)) (dirs w) (cwd w)
           (trace w ++ [EOpen p mode])
       /\ fst (OS.write_file p mode content w) = Ok tt.
Proof.
  unfold OS.write_file, bind, emit. cbv beta iota.
  destruct (bool_decide _); [left; reflexivity|].
  destruct (negb _); [left; reflexivity|].
  right. eexists. split; reflexivity.
Qed.

Lemma write_file_ok_inv (p : string) (mode : open_mode) (content : string) (w w' : world) :
  OS.write_file p mode content w = (Ok tt, w') ->
  cwd w' = cwd w /\ is_Some (files w' !! OS.abspath w p).
Proof.
  unfold OS.write_file, bind, emit. cbv beta iota.
  destruct (bool_decide _); [discriminate|].
  destruct (negb _); [discriminate|].
  intros H. injection H as <-. split; [reflexivity|]. simpl.
  change (OS.abspath (World (files w) (dirs w) (cwd w) (trace w ++ [EOpen p mode])) p)
    with (OS.abspath w p).
  rewrite lookup_insert_eq. eauto.
Qed.

Lemma touches_write_file (c : string) (K : string -> Prop) (p : string) (mode : open_mode)
    (content : string) :
  K (PosixPath.join c p) -> preserves (touches c K) (OS.write_file p mode content).
Proof.
  intros HK w. destruct (write_file_world p mode content w) as [-> | (v & -> & _)].
  - apply touches_add_events.
  - intros Hc. simpl. repeat split; try assumption.
    + intros k [x Hx]. destruct (decide (OS.abspath w p = k)) as [<- | Hne].
      * rewrite lookup_insert_eq. eauto.
      * rewrite lookup_insert_ne by exact Hne. eauto.
    + intros k Hk. apply lookup_insert_ne. intros <-. apply Hk.
      unfold OS.abspath. rewrite Hc. exact HK.
Qed.

Lemma preserves_ext {A} (R : world -> world -> Prop) (c c' : M A) :
  (forall w, c w = c' w) -> preserves R c' -> preserves R c.
Proof. intros H Hc w. rewrite H. apply Hc. Qed.

(** One entry changes at most the file at its destination. *)
Lemma touches_execute (c : string) (K : string -> Prop) (if_exists pd : string)
    (e : plan_entry) :
  K (PosixPath.join c (destination_of e)) ->
  preserves (touches c K) (execute subprocess if_exists pd e).
Proof.
  intros HK.
  apply (preserves_ext _ _ _ (ExecFacts.execute_shape subprocess if_exists pd e)).
  unfold execute_entry.
  apply (Hoare.preserves_bind _ (touches_trans c K)).
  { intros w. rewrite ExecFacts.skip_existing_eq. apply touches_refl. }
  intros [|].
  { intros w. apply touches_add_events. }
  apply (Hoare.preserves_bind _ (touches_trans c K)).
  { intros w. apply touches_add_events. }
  intros _. destruct (command_of e) as [cmd|].
  2: { apply (Hoare.preserves_raise _ (touches_refl c K)). }
  apply (Hoare.preserves_bind _ (touches_trans c K)).
  { intros w. rewrite Hoare.subprocess_run_world. apply touches_add_events. }
  intros out.
  apply (Hoare.preserves_bind _ (touches_trans c K)).
  { intros w. apply touches_add_events. }
  intros _. apply touches_write_file. exact HK.
Qed.

Lemma touches_run (c : string) (K : string -> Prop) (if_exists pd : string)
    (entries : list plan_entry) :
  (forall e, In e entries -> K (PosixPath.join c (destination_of e))) ->
  preserves (touches c K) (for_each entries (execute subprocess if_exists pd)).
Proof.
  intros HK.
  apply (Hoare.preserves_for_each _ (touches_refl c K) (touches_trans c K)).
  intros e He. apply touches_execute. apply HK. exact He.
Qed.

(** An entry that was executed without error has its destination file. *)
Lemma execute_ok_file (if_exists pd : string) (e : plan_entry) (w w' : world) :
  execute subprocess if_exists pd e w = (Ok tt, w') ->
  is_Some (files w' !! OS.abspath w (destination_of e)).
Proof.
  intros H. destruct (skipped if_exists w e) eqn:Hk.
  - rewrite (ExecFacts.execute_skipped subprocess if_exists pd e w Hk) in H.
    injection H as <-. unfold skipped in Hk. apply andb_true_iff in Hk as [_ Hk].
    unfold OS.isfile in Hk. apply bool_decide_eq_true in Hk. exact Hk.
  - rewrite ExecFacts.execute_shape in H.
    destruct (command_of e) as [cmd|] eqn:Hc.
    + rewrite (ExecFacts.execute_entry_run subprocess _ _ cmd _ _ _ _ _ _ Hk) in H.
      cbv zeta in H. destruct (fst _ =? 0); [|discriminate].
      apply write_file_ok_inv in H as [_ H]. exact H.
    + unfold execute_entry in H. fold (skipped if_exists w e) in Hk.
      rewrite (ExecFacts.bind_ok _ _ _ _ _ (ExecFacts.skip_existing_eq _ _ _)) in H.
      unfold skipped in Hk. rewrite Hk in H. discriminate.
Qed.

(** After a run without error every entry has its destination file. *)
Lemma run_ok_files (if_exists pd : string) (entries : list plan_entry) (w w' : world) :
  for_each entries (execute subprocess if_exists pd) w = (Ok tt, w') ->
  forall e, In e entries -> is_Some (files w' !! PosixPath.join (cwd w) (destination_of e)).
Proof.
  revert w. induction entries as [|x entries IH]; intros w H e He; [contradiction|].
  simpl in H. apply Hoare.bind_ok_inv in H as ([] & w1 & Hx & Hrest).
  pose proof (touches_execute (cwd w) (fun _ => True) if_exists pd x I w eq_refl) as Hx'.
  rewrite Hx in Hx'. destruct Hx' as (C1 & _ & _ & _). simpl in C1.
  destruct He as [<- | He].
  - pose proof (touches_run (cwd w) (fun _ => True) if_exists pd entries (fun _ _ => I)
                  w1 C1) as Hr.
    rewrite Hrest in Hr. destruct Hr as (_ & _ & Hmono & _).
    apply Hmono. exact (execute_ok_file _ _ _ _ _ Hx).
  - rewrite <- C1. exact (IH w1 Hrest e He).
Qed.

(** Under skip a plan whose destinations all exist is passed over. *)
Lemma run_all_skipped (if_exists pd : string) (entries : list plan_entry) (w : world) :
  (forall e, In e entries -> skipped if_exists w e = true) ->
  for_each entries (execute subprocess if_exists pd) w
  = (Ok tt, add_events w (skip_events entries)).
Proof.
  revert w. induction entries as [|x entries IH]; intros w H.
  - simpl. rewrite WriteFacts.add_events_nil. reflexivity.
  - simpl for_each.
    rewrite (ExecFacts.bind_ok _ _ _ _ _
               (ExecFacts.execute_skipped subprocess if_exists pd x w
                  (H x (or_introl eq_refl)))).
    rewrite IH.
    + rewrite ExecFacts.add_events_app. reflexivity.
    + intros e He. exact (H e (or_intror He)).
Qed.

End WithProcess.
End RunFacts.

(** ** Nothing called [dbt_project.yml] appears *)

Module GrowFacts.

Lemma grows_refl (w : world) : grows w w.
Proof. repeat split; auto. Qed.

Lemma grows_trans (a b c : world) : grows a b -> grows b c -> grows a c.
Proof.
  intros (C1 & D1 & F1 & N1) (C2 & D2 & F2 & N2).
  split; [congruence|]. split; [auto|]. split; [auto|].
  intros k Hb. destruct (N1 k Hb) as [Nd1 Nf1]. destruct (N2 k Hb) as [Nd2 Nf2].
  split; auto.
Qed.

Lemma grows_from_refl (ds : gset string) (c : string) (w : world) : grows_from ds c w w.
Proof. intros _ _. apply grows_refl. Qed.

Lemma grows_from_trans (ds : gset string) (c : string) (x y z : world) :
  grows_from ds c x y -> grows_from ds c y z -> grows_from ds c x z.
Proof.
  intros H1 H2 Hds Hc. pose proof (H1 Hds Hc) as G1.
  apply (grows_trans _ _ _ G1). destruct G1 as (C1 & D1 & _ & _).
  apply H2; [auto | congruence].
Qed.

Lemma still_grows (w w' : world) : still w w' -> grows w w'.
Proof.
  intros (F & D & C & _). split; [exact C|]. rewrite F, D. repeat split; auto.
Qed.

Lemma grows_from_log (ds : gset string) (c msg : string) :
  preserves (grows_from ds c) (logging_info msg).
Proof. intros w _ _. apply still_grows, Frame.still_log. Qed.

(** Making the folder of a plain schema under the [models] of a directory
    that exists. *)
Lemma grows_from_makedirs (ds : gset string) (c p d s : string) :
  dirs_closed ds -> d ∈ ds -> dir_like d = true -> schema_ok s = true ->
  PosixPath.join c p = PosixPath.join (PosixPath.join d "models") s ->
  preserves (grows_from ds c) (OS.makedirs p).
Proof.
  intros Hclosed Hd Hlike Hs Hp w Hds Hc.
  destruct (Hoare.makedirs_world p w) as [-> | ->].
  - apply still_grows, Frame.still_add_events. reflexivity.
  - unfold after_makedirs, OS.abspath. rewrite Hc, Hp.
    split; [simpl; congruence|]. split; [intros k Hk; simpl; set_solver|].
    split; [auto|]. intros k Hb. split; [|auto]. simpl. intros Hk.
    apply elem_of_union in Hk as [Hk | Hk];
      [apply elem_of_union in Hk as [Hk | Hk]; [exact Hk|] |].
    + apply elem_of_singleton in Hk. apply Hds.
      apply (ChainFacts.folder_is_fresh ds d s k Hclosed Hd Hlike Hs); auto.
    + apply elem_of_list_to_set, list_elem_of_In in Hk. apply Hds.
      apply (ChainFacts.folder_is_fresh ds d s k Hclosed Hd Hlike Hs); auto.
Qed.

Lemma grows_from_source_cmd_generator (ds : gset string) (c db pd : string)
    (schemas : list string) (gen : bool) :
  dirs_closed ds -> pd ∈ ds -> dir_like pd = true -> PyStr.startswith pd "/" = true ->
  forallb schema_ok schemas = true ->
  preserves (grows_from ds c)
    (source_cmd_generator db schemas gen (PosixPath.join pd "models")).
Proof.
  intros Hclosed Hpd Hlike Habs Hs. unfold source_cmd_generator.
  apply (Hoare.preserves_for_collect _ (grows_from_refl ds c) (grows_from_trans ds c)).
  intros s Hin.
  apply (Hoare.preserves_bind _ (grows_from_trans ds c)).
  - apply (grows_from_makedirs ds c _ pd s Hclosed Hpd Hlike).
    + rewrite forallb_forall in Hs. apply Hs. exact Hin.
    + apply PathFacts.join_absolute. do 2 apply ChainFacts.startswith_join. exact Habs.
  - intros _. apply (Hoare.preserves_bind _ (grows_from_trans ds c)).
    + apply grows_from_log.
    + intros _. apply (Hoare.preserves_ret _ (grows_from_refl ds c)).
Qed.

Lemma grows_from_all_base (ds : gset string) (c : string) (m : list source_mapping) :
  dirs_closed ds -> c ∈ ds -> dir_like c = true ->
  (forall s d, In (s, d) (concat m) -> schema_ok s = true) ->
  preserves (grows_from ds c) (all_base_commands_generator m).
Proof.
  intros Hclosed Hc Hlike Hs. unfold all_base_commands_generator.
  apply (Hoare.preserves_bind _ (grows_from_trans ds c)).
  2: { intros a. apply (Hoare.preserves_ret _ (grows_from_refl ds c)). }
  apply (Hoare.preserves_for_collect _ (grows_from_refl ds c) (grows_from_trans ds c)).
  intros mapping Hmapping.
  apply (Hoare.preserves_for_collect _ (grows_from_refl ds c) (grows_from_trans ds c)).
  intros [s d] Hitem.
  assert (Hok : schema_ok s = true).
  { apply (Hs s d). apply in_concat. eauto. }
  apply (Hoare.preserves_bind _ (grows_from_trans ds c)); [apply grows_from_log|].
  intros _. destruct (tables d) as [tms|].
  2: { apply (Hoare.preserves_raise _ (grows_from_refl ds c)). }
  apply (Hoare.preserves_bind _ (grows_from_trans ds c)).
  2: { intros a. apply (Hoare.preserves_ret _ (grows_from_refl ds c)). }
  unfold base_command_generator.
  apply (Hoare.preserves_for_collect _ (grows_from_refl ds c) (grows_from_trans ds c)).
  intros tm _.
  apply (Hoare.preserves_for_collect _ (grows_from_refl ds c) (grows_from_trans ds c)).
  intros [t td] _.
  apply (Hoare.preserves_bind _ (grows_from_trans ds c)).
  2: { intros a. apply (Hoare.preserves_ret _ (grows_from_refl ds c)). }
  apply (grows_from_makedirs ds c _ c s Hclosed Hc Hlike Hok).
  apply ChainFacts.join_models; [exact Hlike|].
  unfold schema_ok in Hok. apply andb_true_iff in Hok as [Hok _].
  apply negb_true_iff in Hok. exact Hok.
Qed.

(** Writing only files not called [dbt_project.yml]. *)
Lemma touches_grows (c : string) (K : string -> Prop) (w w' : world) :
  touches c K w w' -> cwd w = c ->
  (forall k, K k -> PosixPath.basename k <> descriptor) -> grows w w'.
Proof.
  intros H Hc HK. destruct (H Hc) as (C & D & Mono & Frame).
  split; [congruence|]. split; [rewrite D; auto|]. split; [exact Mono|].
  intros k Hb. split; [rewrite D; auto|].
  rewrite Frame; [auto|]. intros Hk. exact (HK k Hk Hb).
Qed.

(** The project descriptor is found in the same places before and
    after. *)
Lemma grows_exists (w w' : world) (d : string) :
  grows w w' ->
  OS.exists_ w' (PosixPath.join d descriptor) = OS.exists_ w (PosixPath.join d descriptor).
Proof.
  intros (C & D & F & N). unfold OS.exists_, OS.isfile, OS.isdir, OS.abspath. rewrite C.
  set (k := PosixPath.join (cwd w) (PosixPath.join d descriptor)).
  assert (Hb : PosixPath.basename k = descriptor).
  { unfold k. rewrite !NameFacts.basename_join. reflexivity. }
  destruct (N k Hb) as [Nd Nf].
  f_equal; apply bool_decide_ext; split; auto.
Qed.

End GrowFacts.

(** ** Finding the project and reading the declarations again *)

Module AgainFacts.

Lemma source_cmd_generator_value (db : string) (schemas : list string) (gen : bool)
    (root : string) (w w' : world) (plan : list source_mapping) :
  source_cmd_generator db schemas gen root w = (Ok plan, w') ->
  plan = List.map (source_entry db gen root) schemas.
Proof.
  unfold source_cmd_generator. intros H.
  refine (Hoare.for_collect_value _ _ _ _ _ _ _ H).
  intros s w1 y w2 _ Hbody.
  apply Hoare.bind_ok_inv in Hbody as ([] & w3 & _ & Hbody).
  apply Hoare.bind_ok_inv in Hbody as ([] & w4 & _ & Hbody).
  injection Hbody as <- _. reflexivity.
Qed.

(** A loop that returned from [w] returns the same from any world [v]
    related to [w], when each round does. *)
Lemma for_collect_transfer {A B} (R : world -> world -> Prop) (l : list A) (f : A -> M B) :
  (forall x w v y w', In x l -> R w v -> f x w = (Ok y, w') ->
     exists v', f x v = (Ok y, v') /\ R w' v') ->
  forall w v ys w', R w v -> for_collect l f w = (Ok ys, w') ->
    exists v', for_collect l f v = (Ok ys, v') /\ R w' v'.
Proof.
  induction l as [|x l IH]; intros H w v ys w' HR Hrun.
  - simpl in *. injection Hrun as <- <-. exists v. auto.
  - simpl in Hrun.
    apply Hoare.bind_ok_inv in Hrun as (y & w1 & Hy & Hrun).
    apply Hoare.bind_ok_inv in Hrun as (ys' & w2 & Hys & Hrun).
    injection Hrun as <- <-.
    destruct (H x w v y w1 (or_introl eq_refl) HR Hy) as (v1 & Hy' & HR1).
    destruct (IH (fun z a b c d Hz => H z a b c d (or_intror Hz)) w1 v1 ys' w2 HR1 Hys)
      as (v2 & Hys' & HR2).
    exists v2. split; [|exact HR2].
    simpl. unfold bind. rewrite Hy', Hys'. reflexivity.
Qed.

Lemma read_file_ok_inv (p text : string) (w w' : world) :
  OS.read_file p w = (Ok text, w') ->
  files w !! OS.abspath w p = Some text /\ w' = add_events w [EOpen p ModeR].
Proof.
  unfold OS.read_file, bind, emit. cbv beta iota.
  change (OS.abspath (World (files w) (dirs w) (cwd w) (trace w ++ [EOpen p ModeR])) p)
    with (OS.abspath w p).
  simpl files. simpl dirs.
  destruct (files w !! OS.abspath w p) as [content|].
  - intros H. injection H as <- <-. auto.
  - destruct (bool_decide _); discriminate.
Qed.

Lemma read_file_eq (p text : string) (w : world) :
  files w !! OS.abspath w p = Some text ->
  OS.read_file p w = (Ok text, add_events w [EOpen p ModeR]).
Proof.
  intros H. unfold OS.read_file, bind, emit. cbv beta iota.
  change (OS.abspath (World (files w) (dirs w) (cwd w) (trace w ++ [EOpen p ModeR])) p)
    with (OS.abspath w p).
  simpl files. rewrite H. reflexivity.
Qed.

Lemma agree_add_events (K : string -> Prop) (w v : world) (a b : list event) :
  agree K w v -> agree K (add_events w a) (add_events v b).
Proof. intros H. exact H. Qed.

(** A scan that returned returns the same from a world whose files agree
    at the destinations of the plan. *)
Lemma scan_transfer (yaml_safe_load : string -> option yaml) (K : string -> Prop)
    (plan m : list source_mapping) (w w' v : world) :
  (forall item, In item (concat plan) ->
     K (PosixPath.join (cwd w) (source_destination_path (snd item)))) ->
  agree K w v ->
  src_yml_scan yaml_safe_load plan w = (Ok m, w') ->
  exists v', src_yml_scan yaml_safe_load plan v = (Ok m, v').
Proof.
  intros HK Hagree H. unfold src_yml_scan in *.
  apply Hoare.bind_ok_inv in H as (per_mapping & w1 & Hper & H).
  injection H as <- <-.
  set (R := fun a b => agree K a b /\ cwd a = cwd w).
  assert (HR : R w v) by (split; [exact Hagree | reflexivity]).
  match type of Hper with
  | for_collect _ ?f _ = _ =>
      destruct (for_collect_transfer R plan f) with (w := w) (v := v)
        (ys := per_mapping) (w' := w1) as (v1 & Hv & _);
        [ | exact HR | exact Hper
          | exists v1;
            etransitivity; [apply (ExecFacts.bind_ok _ _ _ _ _ Hv) | reflexivity] ]
  end.
  intros mapping wa va ys wb Hmapping HRa Hinner.
  refine (for_collect_transfer R mapping _ _ wa va ys wb HRa Hinner).
  intros [s d] wc vc y wd Hitem [[Hcwd Hfiles] Hc] Hbody.
  apply Hoare.bind_ok_inv in Hbody as (text & w2 & Hread & Hbody).
  apply read_file_ok_inv in Hread as [Hlook ->].
  assert (Hlook' : files vc !! OS.abspath vc (source_destination_path d) = Some text).
  { unfold OS.abspath in *. rewrite Hcwd, Hfiles; [exact Hlook|].
    rewrite Hc. apply (HK (s, d)). apply in_concat. eauto. }
  exists (add_events vc [EOpen (source_destination_path d) ModeR]).
  rewrite (ExecFacts.bind_ok _ _ _ _ _ (read_file_eq _ _ _ Hlook')).
  revert Hbody. unfold safe_load, bind, ret, raise, lift.
  destruct (yaml_safe_load text); [|discriminate].
  destruct (table_names_of s (destination_folder d) y0); try discriminate.
  intros E. injection E as <- <-.
  split; [reflexivity | exact (conj (conj Hcwd Hfiles) Hc)].
Qed.

(** The search that found the project finds it again wherever the
    descriptor is found in the same places. *)
Lemma fetch_loop_transfer (fuel : nat) (p root pd : string) (w w' v : world) :
  (forall d, OS.exists_ v (PosixPath.join d descriptor)
             = OS.exists_ w (PosixPath.join d descriptor)) ->
  fetch_loop fuel p root w = (Ok pd, w') ->
  exists v', fetch_loop fuel p root v = (Ok pd, v') /\ still v v'.
Proof.
  intros Hex. revert p. induction fuel as [|fuel IH]; intros p; simpl;
    destruct (String.eqb p root); try discriminate.
  unfold bind, OS.path_exists. fold descriptor. rewrite Hex.
  destruct (OS.exists_ w (PosixPath.join p descriptor)).
  - unfold logging_info, emit, ret. intros H. injection H as <- _.
    eexists. split; [reflexivity|]. apply Frame.still_add_events. reflexivity.
  - apply IH.
Qed.

Lemma fetch_transfer (custom : option string) (pd : string) (w w' v : world) :
  cwd v = cwd w ->
  (forall d, OS.exists_ v (PosixPath.join d descriptor)
             = OS.exists_ w (PosixPath.join d descriptor)) ->
  fetch_dbt_project custom w = (Ok pd, w') ->
  exists v', fetch_dbt_project custom v = (Ok pd, v') /\ still v v'.
Proof.
  intros Hc Hex. unfold fetch_dbt_project, bind, OS.getcwd. rewrite Hc.
  destruct custom as [p|]; [destruct (negb _)|].
  - unfold ret. intros H. injection H as <- _. exists v. split; [reflexivity|].
    apply Frame.still_refl.
  - apply fetch_loop_transfer. exact Hex.
  - apply fetch_loop_transfer. exact Hex.
Qed.

(** The directory the search returns exists, is absolute and is in
    normal form, when it started from such a directory. *)
Lemma fetch_loop_located (fuel : nat) (p root pd : string) (w w' : world) :
  dirs_closed (dirs w) ->
  p ∈ dirs w -> PyStr.startswith p "/" = true -> dir_like p = true ->
  fetch_loop fuel p root w = (Ok pd, w') ->
  pd ∈ dirs w /\ PyStr.startswith pd "/" = true /\ dir_like pd = true.
Proof.
  intros Hclosed. revert p. induction fuel as [|fuel IH]; intros p Hp Habs Hlike; simpl;
    destruct (String.eqb p root); try discriminate.
  unfold bind, OS.path_exists.
  destruct (OS.exists_ w _).
  - unfold logging_info, emit, ret. intros H. injection H as <- _. auto.
  - apply IH.
    + apply Hclosed. exact Hp.
    + apply ChainFacts.dirname_absolute. exact Habs.
    + apply ChainFacts.dirname_dir_like. exact Habs.
Qed.

End AgainFacts.

(** ** Triples *)

Module Triple.

Lemma of_preserves {A} (P : world -> Prop) (c : M A) (Q : A -> Prop)
    (R : world -> world -> Prop) :
  preserves R c -> returns Q c -> triple P c Q R.
Proof.
  intros Hp Hr w _. split; [apply Hp|]. intros a Ha.
  destruct (c w) as [o w'] eqn:E. simpl in Ha. subst o. exact (Hr w a w' E).
Qed.

Lemma returns_any {A} (c : M A) : returns (fun _ => True) c.
Proof. intros w a w' _. exact I. Qed.

Lemma bind_rule {A B} (P : world -> Prop) (R : world -> world -> Prop)
    (c : M A) (k : A -> M B) (Q : A -> Prop) (Q' : B -> Prop) :
  (forall x y z, R x y -> R y z -> R x z) ->
  (forall w w', P w -> R w w' -> P w') ->
  triple P c Q R -> (forall a, Q a -> triple P (k a) Q' R) ->
  triple P (bind c k) Q' R.
Proof.
  intros Htrans Hstable Hc Hk w HP. unfold bind.
  destruct (Hc w HP) as [HR HQ].
  destruct (c w) as [[a| |] w1]; simpl in *; try (split; [exact HR | discriminate]).
  pose proof (Hstable w w1 HP HR) as HP1.
  destruct (Hk a (HQ a eq_refl) w1 HP1) as [HR1 HQ1].
  split; [exact (Htrans _ _ _ HR HR1) | exact HQ1].
Qed.

Lemma weaken {A} (P : world -> Prop) (c : M A) (Q : A -> Prop)
    (R R' : world -> world -> Prop) :
  (forall w w', R w w' -> R' w w') -> triple P c Q R -> triple P c Q R'.
Proof. intros H Hc w HP. destruct (Hc w HP) as [HR HQ]. split; [apply H, HR | exact HQ]. Qed.

Lemma ext {A} (P : world -> Prop) (c c' : M A) (Q : A -> Prop)
    (R : world -> world -> Prop) :
  (forall w, c w = c' w) -> triple P c' Q R -> triple P c Q R.
Proof. intros H Hc w HP. rewrite H. apply Hc. exact HP. Qed.

End Triple.

(** ** The shape of the two plans *)

Module ShapeFacts.

Lemma source_plan_entry (db : string) (gen : bool) (root : string) (schemas : list string)
    (e : plan_entry) :
  In e (plan_entries (SrcMappings (List.map (source_entry db gen root) schemas))) ->
  exists s,
    In s schemas
    /\ destination_of e
       = PosixPath.join (PosixPath.join root s) ("_src_" +:+ s +:+ ".yml").
Proof.
  unfold plan_entries, source_items. intros H.
  apply in_map_iff in H as ([s d] & <- & H).
  apply in_concat in H as (mapping & Hmapping & H).
  apply in_map_iff in Hmapping as (s0 & <- & Hs0).
  destruct H as [E | []]. injection E as <- <-. exists s0. auto.
Qed.

Lemma source_plan_items (db : string) (gen : bool) (root : string) (schemas : list string)
    (item : string * source_data) :
  In item (concat (List.map (source_entry db gen root) schemas)) ->
  In (SourceEntry (fst item) (snd item))
    (plan_entries (SrcMappings (List.map (source_entry db gen root) schemas)))
  /\ In (fst item) schemas.
Proof.
  intros H. split.
  - unfold plan_entries, source_items. apply in_map_iff. exists item. auto.
  - apply in_concat in H as (mapping & Hmapping & H).
    apply in_map_iff in Hmapping as (s0 & <- & Hs0).
    destruct H as [<- | []]. exact Hs0.
Qed.

Lemma scan_returns_shape (yaml_safe_load : string -> option yaml)
    (plan : list source_mapping) :
  returns (scan_shape plan) (src_yml_scan yaml_safe_load plan).
Proof.
  intros w m w' H s d Hin.
  pose proof (ScanFacts.src_yml_scan_value _ _ _ _ _ H) as Hm.
  apply in_concat in Hin as (mapping & Hmapping & Hin).
  destruct (ScanFacts.Forall2_In_r _ _ _ _ Hm Hmapping) as (item & Hitem & names & ->).
  destruct Hin as [E | []]. injection E as <- <-.
  exists item, names. auto.
Qed.

Lemma base_entries_sql (plan m : list source_mapping) (e : plan_entry) :
  scan_shape plan m ->
  In e (plan_entries (BaseMappings (base_plan m))) ->
  PyStr.endswith (destination_of e) ".sql" = true.
Proof.
  intros Hshape He.
  apply BasePlanFacts.base_plan_entry in He as (s & d & t & td & Hin & Ht & ->).
  destruct (Hshape s d Hin) as (item & names & _ & _ & Htables).
  rewrite Htables in Ht. simpl in Ht. unfold manifest in Ht.
  apply in_concat in Ht as (tm & Htm & Ht).
  apply in_map_iff in Htm as (name & <- & _).
  destruct Ht as [E | []]. injection E as <- <-.
  apply NameFacts.staging_path_ends_sql.
Qed.

End ShapeFacts.

(** ** One run of the pipeline *)

Module PipelineFacts.
Section WithTools.

Variable subprocess : cmdline -> string -> world -> Z * string.
Variable yaml_safe_load : string -> option yaml.
Variable db : string.
Variable schemas : list string.
Variable if_exists : string.

Lemma returns_source_plan (pd : string) :
  returns (fun plan => plan = main_plan db schemas pd)
    (source_cmd_generator db schemas true (PosixPath.join pd "models")).
Proof. intros w a w' H. exact (AgainFacts.source_cmd_generator_value _ _ _ _ _ _ _ H). Qed.

Lemma returns_base_plan (m : list source_mapping) :
  returns (fun plan => plan = base_plan m) (all_base_commands_generator m).
Proof.
  intros w a w' H. exact (BasePlanFacts.all_base_commands_generator_value _ _ _ _ H).
Qed.

Lemma bash_run_src (plan : list source_mapping) (pd : string) (w : world) :
  bash_run_and_make_files subprocess "src" (SrcMappings plan) if_exists pd w
  = for_each (plan_entries (SrcMappings plan)) (execute subprocess if_exists pd) w.
Proof. exact (ExecFacts.bash_run_entries subprocess (SrcMappings plan) if_exists pd w). Qed.

Lemma bash_run_base (plan : list base_mapping) (pd : string) (w : world) :
  bash_run_and_make_files subprocess "base" (BaseMappings plan) if_exists pd w
  = for_each (plan_entries (BaseMappings plan)) (execute subprocess if_exists pd) w.
Proof. exact (ExecFacts.bash_run_entries subprocess (BaseMappings plan) if_exists pd w). Qed.

Lemma schema_ok_plain (s : string) : schema_ok s = true -> PyStr.has_char s "/" = false.
Proof.
  unfold schema_ok. intros H. apply andb_true_iff in H as [H _].
  apply negb_true_iff in H. exact H.
Qed.

(** Writing the files of a plan whose destinations are not called
    [dbt_project.yml]. *)
Lemma grows_from_run (ds : gset string) (c pd : string) (entries : list plan_entry) :
  (forall e, In e entries ->
     PosixPath.basename (PosixPath.join c (destination_of e)) <> descriptor) ->
  preserves (grows_from ds c) (for_each entries (execute subprocess if_exists pd)).
Proof.
  intros HK w _ Hc.
  apply (GrowFacts.touches_grows c (dest_keys c entries)); [|exact Hc|].
  - apply RunFacts.touches_run. intros e He. exists e. auto.
  - intros k (e & He & ->). apply HK. exact He.
Qed.

(** In a project found from a well-formed place, nothing called
    [dbt_project.yml] appears during a run. *)
Lemma pipeline_grows (ds : gset string) (c pd : string) :
  dirs_closed ds -> pd ∈ ds -> dir_like pd = true -> PyStr.startswith pd "/" = true ->
  c ∈ ds -> dir_like c = true -> forallb schema_ok schemas = true ->
  preserves (grows_from ds c)
    (pipeline_from subprocess yaml_safe_load db schemas if_exists pd).
Proof.
  intros Hclosed Hpd Hpdlike Hpdabs Hc Hclike Hs.
  set (R := grows_from ds c).
  assert (Htrans : forall x y z, R x y -> R y z -> R x z)
    by apply GrowFacts.grows_from_trans.
  assert (Hstill : forall A (k : M A), preserves still k -> preserves R k).
  { intros A k Hk w _ _. apply GrowFacts.still_grows, Hk. }
  enough (Ht : triple (fun _ => True)
                 (pipeline_from subprocess yaml_safe_load db schemas if_exists pd)
                 (fun _ => True) R).
  { intros w. exact (proj1 (Ht w I)). }
  unfold pipeline_from. cbv zeta.
  apply (Triple.bind_rule _ R _ _ (fun _ => True)); [exact Htrans | auto | |].
  { apply Triple.of_preserves; [|apply Triple.returns_any].
    apply Hstill, Frame.still_deps. }
  intros _ _.
  apply (Triple.bind_rule _ R _ _ (fun plan => plan = main_plan db schemas pd)); [exact Htrans | auto | |].
  { apply Triple.of_preserves; [|apply returns_source_plan].
    apply GrowFacts.grows_from_source_cmd_generator; assumption. }
  intros plan ->.
  apply (Triple.bind_rule _ R _ _ (fun _ => True)); [exact Htrans | auto | |].
  { apply Triple.of_preserves; [|apply Triple.returns_any].
    apply (RunFacts.preserves_ext _ _ _ (bash_run_src (main_plan db schemas pd) pd)).
    apply grows_from_run. intros e He.
    apply ShapeFacts.source_plan_entry in He as (s & Hin & ->).
    rewrite NameFacts.basename_join. apply NameFacts.source_path_basename.
    apply schema_ok_plain. rewrite forallb_forall in Hs. apply Hs. exact Hin. }
  intros _ _.
  apply (Triple.bind_rule _ R _ _ (scan_shape (main_plan db schemas pd))); [exact Htrans | auto | |].
  { apply Triple.of_preserves; [|apply ShapeFacts.scan_returns_shape].
    apply Hstill, Frame.still_scan. }
  intros m Hm.
  apply (Triple.bind_rule _ R _ _ (fun plan => plan = base_plan m));
    [exact Htrans | auto | |].
  { apply Triple.of_preserves; [|apply returns_base_plan].
    apply GrowFacts.grows_from_all_base; try assumption.
    intros s d Hin. destruct (Hm s d Hin) as (item & names & Hitem & -> & _).
    rewrite forallb_forall in Hs. apply Hs.
    exact (proj2 (ShapeFacts.source_plan_items _ _ _ _ _ Hitem)). }
  intros plan ->.
  apply (Triple.bind_rule _ R _ _ (fun _ => True)); [exact Htrans | auto | |].
  { apply Triple.of_preserves; [|apply Triple.returns_any].
    apply (RunFacts.preserves_ext _ _ _ (bash_run_base (base_plan m) pd)).
    apply grows_from_run. intros e He.
    apply NameFacts.sql_not_descriptor, NameFacts.endswith_join_true.
    exact (ShapeFacts.base_entries_sql _ _ _ Hm He). }
  intros _ _.
  apply Triple.of_preserves; [|apply Triple.returns_any].
  apply Hstill, Frame.still_log.
Qed.


Lemma skip_events_quiet (entries : list plan_entry) :
  generation_commands (skip_events entries) = [].
Proof. induction entries; simpl; auto. Qed.

Lemma on_disk_calm (fs : gmap string string) (c : string) (w w' : world) :
  on_disk fs c w -> calm w w' -> on_disk fs c w'.
Proof. intros [F C] (F' & _ & C' & _). split; congruence. Qed.

(** Under skip, a plan whose destinations are all on disk is passed
    over. *)
Lemma idle_run (fs : gmap string string) (c pd : string) (entries : list plan_entry) :
  PyStr.lower if_exists = "skip" ->
  (forall e, In e entries -> is_Some (fs !! PosixPath.join c (destination_of e))) ->
  triple (on_disk fs c) (for_each entries (execute subprocess if_exists pd))
    (fun _ => True) calm.
Proof.
  intros Hskip Hfiles w [HF HC]. split; [|auto].
  rewrite RunFacts.run_all_skipped.
  - apply Frame.still_calm, Frame.still_add_events, skip_events_quiet.
  - intros e He. unfold skipped. rewrite Hskip. simpl.
    unfold OS.isfile, OS.abspath. rewrite HF, HC.
    apply bool_decide_eq_true. apply Hfiles. exact He.
Qed.

(** The second run: from a world whose files hold every destination of
    the first run, and the declarations as the first scan read them, the
    pipeline changes no file and runs no generation command. *)
Lemma pipeline_idle (fs : gmap string string) (c pd : string) (wd we : world)
    (m : list source_mapping) :
  PyStr.lower if_exists = "skip" ->
  (forall e, In e (plan_entries (SrcMappings (main_plan db schemas pd))) ->
     is_Some (fs !! PosixPath.join c (destination_of e))) ->
  src_yml_scan yaml_safe_load (main_plan db schemas pd) wd = (Ok m, we) ->
  cwd wd = c ->
  (forall e, In e (plan_entries (SrcMappings (main_plan db schemas pd))) ->
     fs !! PosixPath.join c (destination_of e)
     = files wd !! PosixPath.join c (destination_of e)) ->
  (forall e, In e (plan_entries (BaseMappings (base_plan m))) ->
     is_Some (fs !! PosixPath.join c (destination_of e))) ->
  triple (on_disk fs c) (pipeline_from subprocess yaml_safe_load db schemas if_exists pd)
    (fun _ => True) calm.
Proof.
  intros Hskip HA Hscan Hcwd HB HC.
  set (P := on_disk fs c).
  assert (Hst : forall w w', P w -> calm w w' -> P w') by apply on_disk_calm.
  assert (Hstill : forall A (k : M A), preserves still k -> preserves calm k).
  { intros A k Hk w. apply Frame.still_calm, Hk. }
  unfold pipeline_from. cbv zeta.
  apply (Triple.bind_rule P calm _ _ (fun _ => True));
    [exact Frame.calm_trans | exact Hst | |].
  { apply Triple.of_preserves; [|apply Triple.returns_any].
    apply Hstill, Frame.still_deps. }
  intros _ _.
  apply (Triple.bind_rule P calm _ _ (fun plan => plan = main_plan db schemas pd));
    [exact Frame.calm_trans | exact Hst | |].
  { apply Triple.of_preserves; [|apply returns_source_plan].
    apply Frame.calm_source_cmd_generator. }
  intros plan ->.
  apply (Triple.bind_rule P calm _ _ (fun _ => True));
    [exact Frame.calm_trans | exact Hst | |].
  { apply (Triple.ext _ _ _ _ _ (bash_run_src (main_plan db schemas pd) pd)).
    apply idle_run; assumption. }
  intros _ _.
  apply (Triple.bind_rule P calm _ _ (fun m' => m' = m));
    [exact Frame.calm_trans | exact Hst | |].
  { intros w [HF HCw]. split; [apply Hstill, Frame.still_scan|].
    intros a Ha.
    destruct (AgainFacts.scan_transfer yaml_safe_load
                (dest_keys c (plan_entries (SrcMappings (main_plan db schemas pd))))
                (main_plan db schemas pd) m wd we w) as [v' Hv'].
    - intros item Hitem. rewrite Hcwd.
      exists (SourceEntry (fst item) (snd item)). split; [|reflexivity].
      exact (proj1 (ShapeFacts.source_plan_items _ _ _ _ _ Hitem)).
    - split; [congruence|]. intros k (e & He & ->). rewrite HF. apply HB. exact He.
    - exact Hscan.
    - rewrite Hv' in Ha. injection Ha as <-. reflexivity. }
  intros m' ->.
  apply (Triple.bind_rule P calm _ _ (fun plan => plan = base_plan m));
    [exact Frame.calm_trans | exact Hst | |].
  { apply Triple.of_preserves; [|apply returns_base_plan]. apply Frame.calm_all_base. }
  intros plan ->.
  apply (Triple.bind_rule P calm _ _ (fun _ => True));
    [exact Frame.calm_trans | exact Hst | |].
  { apply (Triple.ext _ _ _ _ _ (bash_run_base (base_plan m) pd)).
    apply idle_run; assumption. }
  intros _ _.
  apply Triple.of_preserves; [|apply Triple.returns_any].
  apply Hstill, Frame.still_log.
Qed.


Lemma from_preserves {A} (R : world -> world -> Prop) (c : M A) (w w' : world)
    (o : outcome A) :
  preserves R c -> c w = (o, w') -> R w w'.
Proof. intros H E. specialize (H w). rewrite E in H. exact H. Qed.

(** The first run: what a run that came to its end leaves on disk. *)
Lemma pipeline_ok_inv (pd : string) (wa w1 : world) :
  pipeline_from subprocess yaml_safe_load db schemas if_exists pd wa = (Ok tt, w1) ->
  exists wd we m,
    cwd w1 = cwd wa
    /\ (forall e, In e (plan_entries (SrcMappings (main_plan db schemas pd))) ->
         is_Some (files w1 !! PosixPath.join (cwd wa) (destination_of e)))
    /\ src_yml_scan yaml_safe_load (main_plan db schemas pd) wd = (Ok m, we)
    /\ cwd wd = cwd wa
    /\ (forall e, In e (plan_entries (SrcMappings (main_plan db schemas pd))) ->
         files w1 !! PosixPath.join (cwd wa) (destination_of e)
         = files wd !! PosixPath.join (cwd wa) (destination_of e))
    /\ (forall e, In e (plan_entries (BaseMappings (base_plan m))) ->
         is_Some (files w1 !! PosixPath.join (cwd wa) (destination_of e))).
Proof.
  unfold pipeline_from. cbv zeta. intros H.
  apply Hoare.bind_ok_inv in H as ([] & wb & Hdeps & H).
  apply Hoare.bind_ok_inv in H as (plan & wc & Hgen & H).
  apply Hoare.bind_ok_inv in H as ([] & wd & Hsrc & H).
  apply Hoare.bind_ok_inv in H as (m & we & Hscan & H).
  apply Hoare.bind_ok_inv in H as (bplan & wf & Hall & H).
  apply Hoare.bind_ok_inv in H as ([] & wg & Hbase & H).
  injection H as <-.
  pose proof (returns_source_plan pd _ _ _ Hgen) as ->.
  pose proof (returns_base_plan m _ _ _ Hall) as ->.
  pose proof (ShapeFacts.scan_returns_shape _ _ _ _ _ Hscan) as Hshape.
  destruct (from_preserves _ _ _ _ _ (Frame.still_deps _ _ _) Hdeps) as (_ & _ & Cb & _).
  destruct (from_preserves _ _ _ _ _ (Frame.calm_source_cmd_generator _ _ _ _) Hgen)
    as (_ & _ & Cc & _).
  rewrite bash_run_src in Hsrc. rewrite bash_run_base in Hbase.
  pose proof (RunFacts.run_ok_files subprocess _ _ _ _ _ Hsrc) as Asrc.
  destruct (from_preserves _ _ _ _ _
              (RunFacts.touches_run subprocess (cwd wc) (fun _ => True) if_exists pd _
                 (fun _ _ => I)) Hsrc eq_refl) as (Cd & _ & _ & _).
  destruct (from_preserves _ _ _ _ _ (Frame.still_scan _ _) Hscan) as (Fe & _ & Ce & _).
  destruct (from_preserves _ _ _ _ _ (Frame.calm_all_base _) Hall) as (Ff & _ & Cf & _).
  pose proof (RunFacts.run_ok_files subprocess _ _ _ _ _ Hbase) as Abase.
  destruct (from_preserves _ _ _ _ _
              (RunFacts.touches_run subprocess (cwd wf)
                 (dest_keys (cwd wf) (plan_entries (BaseMappings (base_plan m))))
                 if_exists pd _ (fun e He => ex_intro _ e (conj He eq_refl)))
              Hbase eq_refl) as (Cg & _ & Mg & Fg).
  assert (Ewc : cwd wc = cwd wa) by congruence.
  assert (Ewd : cwd wd = cwd wa) by congruence.
  assert (Ewf : cwd wf = cwd wa) by congruence.
  exists wd, we, m. simpl cwd. simpl files.
  split; [congruence|]. split; [|split; [exact Hscan|split; [exact Ewd|split]]].
  - intros e He. apply Mg. rewrite Ff, Fe, <- Ewc. apply Asrc. exact He.
  - intros e He. rewrite Fg, Ff, Fe; [reflexivity|].
    intros (e' & He' & Hk). rewrite Ewf in Hk.
    apply ShapeFacts.source_plan_entry in He as (s & _ & Hd).
    apply (NameFacts.ends_sql_yml (PosixPath.join (cwd wa) (destination_of e))).
    + rewrite Hk. apply NameFacts.endswith_join_true.
      exact (ShapeFacts.base_entries_sql _ _ _ Hshape He').
    + rewrite Hd. apply NameFacts.endswith_join_true, NameFacts.source_path_ends_yml.
  - intros e He. rewrite <- Ewf. apply Abase. exact He.
Qed.

End WithTools.
End PipelineFacts.

(** ** Running the pipeline twice *)

Lemma main_with_eq (subprocess : cmdline -> string -> world -> Z * string)
    (yaml_safe_load : string -> option yaml) (db : string) (schemas : list string)
    (custom : option string) (if_exists : string) (w : world) :
  main_with subprocess yaml_safe_load db schemas custom if_exists w
  = bind (fetch_dbt_project custom)
      (pipeline_from subprocess yaml_safe_load db schemas if_exists) w.
Proof. reflexivity. Qed.

(** The second search finds the project the first one found. *)
Lemma located_again (subprocess : cmdline -> string -> world -> Z * string)
    (yaml_safe_load : string -> option yaml) (db : string) (schemas : list string)
    (custom : option string) (if_exists pd : string) (w wa w1 : world) :
  located_safely custom schemas w = true ->
  fetch_dbt_project custom w = (Ok pd, wa) ->
  pipeline_from subprocess yaml_safe_load db schemas if_exists pd wa = (Ok tt, w1) ->
  cwd w1 = cwd w ->
  exists v, fetch_dbt_project custom w1 = (Ok pd, v) /\ still w1 v.
Proof.
  intros Hsafe Hfetch Hpipe Hcwd.
  assert (Hgiven : forall p, custom = Some p -> negb (String.eqb p "") = true ->
            exists v, fetch_dbt_project custom w1 = (Ok pd, v) /\ still w1 v).
  { intros p -> Hp. revert Hfetch. unfold fetch_dbt_project, bind, OS.getcwd, ret.
    rewrite Hp. intros H. injection H as <- _. exists w1. split; [reflexivity|].
    apply Frame.still_refl. }
  assert (Hwalk : cwd_exists w && forallb schema_ok schemas = true ->
            fetch_loop (S (String.length (cwd w))) (cwd w) "/" w = (Ok pd, wa) ->
            exists v, fetch_dbt_project custom w1 = (Ok pd, v) /\ still w1 v).
  { intros Hwf Hloop. apply andb_true_iff in Hwf as [Hwf Hs].
    unfold cwd_exists in Hwf.
    apply andb_true_iff in Hwf as [Hwf Hclosed].
    apply andb_true_iff in Hwf as [Hwf Hin].
    apply andb_true_iff in Hwf as [Habs Hlike].
    apply bool_decide_eq_true in Hclosed. apply bool_decide_eq_true in Hin.
    assert (Hc : dirs_closed (dirs w)) by exact Hclosed.
    destruct (AgainFacts.fetch_loop_located _ _ _ _ _ _ Hc Hin Habs Hlike Hloop)
      as (Hpd & Hpdabs & Hpdlike).
    destruct (PipelineFacts.from_preserves _ _ _ _ _ (Frame.still_fetch custom) Hfetch)
      as (Fa & Da & Ca & _).
    assert (Hg : grows w w1).
    { apply (GrowFacts.grows_trans _ wa).
      - apply GrowFacts.still_grows.
        exact (PipelineFacts.from_preserves _ _ _ _ _ (Frame.still_fetch custom) Hfetch).
      - apply (PipelineFacts.from_preserves _ _ _ _ _
                 (PipelineFacts.pipeline_grows subprocess yaml_safe_load db schemas
                    if_exists (dirs w) (cwd w) pd Hc Hpd Hpdlike Hpdabs Hin Hlike Hs)
                 Hpipe).
        + intros k Hk. rewrite Da. exact Hk.
        + exact Ca. }
    apply (AgainFacts.fetch_transfer custom pd w wa w1 Hcwd);
      [|exact Hfetch].
    intros d. apply GrowFacts.grows_exists. exact Hg. }
  unfold located_safely in Hsafe.
  destruct custom as [p|].
  - destruct (negb (String.eqb p "")) eqn:Hp.
    + exact (Hgiven p eq_refl Hp).
    + apply Hwalk; [exact Hsafe|].
      revert Hfetch. unfold fetch_dbt_project, bind, OS.getcwd. rewrite Hp. auto.
  - apply Hwalk; [exact Hsafe|]. exact Hfetch.
Qed.

(** ** A policy that is neither skip nor replace *)

Module AppendFacts.
Section WithProcess.

Variable subprocess : cmdline -> string -> world -> Z * string.







End WithProcess.
End AppendFacts.



(** ** The base-model phase, entry by entry *)

Module EnsureFacts.

Lemma makedirs_ok_inv (p : string) (w w' : world) :
  OS.makedirs p w = (Ok tt, w') -> w' = after_makedirs w p.
Proof.
  unfold OS.makedirs, bind, emit, after_makedirs. cbv beta iota.
  change (OS.abspath (World (files w) (dirs w) (cwd w) (trace w ++ [EMakedirs p])) p)
    with (OS.abspath w p).
  simpl files. simpl dirs. simpl cwd. simpl trace.
  destruct (bool_decide _); [discriminate|].
  destruct (List.find _ _); [discriminate|].
  intros H. injection H as <-. reflexivity.
Qed.

Lemma isdir_after_makedirs (p : string) (w : world) :
  OS.isdir (after_makedirs w p) p = true.
Proof.
  unfold OS.isdir, after_makedirs, OS.abspath. simpl.
  apply bool_decide_eq_true. set_solver.
Qed.

Lemma isdir_calm (p : string) (w w' : world) :
  OS.isdir w p = true -> calm w w' -> OS.isdir w' p = true.
Proof.
  intros H (_ & D & C & _). unfold OS.isdir, OS.abspath in *.
  apply bool_decide_eq_true in H. apply bool_decide_eq_true. rewrite C. apply D. exact H.
Qed.

(** What holds after the round of an element holds at the end of the
    loop, when later rounds keep it. *)
Lemma for_collect_post {A B} (R : world -> world -> Prop) (P : A -> world -> Prop)
    (l : list A) (f : A -> M B) :
  (forall w, R w w) -> (forall a b c, R a b -> R b c -> R a c) ->
  (forall x, In x l -> preserves R (f x)) ->
  (forall x w1 w2, P x w1 -> R w1 w2 -> P x w2) ->
  (forall x w1 y w2, In x l -> f x w1 = (Ok y, w2) -> P x w2) ->
  forall w ys w', for_collect l f w = (Ok ys, w') -> forall x, In x l -> P x w'.
Proof.
  intros Hrefl Htrans. induction l as [|a l IH]; intros Hpres Hkeep Hpost w ys w' Hrun x Hx;
    [contradiction|].
  simpl in Hrun.
  apply Hoare.bind_ok_inv in Hrun as (y & w1 & Hy & Hrun).
  apply Hoare.bind_ok_inv in Hrun as (ys' & w2 & Hys & Hrun).
  injection Hrun as _ <-.
  destruct Hx as [<- | Hx].
  - apply (Hkeep a w1 w2); [exact (Hpost a w y w1 (or_introl eq_refl) Hy)|].
    pose proof (Hoare.preserves_for_collect R Hrefl Htrans l f
                  (fun z Hz => Hpres z (or_intror Hz)) w1) as Hr.
    rewrite Hys in Hr. exact Hr.
  - apply (IH (fun z Hz => Hpres z (or_intror Hz)) Hkeep
              (fun z a1 b1 c1 Hz => Hpost z a1 b1 c1 (or_intror Hz)) w1 ys' w2 Hys x Hx).
Qed.

(** A loop whose every round returns, from any world that satisfies an
    invariant the rounds keep, returns. *)
Lemma for_collect_total {A B} (I : world -> Prop) (l : list A) (f : A -> M B) :
  (forall x w1, In x l -> I w1 -> exists y w2, f x w1 = (Ok y, w2) /\ I w2) ->
  forall w, I w -> exists ys w', for_collect l f w = (Ok ys, w') /\ I w'.
Proof.
  induction l as [|a l IH]; intros H w Hw.
  - exists [], w. split; [reflexivity | exact Hw].
  - destruct (H a w (or_introl eq_refl) Hw) as (y & w1 & Hy & Hw1).
    destruct (IH (fun z v Hz => H z v (or_intror Hz)) w1 Hw1) as (ys & w2 & Hys & Hw2).
    exists (y :: ys), w2. split; [|exact Hw2].
    simpl. unfold bind. rewrite Hy, Hys. reflexivity.
Qed.

(** [base_command_generator] called with at least one table leaves its
    directory behind. *)
Lemma base_command_generator_ensures (source_name dest : string)
    (tms r : list table_mapping) (w w' : world) :
  base_command_generator source_name tms dest w = (Ok r, w') ->
  concat tms <> [] -> OS.isdir w' dest = true.
Proof.
  intros H Hne.
  assert (Hinner : forall tm : table_mapping,
            preserves calm
              (for_collect tm (fun '(table, mapping_data) =>
                 bind (OS.makedirs dest) (fun _ =>
                   ret (table,
                        {| file_name := file_name mapping_data;
                           base_command :=
                             Some ("dbt run-operation generate_base_model --args '{" +:+ dq
                                   +:+ "source_name" +:+ dq +:+ ": " +:+ dq +:+ source_name
                                   +:+ dq +:+ ", " +:+ dq +:+ "table_name" +:+ dq +:+ ": "
                                   +:+ dq +:+ table +:+ dq +:+ "}'") |}))))).
  { intros tm. apply (Hoare.preserves_for_collect calm Frame.calm_refl Frame.calm_trans).
    intros [t td] _. apply (Hoare.preserves_bind calm Frame.calm_trans).
    - apply Frame.calm_makedirs.
    - intros _. apply (Hoare.preserves_ret calm Frame.calm_refl). }
  assert (Hsome : exists tm, In tm tms /\ tm <> []).
  { clear -Hne. induction tms as [|tm tms IH]; [contradiction|].
    destruct tm as [|x tm].
    - destruct IH as (tm' & Hin & Hn); [exact Hne|]. exists tm'. split; [right|]; auto.
    - exists (x :: tm). split; [left; reflexivity | discriminate]. }
  destruct Hsome as (tm & Htm & Hn).
  unfold base_command_generator in H.
  refine (for_collect_post calm (fun (tm : table_mapping) v => tm <> [] -> OS.isdir v dest = true)
            tms _ Frame.calm_refl Frame.calm_trans (fun x _ => Hinner x) _ _ w r w' H tm Htm Hn).
  - intros x w1 w2 Hx Hc Hxn. exact (isdir_calm dest w1 w2 (Hx Hxn) Hc).
  - intros x w1 y w2 _ Hrun Hxn.
    destruct x as [|[t td] x]; [contradiction|].
    refine (for_collect_post calm (fun (_ : string * table_data) v => OS.isdir v dest = true)
              ((t, td) :: x) _ Frame.calm_refl Frame.calm_trans _ _ _ w1 y w2 Hrun (t, td)
              (or_introl eq_refl)).
    + intros [t' td'] _. apply (Hoare.preserves_bind calm Frame.calm_trans).
      * apply Frame.calm_makedirs.
      * intros _. apply (Hoare.preserves_ret calm Frame.calm_refl).
    + intros _ wa wb Ha Hc. exact (isdir_calm dest wa wb Ha Hc).
    + intros [t' td'] wa item wb _ Hbody.
      apply Hoare.bind_ok_inv in Hbody as ([] & wc & Hmk & Hbody).
      injection Hbody as _ <-. apply makedirs_ok_inv in Hmk as ->.
      apply isdir_after_makedirs.
Qed.

End EnsureFacts.

Module BasePhaseFacts.

(** The round of [all_base_commands_generator] for one source. *)
Lemma calm_base_round (item : string * source_data) :
  preserves calm
    (let '(source_name, mapping_data) := item in
     bind (logging_info ("Creating base model generation commands for source schema: "
                         +:+ source_name)) (fun _ =>
       match tables mapping_data with
       | None => raise TypeError
       | Some table_mappings =>
           bind (base_command_generator source_name table_mappings
                   ("models/" +:+ source_name)) (fun source_base_model_commands =>
             ret [(source_name, source_base_model_commands)])
       end)).
Proof.
  pose proof (Frame.calm_all_base [[item]]) as H.
  intros w. specialize (H w). unfold all_base_commands_generator in H.
  simpl for_collect in H. unfold bind, ret in *.
  destruct item as [s d].
  destruct (logging_info _ w) as [[[]| |] w1]; simpl in *; try exact H.
  destruct (tables d) as [tms|]; simpl in *; [|exact H].
  destruct (base_command_generator s tms ("models/" +:+ s) w1) as [[r| |] w2];
    simpl in *; exact H.
Qed.

(** After the base-model phase came to its end, [models/<source>] is a
    directory for every source that has a table. *)
Lemma all_base_ensures (m : list source_mapping) (plan : list base_mapping)
    (w w' : world) :
  all_base_commands_generator m w = (Ok plan, w') ->
  forall s d, In (s, d) (concat m) -> concat (default [] (tables d)) <> [] ->
    OS.isdir w' ("models/" +:+ s) = true.
Proof.
  unfold all_base_commands_generator. intros H s d Hin Hne.
  apply Hoare.bind_ok_inv in H as (per_mapping & w1 & Hper & H).
  injection H as _ <-.
  apply in_concat in Hin as (mapping & Hmapping & Hin).
  set (Q := fun (item : string * source_data) (v : world) =>
              concat (default [] (tables (snd item))) <> [] ->
              OS.isdir v ("models/" +:+ fst item) = true).
  assert (Hkeep : forall x w1 w2, Q x w1 -> calm w1 w2 -> Q x w2).
  { intros x wa wb Hx Hc Hn. exact (EnsureFacts.isdir_calm _ wa wb (Hx Hn) Hc). }
  refine (EnsureFacts.for_collect_post calm
            (fun (mapping : source_mapping) v => forall item, In item mapping -> Q item v)
            m _ Frame.calm_refl Frame.calm_trans _ _ _ w per_mapping w1 Hper mapping
            Hmapping (s, d) Hin Hne).
  - intros x _.
    apply (Hoare.preserves_for_collect calm Frame.calm_refl Frame.calm_trans).
    intros item _. apply calm_base_round.
  - intros x wa wb Hx Hc item Hitem. exact (Hkeep item wa wb (Hx item Hitem) Hc).
  - intros x wa ys wb _ Hrun.
    refine (EnsureFacts.for_collect_post calm Q x _ Frame.calm_refl Frame.calm_trans
              (fun item _ => calm_base_round item) Hkeep _ wa ys wb Hrun).
    intros [s' d'] wc y wd _ Hbody Hn.
    apply Hoare.bind_ok_inv in Hbody as ([] & we & _ & Hbody).
    simpl in Hn |- *. destruct (tables d') as [tms|]; [|discriminate].
    apply Hoare.bind_ok_inv in Hbody as (r & wf & Hgen & Hbody).
    injection Hbody as _ <-.
    exact (EnsureFacts.base_command_generator_ensures _ _ _ _ _ _ Hgen Hn).
Qed.

(** The base-model phase returns when every source was scanned and no
    regular file is in the way of a directory it makes. *)
Lemma all_base_returns (m : list source_mapping) (w : world) :
  (forall s d, In (s, d) (concat m) ->
     tables d <> None /\ makedirs_ok w ("models/" +:+ s) = true) ->
  exists w', all_base_commands_generator m w = (Ok (base_plan m), w').
Proof.
  intros Hm.
  set (I := fun v : world => files v = files w /\ cwd v = cwd w).
  assert (Hok : forall v p, I v -> makedirs_ok v p = makedirs_ok w p).
  { intros v p [F C]. unfold makedirs_ok, OS.abspath. rewrite F, C. reflexivity. }
  assert (Hrun : exists ys w',
            for_collect m (fun source_mapping =>
              for_collect source_mapping (fun '(source_name, mapping_data) =>
                bind (logging_info ("Creating base model generation commands for source schema: "
                                    +:+ source_name)) (fun _ =>
                  match tables mapping_data with
                  | None => raise TypeError
                  | Some table_mappings =>
                      bind (base_command_generator source_name table_mappings
                              ("models/" +:+ source_name))
                        (fun source_base_model_commands =>
                           ret [(source_name, source_base_model_commands)])
                  end))) w = (Ok ys, w') /\ I w').
  { apply (EnsureFacts.for_collect_total I); [|split; reflexivity].
    intros mapping w1 Hmapping Hw1.
    apply (EnsureFacts.for_collect_total I); [|exact Hw1].
    intros [s d] w2 Hitem Hw2.
    destruct (Hm s d) as [Ht Hmk]; [apply in_concat; eauto|].
    destruct (tables d) as [tms|]; [|contradiction].
    assert (Hgen : exists r w3,
              base_command_generator s tms ("models/" +:+ s)
                (add_events w2 [ELog ("Creating base model generation commands for source schema: "
                                      +:+ s)]) = (Ok r, w3) /\ I w3).
    { unfold base_command_generator.
      apply (EnsureFacts.for_collect_total I); [|exact Hw2].
      intros tm w3 _ Hw3.
      apply (EnsureFacts.for_collect_total I); [|exact Hw3].
      intros [t td] w4 _ Hw4.
      assert (Hmk4 : makedirs_ok w4 ("models/" +:+ s) = true) by (rewrite Hok; assumption).
      eexists. eexists. split.
      - rewrite (ExecFacts.bind_ok _ _ _ _ _ (PlanFacts.makedirs_eq _ _ Hmk4)). reflexivity.
      - exact Hw4. }
    destruct Hgen as (r & w3 & Hgen & Hw3).
    eexists. eexists. split; [|exact Hw3].
    unfold bind at 1. unfold logging_info, emit.
    fold (add_events w2 [ELog ("Creating base model generation commands for source schema: "
                               +:+ s)]).
    unfold bind. rewrite Hgen. reflexivity. }
  destruct Hrun as (ys & w' & Hrun & _).
  assert (Hall : all_base_commands_generator m w = (Ok (concat ys), w')).
  { unfold all_base_commands_generator. rewrite (ExecFacts.bind_ok _ _ _ _ _ Hrun).
    reflexivity. }
  exists w'. rewrite Hall.
  rewrite (BasePlanFacts.all_base_commands_generator_value _ _ _ _ Hall). reflexivity.
Qed.

End BasePhaseFacts.

Module SpelledFacts.

(** The scan of a source plan, schema by schema. *)
Lemma scan_names (db root : string) (schemas : list string) (m : list source_mapping) :
  Forall2 (fun item mapping => exists names, mapping = scanned item names)
    (concat (List.map (source_entry db true root) schemas)) m ->
  exists nss, length nss = length schemas
              /\ m = zip_with (scanned_entry db root) schemas nss.
Proof.
  revert m. induction schemas as [|s l IH]; intros m H.
  - simpl in H. inversion H. exists []. auto.
  - simpl in H. inversion H as [|item mapping items m' (names & ->) Hrest]; subst.
    destruct (IH m' Hrest) as (nss & Hlen & ->).
    exists (names :: nss). split; [simpl; congruence|].
    simpl. unfold scanned_entry at 1. simpl. rewrite ?app_nil_r. reflexivity.
Qed.

Lemma concat_with_commands (folder s : string) (names : list string) :
  concat (with_commands s (manifest folder s names))
  = List.map (fun t => (t, {| file_name := staging_path folder s t;
                              base_command := Some (base_cmd_of s t) |})) names.
Proof.
  induction names as [|t names IH]; [reflexivity|].
  unfold with_commands, manifest in *. simpl. rewrite IH. reflexivity.
Qed.

Lemma plan_entries_app (a b : list base_mapping) :
  plan_entries (BaseMappings (a ++ b))
  = plan_entries (BaseMappings a) ++ plan_entries (BaseMappings b).
Proof.
  unfold plan_entries, base_items. rewrite map_app, concat_app, map_app. reflexivity.
Qed.

Lemma base_plan_cons (mapping : source_mapping) (m : list source_mapping) :
  base_plan (mapping :: m) = base_plan [mapping] ++ base_plan m.
Proof.
  unfold base_plan.
  change (concat (mapping :: m)) with (mapping ++ concat m).
  change (concat [mapping]) with (mapping ++ []).
  rewrite app_nil_r, map_app. reflexivity.
Qed.

Lemma entries_of_scanned (db root s : string) (names : list string) :
  plan_entries (BaseMappings (base_plan [scanned_entry db root s names]))
  = List.map (base_entry root s) names.
Proof.
  unfold base_plan, scanned_entry, plan_entries, base_items. simpl.
  rewrite ?app_nil_r, concat_with_commands, !map_map. reflexivity.
Qed.

(** The entries of the base-model plan of scanned sources. *)
Lemma entries_spelled (db root : string) (schemas : list string) (nss : list (list string)) :
  plan_entries (BaseMappings (base_plan (zip_with (scanned_entry db root) schemas nss)))
  = concat (zip_with (fun s names => List.map (base_entry root s) names) schemas nss).
Proof.
  revert nss. induction schemas as [|s l IH]; intros [|names nss]; try reflexivity.
  simpl zip_with. rewrite base_plan_cons, plan_entries_app, entries_of_scanned, IH.
  reflexivity.
Qed.

Lemma makedirs_calls_const {A} (p : string) (l : list A) :
  makedirs_calls (List.map (fun _ => EMakedirs p) l) = List.map (fun _ => p) l.
Proof. induction l as [|x l IH]; simpl; congruence. Qed.

Lemma map_const_manifest {B} (folder s : string) (names : list string) (c : B) :
  List.map (fun _ => c) (concat (manifest folder s names)) = List.map (fun _ => c) names.
Proof. induction names as [|t names IH]; simpl; congruence. Qed.

(** The directories the base-model phase asks for, call by call. *)
Lemma makedirs_spelled (db root : string) (schemas : list string) (nss : list (list string)) :
  makedirs_calls
    (concat (List.map base_events (concat (zip_with (scanned_entry db root) schemas nss))))
  = concat (zip_with (fun s names => List.map (fun _ => "models/" +:+ s) names) schemas nss).
Proof.
  revert nss. induction schemas as [|s l IH]; intros [|names nss]; try reflexivity.
  simpl zip_with. unfold scanned_entry at 1. simpl.
  rewrite ?app_nil_r. unfold base_events at 1. simpl.
  rewrite BaseFacts.makedirs_calls_app, IH, map_const_manifest, makedirs_calls_const.
  reflexivity.
Qed.

Lemma items_of_scanned (db root : string) (schemas : list string) (nss : list (list string))
    (s : string) (d : source_data) :
  In (s, d) (concat (zip_with (scanned_entry db root) schemas nss)) ->
  exists names, In (s, names) (zip schemas nss)
                /\ tables d = Some (manifest (PosixPath.join root s) s names).
Proof.
  revert nss. induction schemas as [|x l IH]; intros [|names nss] H; try contradiction.
  simpl in H. unfold scanned_entry at 1 in H. simpl in H.
  destruct H as [E | H].
  - injection E as <- <-. exists names. split; [left; reflexivity | reflexivity].
  - destruct (IH nss H) as (ns & Hin & Ht). exists ns. split; [right; exact Hin | exact Ht].
Qed.

Lemma scanned_items (db root : string) (schemas : list string) (nss : list (list string))
    (s : string) (names : list string) :
  In (s, names) (zip schemas nss) ->
  exists d, In (s, d) (concat (zip_with (scanned_entry db root) schemas nss))
            /\ tables d = Some (manifest (PosixPath.join root s) s names).
Proof.
  revert nss. induction schemas as [|x l IH]; intros [|ns nss] H; try contradiction.
  simpl in H. destruct H as [E | H].
  - injection E as <- <-. eexists. split.
    + simpl. unfold scanned_entry at 1. simpl. left. reflexivity.
    + reflexivity.
  - destruct (IH nss H) as (d & Hin & Ht). exists d. split; [|exact Ht].
    simpl zip_with. change (In (s, d) (scanned_entry db root x ns
                                        ++ concat (zip_with (scanned_entry db root) l nss))).
    apply in_or_app. right. exact Hin.
Qed.

Lemma manifest_nonempty (folder s : string) (names : list string) :
  names <> [] -> concat (manifest folder s names) <> [].
Proof. destruct names; [congruence | discriminate]. Qed.

End SpelledFacts.

(** C10.  The base-model phase, run on what [src_yml_scan] made of the
    source plan of a project at [pd], with [nss] the tables the scan read
    for each schema.  It asks [os.makedirs] for nothing but the hard-coded
    [models/<schema>], a path relative to the working directory.  It
    returns whenever no regular file is in the way of these directories,
    and when it returns, its plan has exactly one entry per table, in
    order, each with the destination the scan derived from the source
    phase's folder, [<pd>/models/<schema>/stg_<schema>__<table>.sql];
    [os.makedirs] was called on [models/<schema>] once per table, and that
    directory exists for every schema with a table.  For directories in
    normal form the directory made is the folder of the destination files
    exactly when the working directory is the project directory, so from
    anywhere else it is another one. *)
Theorem base_phase_directory (yaml_safe_load : string -> option yaml)
    (db pd : string) (schemas : list string) (w0 w1 : world) (m : list source_mapping) :
  src_yml_scan yaml_safe_load
    (List.map (source_entry db true (PosixPath.join pd "models")) schemas) w0 = (Ok m, w1) ->
  exists nss,
    length nss = length schemas
    /\ m = zip_with (scanned_entry db (PosixPath.join pd "models")) schemas nss
    /\ makes_only (fun p => exists s, In s schemas /\ p = "models/" +:+ s)
         w1 (snd (all_base_commands_generator m w1))
    /\ (models_can_be_made w1 schemas = true ->
        fst (all_base_commands_generator m w1) = Ok (base_plan m))
    /\ (forall plan w2, all_base_commands_generator m w1 = (Ok plan, w2) ->
        plan_entries (BaseMappings plan)
        = concat (zip_with (fun s names =>
                    List.map (base_entry (PosixPath.join pd "models") s) names) schemas nss)
        /\ makedirs_calls (trace w2)
           = makedirs_calls (trace w1)
             ++ concat (zip_with (fun s names => List.map (fun _ => "models/" +:+ s) names)
                          schemas nss)
        /\ (forall s names, In (s, names) (zip schemas nss) -> names <> [] ->
              OS.isdir w2 ("models/" +:+ s) = true)
        /\ files w2 = files w1 /\ cwd w2 = cwd w1)
    /\ (forall s, normal_dir (cwd w1) -> normal_dir pd -> PyStr.startswith s "/" = false ->
        (OS.abspath w1 ("models/" +:+ s)
         = OS.abspath w1 (PosixPath.join (PosixPath.join pd "models") s)
         <-> cwd w1 = OS.abspath w1 pd)).
Proof.
  intros Hscan.
  destruct (SpelledFacts.scan_names db (PosixPath.join pd "models") schemas m
              (ScanFacts.src_yml_scan_value _ _ _ _ _ Hscan)) as (nss & Hlen & ->).
  set (root := PosixPath.join pd "models").
  set (m := zip_with (scanned_entry db root) schemas nss).
  assert (Hitems : forall s d, In (s, d) (concat m) ->
            In s schemas /\ tables d <> None).
  { intros s d Hin.
    destruct (SpelledFacts.items_of_scanned db root schemas nss s d Hin)
      as (names & Hz & Ht).
    split; [|rewrite Ht; discriminate].
    apply list_elem_of_In. apply list_elem_of_In in Hz.
    apply elem_of_zip_l in Hz. exact Hz. }
  exists nss. split; [exact Hlen|]. split; [reflexivity|].
  split; [|split; [|split]].
  - apply (BaseFacts.makes_only_weaken
             (fun p => exists s d, In (s, d) (concat m) /\ p = "models/" +:+ s)).
    + intros p (s & d & Hin & ->). exists s. split; [|reflexivity].
      exact (proj1 (Hitems s d Hin)).
    + apply BaseFacts.all_base_commands_generator_makes.
  - intros Hcan.
    destruct (BasePhaseFacts.all_base_returns m w1) as (w2 & ->); [|reflexivity].
    intros s d Hin. destruct (Hitems s d Hin) as [Hs Ht]. split; [exact Ht|].
    unfold models_can_be_made in Hcan. rewrite forallb_forall in Hcan. exact (Hcan s Hs).
  - intros plan w2 Hrun.
    pose proof (BasePlanFacts.all_base_commands_generator_value _ _ _ _ Hrun) as ->.
    pose proof (BasePlanFacts.all_base_commands_generator_trace _ _ _ _ Hrun) as Ht.
    pose proof (Frame.calm_all_base m w1) as Hc. rewrite Hrun in Hc.
    destruct Hc as (F & _ & C & _).
    split; [apply SpelledFacts.entries_spelled|].
    split; [rewrite Ht, BaseFacts.makedirs_calls_app; f_equal;
            apply SpelledFacts.makedirs_spelled|].
    split; [|split; [exact F | exact C]].
    intros s names Hz Hne.
    destruct (SpelledFacts.scanned_items db root schemas nss s names Hz) as (d & Hin & Htd).
    apply (BasePhaseFacts.all_base_ensures m _ w1 w2 Hrun s d Hin).
    rewrite Htd. simpl. apply SpelledFacts.manifest_nonempty. exact Hne.
  - intros s. apply DirFacts.models_dir_eq.
Qed.

Lemma base_phase_directory_witness :
  all_base_commands_generator Demo11.scanned_sales Demo11.after_scan
  = (Ok (base_plan Demo11.scanned_sales),
     snd (all_base_commands_generator Demo11.scanned_sales Demo11.after_scan))
  /\ List.map destination_of (plan_entries (BaseMappings (base_plan Demo11.scanned_sales)))
     = ["/p/models/sales/stg_sales__orders.sql";
        "/p/models/sales/stg_sales__customers.sql"]
  /\ makedirs_calls
       (trace (snd (all_base_commands_generator Demo11.scanned_sales Demo11.after_scan)))
     = ["models/sales"; "models/sales"]
  /\ OS.abspath Demo11.after_scan "models/sales" = "/p/analysis/models/sales"
  /\ OS.isdir (snd (all_base_commands_generator Demo11.scanned_sales Demo11.after_scan))
       "models/sales" = true.
Proof.
  assert (Hscan : src_yml_scan Demo4.loads_two_tables
                    (List.map (source_entry "lake" true (PosixPath.join "/p" "models"))
                       ["sales"]) Demo4.project_from_subdirectory
                  = (Ok Demo11.scanned_sales, Demo11.after_scan))
    by (vm_compute; reflexivity).
  destruct (base_phase_directory Demo4.loads_two_tables "lake" "/p" ["sales"]
              Demo4.project_from_subdirectory Demo11.after_scan Demo11.scanned_sales Hscan)
    as (nss & _ & _ & _ & Hcan & _).
  assert (Hok : models_can_be_made Demo11.after_scan ["sales"] = true)
    by (vm_compute; reflexivity).
  specialize (Hcan Hok).
  split.
  - destruct (all_base_commands_generator Demo11.scanned_sales Demo11.after_scan)
      as [o w2]. simpl in Hcan. rewrite Hcan. reflexivity.
  - repeat split; vm_compute; reflexivity.
Defined.

(** ** No project file appears during a run *)

Module NoNewFacts.

Lemma no_new_refl (w : world) : no_new_descriptor w w.
Proof. repeat split; auto. Qed.

Lemma no_new_trans (a b c : world) :
  no_new_descriptor a b -> no_new_descriptor b c -> no_new_descriptor a c.
Proof.
  intros (C1 & D1 & F1 & N1) (C2 & D2 & F2 & N2).
  split; [congruence|]. split; [auto|]. split; [auto|].
  intros k Hb Hk. exact (N1 k Hb (N2 k Hb Hk)).
Qed.

Lemma from_refl (c : string) (w : world) : no_new_from c w w.
Proof. intros _. apply no_new_refl. Qed.

Lemma from_trans (c : string) (x y z : world) :
  no_new_from c x y -> no_new_from c y z -> no_new_from c x z.
Proof.
  intros H1 H2 Hc. pose proof (H1 Hc) as G1.
  apply (no_new_trans _ _ _ G1). destruct G1 as (C1 & _). apply H2. congruence.
Qed.

Lemma of_calm (w w' : world) : calm w w' -> no_new_descriptor w w'.
Proof.
  intros (F & D & C & _). split; [exact C|]. split; [exact D|]. rewrite F. split; auto.
Qed.

Lemma of_still (w w' : world) : still w w' -> no_new_descriptor w w'.
Proof. intros H. apply of_calm, Frame.still_calm, H. Qed.

(** Writing only files not called [dbt_project.yml]. *)
Lemma of_touches (c : string) (K : string -> Prop) (w w' : world) :
  touches c K w w' -> cwd w = c ->
  (forall k, K k -> PosixPath.basename k <> descriptor) -> no_new_descriptor w w'.
Proof.
  intros H Hc HK. destruct (H Hc) as (C & D & Mono & Fr).
  split; [congruence|]. split; [rewrite D; auto|]. split; [exact Mono|].
  intros k Hb. rewrite Fr; [auto|]. intros Hk. exact (HK k Hk Hb).
Qed.

(** What is there for [os.path.exists] stays there. *)
Lemma exists_kept (w w' : world) (p : string) :
  no_new_descriptor w w' -> OS.exists_ w p = true -> OS.exists_ w' p = true.
Proof.
  intros (C & D & F & _). unfold OS.exists_, OS.isfile, OS.isdir, OS.abspath. rewrite C.
  intros H. apply orb_true_iff in H as [H | H]; apply bool_decide_eq_true in H;
    apply orb_true_iff; [left | right]; apply bool_decide_eq_true; auto.
Qed.

(** A descriptor that was not there before is no regular file. *)
Lemma new_descriptor_no_file (w w' : world) (d : string) :
  no_new_descriptor w w' ->
  OS.exists_ w (PosixPath.join d descriptor) = false ->
  OS.isfile w' (PosixPath.join d descriptor) = false.
Proof.
  intros (C & _ & _ & N) H. unfold OS.exists_ in H. apply orb_false_iff in H as [H _].
  unfold OS.isfile, OS.abspath in *. rewrite C.
  apply bool_decide_eq_false in H. apply bool_decide_eq_false. intros Hk. apply H.
  apply N; [|exact Hk]. rewrite !NameFacts.basename_join. reflexivity.
Qed.

Section WithTools.

Variable subprocess : cmdline -> string -> world -> Z * string.
Variable yaml_safe_load : string -> option yaml.
Variable db : string.
Variable schemas : list string.
Variable if_exists : string.

Lemma from_run (c pd : string) (entries : list plan_entry) :
  (forall e, In e entries ->
     PosixPath.basename (PosixPath.join c (destination_of e)) <> descriptor) ->
  preserves (no_new_from c) (for_each entries (execute subprocess if_exists pd)).
Proof.
  intros HK w Hc.
  apply (of_touches c (dest_keys c entries)); [|exact Hc|].
  - apply RunFacts.touches_run. intros e He. exists e. auto.
  - intros k (e & He & ->). apply HK. exact He.
Qed.

(** With schema names that are single path components, a run creates no
    regular file called [dbt_project.yml], wherever the project is. *)
Lemma pipeline_no_new (c pd : string) :
  forallb no_sep schemas = true ->
  preserves (no_new_from c)
    (pipeline_from subprocess yaml_safe_load db schemas if_exists pd).
Proof.
  intros Hs.
  set (R := no_new_from c).
  assert (Htrans : forall x y z, R x y -> R y z -> R x z) by apply from_trans.
  assert (Hcalm : forall A (k : M A), preserves calm k -> preserves R k).
  { intros A k Hk w _. apply of_calm, Hk. }
  assert (Hstill : forall A (k : M A), preserves still k -> preserves R k).
  { intros A k Hk w _. apply of_still, Hk. }
  enough (Ht : triple (fun _ => True)
                 (pipeline_from subprocess yaml_safe_load db schemas if_exists pd)
                 (fun _ => True) R).
  { intros w. exact (proj1 (Ht w I)). }
  unfold pipeline_from. cbv zeta.
  apply (Triple.bind_rule _ R _ _ (fun _ => True)); [exact Htrans | auto | |].
  { apply Triple.of_preserves; [|apply Triple.returns_any].
    apply Hstill, Frame.still_deps. }
  intros _ _.
  apply (Triple.bind_rule _ R _ _ (fun plan => plan = main_plan db schemas pd));
    [exact Htrans | auto | |].
  { apply Triple.of_preserves;
      [|apply (PipelineFacts.returns_source_plan db schemas pd)].
    apply Hcalm, Frame.calm_source_cmd_generator. }
  intros plan ->.
  apply (Triple.bind_rule _ R _ _ (fun _ => True)); [exact Htrans | auto | |].
  { apply Triple.of_preserves; [|apply Triple.returns_any].
    apply (RunFacts.preserves_ext _ _ _
             (PipelineFacts.bash_run_src subprocess if_exists (main_plan db schemas pd) pd)).
    apply from_run. intros e He.
    apply ShapeFacts.source_plan_entry in He as (s & Hin & ->).
    rewrite NameFacts.basename_join. apply NameFacts.source_path_basename.
    rewrite forallb_forall in Hs. specialize (Hs s Hin). unfold no_sep in Hs.
    apply negb_true_iff in Hs. exact Hs. }
  intros _ _.
  apply (Triple.bind_rule _ R _ _ (scan_shape (main_plan db schemas pd)));
    [exact Htrans | auto | |].
  { apply Triple.of_preserves; [|apply ShapeFacts.scan_returns_shape].
    apply Hstill, Frame.still_scan. }
  intros m Hm.
  apply (Triple.bind_rule _ R _ _ (fun plan => plan = base_plan m));
    [exact Htrans | auto | |].
  { apply Triple.of_preserves; [|apply (PipelineFacts.returns_base_plan m)].
    apply Hcalm, Frame.calm_all_base. }
  intros plan ->.
  apply (Triple.bind_rule _ R _ _ (fun _ => True)); [exact Htrans | auto | |].
  { apply Triple.of_preserves; [|apply Triple.returns_any].
    apply (RunFacts.preserves_ext _ _ _
             (PipelineFacts.bash_run_base subprocess if_exists (base_plan m) pd)).
    apply from_run. intros e He.
    apply NameFacts.sql_not_descriptor, NameFacts.endswith_join_true.
    exact (ShapeFacts.base_entries_sql _ _ _ Hm He). }
  intros _ _.
  apply Triple.of_preserves; [|apply Triple.returns_any].
  apply Hstill, Frame.still_log.
Qed.

End WithTools.
End NoNewFacts.

(** ** The second run *)

Module RerunFacts.

(** A computation that does not return leaves the world to what follows
    it unchanged. *)
Lemma bind_not_ok {A B} (c : M A) (k : A -> M B) (w : world) :
  (forall a, fst (c w) <> Ok a) -> snd (bind c k w) = snd (c w).
Proof.
  intros H. unfold bind. destruct (c w) as [[a | e |] w']; try reflexivity.
  exfalso. exact (H a eq_refl).
Qed.

(** The second search stops where the first one did, or earlier at a
    descriptor that was not there the first time. *)
Lemma fetch_loop_again (fuel : nat) (p pd : string) (w wa w1 : world) :
  (forall d, OS.exists_ w (PosixPath.join d descriptor) = true ->
             OS.exists_ w1 (PosixPath.join d descriptor) = true) ->
  fetch_loop fuel p "/" w = (Ok pd, wa) ->
  exists pd2 v,
    fetch_loop fuel p "/" w1 = (Ok pd2, v) /\ still w1 v
    /\ (pd2 = pd \/ OS.exists_ w (PosixPath.join pd2 descriptor) = false).
Proof.
  intros Hmono. revert p. induction fuel as [|fuel IH]; intros p; simpl;
    destruct (String.eqb p "/"); try discriminate.
  unfold bind, OS.path_exists. fold descriptor.
  destruct (OS.exists_ w (PosixPath.join p descriptor)) eqn:Hw.
  - rewrite (Hmono p Hw). unfold logging_info, emit, ret. intros H. injection H as <- _.
    eexists. eexists. split; [reflexivity|]. split; [|left; reflexivity].
    apply Frame.still_add_events. reflexivity.
  - destruct (OS.exists_ w1 (PosixPath.join p descriptor)) eqn:Hw1.
    + intros _. unfold logging_info, emit, ret.
      eexists. eexists. split; [reflexivity|]. split; [|right; exact Hw].
      apply Frame.still_add_events. reflexivity.
    + apply IH.
Qed.

Section WithTools.

Variable subprocess : cmdline -> string -> world -> Z * string.
Variable yaml_safe_load : string -> option yaml.
Variable db : string.
Variable schemas : list string.
Variable if_exists : string.

(** [run_dbt_deps] returns only after [dbt deps] exited with status zero
    in the project directory, in a world with the files it started from. *)
Lemma deps_ok_inv (pd : string) (v v' : world) :
  run_dbt_deps subprocess yaml_safe_load pd v = (Ok tt, v') ->
  exists u, still v u /\ fst (subprocess (Argv ["dbt"; "deps"]) pd u) = 0.
Proof.
  unfold run_dbt_deps. intros H.
  apply Hoare.bind_ok_inv in H as (present & w1 & Hp & H).
  injection Hp as _ <-.
  destruct (negb present); [discriminate|].
  apply Hoare.bind_ok_inv in H as (text & w2 & Hread & H).
  pose proof (PipelineFacts.from_preserves _ _ _ _ _ (Frame.still_read_file _) Hread) as S2.
  apply Hoare.bind_ok_inv in H as (loaded & w3 & Hload & H).
  pose proof (PipelineFacts.from_preserves _ _ _ _ _ (Frame.still_safe_load _ _) Hload) as S3.
  apply Hoare.bind_ok_inv in H as (packages & w4 & Hpk & H).
  injection Hpk as _ <-.
  apply Hoare.bind_ok_inv in H as (entries & w5 & He & H).
  injection He as _ <-.
  apply Hoare.bind_ok_inv in H as (package_list & w6 & Hl & H).
  injection Hl as _ <-.
  destruct (negb _); [discriminate|].
  apply Hoare.bind_ok_inv in H as ([] & w7 & Hlog & H).
  pose proof (PipelineFacts.from_preserves _ _ _ _ _ (Frame.still_log _) Hlog) as S7.
  apply Hoare.bind_ok_inv in H as (out & w8 & Hrun & _).
  rewrite ExecFacts.subprocess_run_eq in Hrun. cbv zeta in Hrun.
  destruct (Z.eqb_spec (fst (subprocess (Argv ["dbt"; "deps"]) pd
                               (add_events w7 [ERun (Argv ["dbt"; "deps"]) pd]))) 0)
    as [E | _]; [|discriminate].
  exists (add_events w7 [ERun (Argv ["dbt"; "deps"]) pd]). split; [|exact E].
  apply (Frame.still_trans _ w2); [exact S2|].
  apply (Frame.still_trans _ w3); [exact S3|].
  apply (Frame.still_trans _ w7); [exact S7|].
  apply Frame.still_add_events. reflexivity.
Qed.

(** With a tool that needs a project file, the pipeline stops at
    [dbt deps] in a directory whose descriptor is no regular file, and has
    changed nothing by then. *)
Lemma pipeline_without_project_file (pd : string) (v : world) :
  needs_project_file subprocess ->
  OS.isfile v (PosixPath.join pd descriptor) = false ->
  still v (snd (pipeline_from subprocess yaml_safe_load db schemas if_exists pd v)).
Proof.
  intros Htool Hfile. unfold pipeline_from. cbv zeta.
  rewrite bind_not_ok; [apply Frame.still_deps|].
  intros [] Hok.
  destruct (run_dbt_deps subprocess yaml_safe_load pd v) as [o v'] eqn:E.
  simpl in Hok. subst o.
  destruct (deps_ok_inv pd v v' E) as (u & (F & _ & C & _) & Hzero).
  pose proof (Htool _ _ _ Hzero) as Hu.
  unfold OS.isfile, OS.abspath in *. rewrite F, C in Hu. congruence.
Qed.

(** When the second search finds the project of the first run, the
    second run is idle. *)
Lemma idle_in_same_project (custom : option string) (pd : string) (w wa w1 v : world) :
  PyStr.lower if_exists = "skip" ->
  fetch_dbt_project custom w = (Ok pd, wa) ->
  pipeline_from subprocess yaml_safe_load db schemas if_exists pd wa = (Ok tt, w1) ->
  fetch_dbt_project custom w1 = (Ok pd, v) -> still w1 v ->
  calm w1 (snd (main_with subprocess yaml_safe_load db schemas custom if_exists w1)).
Proof.
  intros Hskip Hfetch Hpipe Hfetch2 Hv.
  destruct (PipelineFacts.from_preserves _ _ _ _ _ (Frame.still_fetch custom) Hfetch)
    as (_ & _ & Ca & _).
  destruct (PipelineFacts.pipeline_ok_inv _ _ _ _ _ _ _ _ Hpipe)
    as (wd & we & m & C1 & HA & Hscan & Cd & HB & HC).
  rewrite main_with_eq, (ExecFacts.bind_ok _ _ _ _ _ Hfetch2).
  assert (Hidle : triple (on_disk (files w1) (cwd w1))
                    (pipeline_from subprocess yaml_safe_load db schemas if_exists pd)
                    (fun _ => True) calm).
  { apply (PipelineFacts.pipeline_idle _ _ _ _ _ _ _ _ wd we m Hskip).
    - rewrite C1. exact HA.
    - exact Hscan.
    - congruence.
    - rewrite C1. exact HB.
    - rewrite C1. exact HC. }
  destruct Hv as (Fv & Dv & Cv & Gv).
  destruct (Hidle v (conj Fv Cv)) as [Hc _].
  apply (Frame.calm_trans _ v); [|exact Hc].
  apply Frame.still_calm. repeat split; assumption.
Qed.

(** The second run in a setting where the search cannot go astray. *)
Lemma idle_when_located (custom : option string) (w w1 : world) :
  PyStr.lower if_exists = "skip" ->
  located_safely custom schemas w = true ->
  main_with subprocess yaml_safe_load db schemas custom if_exists w = (Ok tt, w1) ->
  calm w1 (snd (main_with subprocess yaml_safe_load db schemas custom if_exists w1)).
Proof.
  intros Hskip Hsafe Hrun. rewrite main_with_eq in Hrun.
  apply Hoare.bind_ok_inv in Hrun as (pd & wa & Hfetch & Hpipe).
  destruct (PipelineFacts.from_preserves _ _ _ _ _ (Frame.still_fetch custom) Hfetch)
    as (_ & _ & Ca & _).
  destruct (PipelineFacts.pipeline_ok_inv _ _ _ _ _ _ _ _ Hpipe) as (_ & _ & _ & C1 & _).
  assert (Hcwd : cwd w1 = cwd w) by congruence.
  destruct (located_again _ _ _ _ _ _ _ _ _ _ Hsafe Hfetch Hpipe Hcwd) as (v & Hfetch2 & Hv).
  exact (idle_in_same_project custom pd w wa w1 v Hskip Hfetch Hpipe Hfetch2 Hv).
Qed.

(** The second run with a tool that needs a project file. *)
Lemma idle_with_strict_tool (custom : option string) (w w1 : world) :
  PyStr.lower if_exists = "skip" ->
  forallb no_sep schemas = true ->
  needs_project_file subprocess ->
  main_with subprocess yaml_safe_load db schemas custom if_exists w = (Ok tt, w1) ->
  calm w1 (snd (main_with subprocess yaml_safe_load db schemas custom if_exists w1)).
Proof.
  intros Hskip Hs Htool Hrun.
  destruct (located_safely custom schemas w) eqn:Hloc;
    [exact (idle_when_located custom w w1 Hskip Hloc Hrun)|].
  assert (Hcustom : fetch_dbt_project custom
                    = fun u => fetch_loop (S (String.length (cwd u))) (cwd u) "/" u).
  { unfold located_safely in Hloc. apply orb_false_iff in Hloc as [Hloc _].
    destruct custom as [p|]; [|reflexivity].
    unfold fetch_dbt_project, bind, OS.getcwd. rewrite Hloc. reflexivity. }
  rewrite main_with_eq in Hrun.
  apply Hoare.bind_ok_inv in Hrun as (pd & wa & Hfetch & Hpipe).
  pose proof (PipelineFacts.from_preserves _ _ _ _ _ (Frame.still_fetch custom) Hfetch)
    as Hwa.
  assert (Hnew : no_new_descriptor w w1).
  { apply (NoNewFacts.no_new_trans _ wa); [apply NoNewFacts.of_still; exact Hwa|].
    apply (PipelineFacts.from_preserves _ _ _ _ _
             (NoNewFacts.pipeline_no_new subprocess yaml_safe_load db schemas if_exists
                (cwd wa) pd Hs) Hpipe).
    reflexivity. }
  assert (Hcwd : cwd w1 = cwd w) by (destruct Hnew as (C & _); exact C).
  pose proof Hfetch as Hloop. rewrite Hcustom in Hloop.
  destruct (fetch_loop_again _ _ _ w wa w1
              (fun d => NoNewFacts.exists_kept w w1 _ Hnew) Hloop)
    as (pd2 & v & Hloop2 & Hv & Hpd2).
  assert (Hfetch2 : fetch_dbt_project custom w1 = (Ok pd2, v)).
  { rewrite Hcustom, Hcwd. exact Hloop2. }
  destruct Hpd2 as [-> | Hnone].
  - exact (idle_in_same_project custom pd w wa w1 v Hskip Hfetch Hpipe Hfetch2 Hv).
  - rewrite main_with_eq, (ExecFacts.bind_ok _ _ _ _ _ Hfetch2).
    apply (Frame.calm_trans _ v); [apply Frame.still_calm; exact Hv|].
    apply Frame.still_calm. apply pipeline_without_project_file; [exact Htool|].
    pose proof (NoNewFacts.new_descriptor_no_file w w1 pd2 Hnew Hnone) as Hf.
    destruct Hv as (F & _ & C & _). unfold OS.isfile, OS.abspath in *.
    rewrite F, C. exact Hf.
Qed.

End WithTools.
End RerunFacts.

(** C3.  When the whole pipeline has run once to its end under policy
    skip and is run again with nothing changed in between, the second run
    executes no generation command - every entry finds its destination
    file and is passed over - and leaves every file with the contents it
    had after the first run.  This holds when the project directory is
    given; when it is searched from a working directory that exists, in a
    file system where every directory has its parent, with schema names
    that are single path components other than [dbt_project.yml]; and,
    for all schema names that are single path components, whenever the
    tool works only in a directory that has a regular [dbt_project.yml]:
    if the second search is led astray by a directory of that name the
    first run made, the run stops at [dbt deps] with nothing changed. *)
Theorem skip_rerun_is_idle (subprocess : cmdline -> string -> world -> Z * string)
    (yaml_safe_load : string -> option yaml) (db : string) (schemas : list string)
    (custom : option string) (if_exists : string) (w w1 : world) :
  PyStr.lower if_exists = "skip" ->
  rerun_setting custom schemas subprocess w ->
  main_with subprocess yaml_safe_load db schemas custom if_exists w = (Ok tt, w1) ->
  let second := main_with subprocess yaml_safe_load db schemas custom if_exists w1 in
  files (snd second) = files w1
  /\ generation_commands (trace (snd second)) = generation_commands (trace w1).
Proof.
  intros Hskip Hset Hrun second. unfold second. clear second.
  assert (Hc : calm w1
                 (snd (main_with subprocess yaml_safe_load db schemas custom if_exists w1))).
  { destruct Hset as [Hloc | [Hs Htool]].
    - exact (RerunFacts.idle_when_located subprocess yaml_safe_load db schemas if_exists
               custom w w1 Hskip Hloc Hrun).
    - exact (RerunFacts.idle_with_strict_tool subprocess yaml_safe_load db schemas if_exists
               custom w w1 Hskip Hs Htool Hrun). }
  destruct Hc as (F & _ & _ & G). auto.
Qed.

Lemma skip_rerun_is_idle_witness :
  (main_with Demo5.dbt Demo5.loader "lake" ["fivetran_log"; "sales"] None "skip"
     Demo5.project = (Ok tt, Demo5.after_first_run)
   /\ length (generation_commands (trace Demo5.after_first_run)) = 6%nat
   /\ files (snd (main_with Demo5.dbt Demo5.loader "lake" ["fivetran_log"; "sales"] None
                    "skip" Demo5.after_first_run))
      = files Demo5.after_first_run
   /\ generation_commands
        (trace (snd (main_with Demo5.dbt Demo5.loader "lake" ["fivetran_log"; "sales"] None
                       "skip" Demo5.after_first_run)))
      = generation_commands (trace Demo5.after_first_run))
  /\ (main_with Demo12.strict_dbt Demo5.loader "lake" ["dbt_project.yml"] None "skip"
        Demo6.nested = (Ok tt, Demo12.after_first_run)
      /\ OS.isdir Demo12.after_first_run "/p/models/dbt_project.yml" = true
      /\ fst (main_with Demo12.strict_dbt Demo5.loader "lake" ["dbt_project.yml"] None
                "skip" Demo12.after_first_run)
         = Raise (CalledProcessError 1 (Argv ["dbt"; "deps"]))
      /\ files (snd (main_with Demo12.strict_dbt Demo5.loader "lake" ["dbt_project.yml"]
                       None "skip" Demo12.after_first_run))
         = files Demo12.after_first_run
      /\ generation_commands
           (trace (snd (main_with Demo12.strict_dbt Demo5.loader "lake" ["dbt_project.yml"]
                          None "skip" Demo12.after_first_run)))
         = generation_commands (trace Demo12.after_first_run)).
Proof.
  assert (H1 : main_with Demo5.dbt Demo5.loader "lake" ["fivetran_log"; "sales"] None "skip"
                 Demo5.project = (Ok tt, Demo5.after_first_run))
    by (vm_compute; reflexivity).
  assert (H2 : main_with Demo12.strict_dbt Demo5.loader "lake" ["dbt_project.yml"] None
                 "skip" Demo6.nested = (Ok tt, Demo12.after_first_run))
    by (vm_compute; reflexivity).
  assert (S1 : rerun_setting None ["fivetran_log"; "sales"] Demo5.dbt Demo5.project)
    by (left; vm_compute; reflexivity).
  assert (S2 : rerun_setting None ["dbt_project.yml"] Demo12.strict_dbt Demo6.nested).
  { right. split; [vm_compute; reflexivity|].
    intros c dir u. unfold Demo12.strict_dbt.
    destruct (OS.isfile u (PosixPath.join dir descriptor)); [reflexivity | discriminate]. }
  split; (split; [assumption|]); (split; [vm_compute; reflexivity|]).
  2: split; [vm_compute; reflexivity|].
  - exact (skip_rerun_is_idle Demo5.dbt Demo5.loader "lake" ["fivetran_log"; "sales"] None
             "skip" Demo5.project Demo5.after_first_run eq_refl S1 H1).
  - exact (skip_rerun_is_idle Demo12.strict_dbt Demo5.loader "lake" ["dbt_project.yml"] None
             "skip" Demo6.nested Demo12.after_first_run eq_refl S2 H2).
Defined.

(** Why the third setting asks for a tool that needs a project file.
    The search tests [os.path.exists], which is also true of a directory.
    Started in [/p/models] with a schema called [dbt_project.yml], the
    first run finds the project at [/p] and makes the directory
    [/p/models/dbt_project.yml]; the second search stops at that directory
    and takes [/p/models] for the project.  A tool that exits with status
    zero even there lets the run go on and generate everything anew under
    [/p/models/models]; with [Demo12.strict_dbt] the run stops at
    [dbt deps], as the witness above shows. *)
Lemma rerun_astray_with_obliging_tool :
  fst (Demo6.run Demo6.nested) = Ok tt
  /\ fst (Demo6.run Demo6.after_first_run) = Ok tt
  /\ length (generation_commands (trace Demo6.after_first_run)) = 3%nat
  /\ length (generation_commands (trace Demo6.after_second_run)) = 6%nat
  /\ files Demo6.after_first_run
       !! "/p/models/models/dbt_project.yml/_src_dbt_project.yml.yml" = None
  /\ files Demo6.after_second_run
       !! "/p/models/models/dbt_project.yml/_src_dbt_project.yml.yml"
     = Some ("version: 2" +:+ PyStr.nl +:+ "sources: ...").
Proof. repeat split; vm_compute; reflexivity. Qed.
